(** * Pokemon fetch-and-upsert service: a shallow embedding

    The development follows the Django application [pokemon_api]:

    - [models.py]   : the [Pokemon] and [APIRequest] tables and the derived
                      accessors of [Pokemon];
    - [services.py] : [PokemonAPIService] ([fetch_pokemon],
                      [_save_json_to_file], [_log_error]);
    - [views.py]    : [PokemonSearchView.form_valid], [PokemonAPIView.get] and
                      [DownloadJSONView.get];
    - [management/commands/fetch_pokemon.py] : [Command.handle].

    Python code is written in a state-and-exception monad over a [Store] that
    holds the two tables, the media storage, the logger output and the
    sequence of external effects.  Everything the code cannot decide by itself
    (what the provider answers, whether the media storage accepts a file, the
    wall clock, the Unicode database) is read from a [World]. *)

From Stdlib Require Import ZArith NArith List Bool Lia.
From Stdlib Require Import Strings.String Strings.Ascii Numbers.DecimalString.
From Stdlib Require Import Floats.PrimFloat Floats.SpecFloat Floats.FloatOps.
From Stdlib Require Import Sorting.Permutation.

Set Warnings "-register-all".
Import ListNotations.

Local Open Scope string_scope.
Local Open Scope Z_scope.

(* ===================================================================== *)
(** ** Python strings *)
(* ===================================================================== *)

(** A [str] is a sequence of Unicode code points.  Decoding bytes (a request
    path, a form field, a message of a library) gives scalar values only; a
    [str] that came through [sys.argv] or through a JSON escape can also hold
    lone surrogates (U+D800 to U+DFFF), which UTF-8 cannot encode. *)
Inductive code : Type :=
| Scalar (c : N)        (* a scalar value, by its code point *)
| Surrogate (c : N).    (* a lone surrogate, by its code point *)

Definition str : Type := list code.

(** A [str] of scalar values: decoded text. *)
Definition text : Type := list N.

Declare Scope str_scope.
Delimit Scope str_scope with str.
Bind Scope str_scope with str.
Declare Scope text_scope.
Delimit Scope text_scope with text.
Bind Scope text_scope with text.

Module PyStr.

(** The literals of the code are ASCII. *)
Definition lit (s : string) : text := map N_of_ascii (list_ascii_of_string s).

Definition of_text (t : text) : str := map Scalar t.

Definition append (a b : str) : str := (a ++ b)%list.

Definition text_append (a b : text) : text := (a ++ b)%list.

Definition code_point (c : code) : N :=
  match c with
  | Scalar n | Surrogate n => n
  end.

Definition code_eqb (c d : code) : bool :=
  match c, d with
  | Scalar m, Scalar n | Surrogate m, Surrogate n => (m =? n)%N
  | _, _ => false
  end.

(** [a == b] on two strings. *)
Fixpoint eqb (a b : str) : bool :=
  match a, b with
  | [], [] => true
  | c :: a', d :: b' => code_eqb c d && eqb a' b'
  | _, _ => false
  end.

Definition between (lo hi c : N) : bool := ((lo <=? c) && (c <=? hi))%N.

(** The uppercase code points below 256: A-Z and U+00C0-U+00DE except the
    multiplication sign U+00D7.  Each has its lowercase 32 places on. *)
Definition is_cased_upper (c : N) : bool :=
  between 65 90 c || (between 192 222 c && negb (c =? 215)%N).

Definition lower_latin1 (c : N) : N :=
  if is_cased_upper c then (c + 32)%N else c.

(** The lowercase mapping of the Unicode database for a scalar value from
    256 on, which can be several code points, and which for the capital
    sigma depends on what stands before (given nearest first) and after. *)
Definition Unicode : Type := str -> N -> str -> text.

Definition lower_code (u : Unicode) (before : str) (c : code) (after : str) : str :=
  match c with
  | Surrogate _ => [c]
  | Scalar n => if (n <? 256)%N then [Scalar (lower_latin1 n)] else of_text (u before n after)
  end.

Fixpoint lower_from (u : Unicode) (before s : str) : str :=
  match s with
  | [] => []
  | c :: rest => append (lower_code u before c rest) (lower_from u (c :: before) rest)
  end.

(** [str.lower()] *)
Definition lower (u : Unicode) (s : str) : str := lower_from u [] s.

(** [str.isspace()] on one code point. *)
Definition is_space (c : code) : bool :=
  match c with
  | Surrogate _ => false
  | Scalar n =>
      between 9 13 n || between 28 32 n || (n =? 133)%N || (n =? 160)%N ||
      (n =? 5760)%N || between 8192 8202 n || between 8232 8233 n ||
      (n =? 8239)%N || (n =? 8287)%N || (n =? 12288)%N
  end.

Fixpoint lstrip (s : str) : str :=
  match s with
  | [] => []
  | c :: s' => if is_space c then lstrip s' else s
  end.

Fixpoint rstrip (s : str) : str :=
  match s with
  | [] => []
  | c :: s' =>
      match rstrip s' with
      | [] => if is_space c then [] else [c]
      | r => c :: r
      end
  end.

(** [str.strip()] *)
Definition strip (s : str) : str := rstrip (lstrip s).

Fixpoint prefix (p s : str) : bool :=
  match p, s with
  | [], _ => true
  | c :: p', d :: s' => code_eqb c d && prefix p' s'
  | _ :: _, [] => false
  end.

(** [needle in hay] on two strings. *)
Fixpoint contains (needle hay : str) : bool :=
  prefix needle hay ||
  match hay with
  | [] => false
  | _ :: hay' => contains needle hay'
  end.

(** [str(n)] for an [int]. *)
Definition of_Z (z : Z) : text := lit (NilZero.string_of_int (Z.to_int z)).

(** The one-character strings a [for] loop over a [str] yields. *)
Definition chars (s : str) : list str := map (fun c => [c]) s.

Definition is_scalar (c : code) : bool :=
  match c with
  | Scalar _ => true
  | Surrogate _ => false
  end.

(** UTF-8 can encode the string: it holds no lone surrogate. *)
Definition encodable (s : str) : bool := forallb is_scalar s.

(** All code points are below 256. *)
Definition latin1 (s : str) : bool :=
  forallb (fun c => is_scalar c && (code_point c <? 256)%N) s.

(** The string holds a line feed or a carriage return. *)
Definition has_newline (s : str) : bool :=
  existsb (fun c => code_eqb c (Scalar 10) || code_eqb c (Scalar 13)) s.

Definition hex_digit (n : N) : N :=
  if (n <? 10)%N then (48 + n)%N else (87 + n)%N.

(** [%04x] of a code point of the basic plane, as the escape [\uXXXX] has
    it. *)
Definition hex4 (n : N) : text :=
  [hex_digit (N.modulo (N.div n 4096) 16); hex_digit (N.modulo (N.div n 256) 16);
   hex_digit (N.modulo (N.div n 16) 16); hex_digit (N.modulo n 16)].

(** The surrogates a string starts with. *)
Fixpoint surrogate_run (s : str) : list N :=
  match s with
  | Surrogate n :: s' => n :: surrogate_run s'
  | _ => []
  end.

(** Where the encoder stops: the position of the first lone surrogate and
    the run of surrogates that starts there. *)
Fixpoint first_surrogates (pos : Z) (s : str) : option (Z * list N) :=
  match s with
  | [] => None
  | Scalar _ :: s' => first_surrogates (pos + 1) s'
  | Surrogate _ :: _ => Some (pos, surrogate_run s)
  end.

End PyStr.

Coercion PyStr.lit : string >-> text.
Coercion PyStr.of_text : text >-> str.

Notation "a ++ b" := (PyStr.append a b) : str_scope.
Notation "a ++ b" := (PyStr.text_append a b) : text_scope.

(* ===================================================================== *)
(** ** Python floats *)
(* ===================================================================== *)

(** [float] is IEEE 754 binary64 with round-to-nearest-even, which is what
    the kernel's primitive floats implement. *)
Module PyFloat.

(** Correctly rounded conversion of an [int], as [float(n)] computes it
    before it checks for overflow. *)
Definition round_Z (z : Z) : float :=
  SF2Prim (binary_normalize prec emax z 0 false).

Definition is_finite (f : float) : bool :=
  negb (PrimFloat.is_infinity f) && negb (PrimFloat.is_nan f).

Definition is_zero (f : float) : bool := PrimFloat.eqb f PrimFloat.zero.

(** The integer a float is equal to, when there is one. *)
Definition to_Z (f : float) : option Z :=
  match Prim2SF f with
  | S754_zero _ => Some 0
  | S754_finite sign m e =>
      let magnitude :=
        if 0 <=? e then Some (Z.pos m * 2 ^ e)
        else if Z.pos m mod 2 ^ (- e) =? 0 then Some (Z.pos m / 2 ^ (- e))
        else None in
      match magnitude with
      | Some z => Some (if sign then - z else z)
      | None => None
      end
  | _ => None
  end.

End PyFloat.

(* ===================================================================== *)
(** ** Python values decoded from JSON, and exceptions *)
(* ===================================================================== *)

(** What [response.json()] can return, and what a [JSONField] holds.  A
    [dict] keeps its items in insertion order; the decoder leaves one item
    per key. *)
Inductive JSON : Type :=
| JNull
| JBool (b : bool)
| JInt (z : Z)
| JFloat (f : float)
| JStr (s : str)
| JArr (items : list JSON)
| JObj (members : list (str * JSON)).

(** One member of a document. *)
Definition item (k : str) (v : JSON) : str * JSON := (k, v).

Inductive ExcClass : Type :=
| Timeout | ConnectTimeout | ReadTimeout      (* requests.exceptions *)
| ConnectionError | RequestException
| JSONDecodeError
| KeyError | TypeError | ValueError | OverflowError | AttributeError
| UnicodeEncodeError
| OSError
| IntegrityError | DoesNotExist | MultipleObjectsReturned   (* django.db *)
| BadHeaderError                                            (* django.http *)
| OtherException.

(** An exception instance: its class and what [str(e)] prints.  The texts
    are those the interpreter and the libraries write: they show an
    offending value through [repr], which escapes what cannot be encoded, so
    a text holds scalar values only. *)
Record exn : Type := mkExn { exc_class : ExcClass; exc_str : text }.

(** [requests.exceptions.Timeout] and its subclasses. *)
Definition isinstance_Timeout (e : exn) : bool :=
  match exc_class e with
  | Timeout | ConnectTimeout | ReadTimeout => true
  | _ => false
  end.

(** [requests.exceptions.ConnectionError] and its subclasses
    ([ConnectTimeout] inherits from both). *)
Definition isinstance_ConnectionError (e : exn) : bool :=
  match exc_class e with
  | ConnectionError | ConnectTimeout => true
  | _ => false
  end.

Definition isinstance_DoesNotExist (e : exn) : bool :=
  match exc_class e with
  | DoesNotExist => true
  | _ => false
  end.

Inductive result (A : Type) : Type :=
| Ok (a : A)
| Raise (e : exn).
Arguments Ok {A} a.
Arguments Raise {A} e.

Module Py.

Definition type_name (v : JSON) : text :=
  match v with
  | JNull => "NoneType"
  | JBool _ => "bool"
  | JInt _ => "int"
  | JFloat _ => "float"
  | JStr _ => "str"
  | JArr _ => "list"
  | JObj _ => "dict"
  end.

(** Truth value of an object, as [if v] and [not v] test it. *)
Definition truthy (v : JSON) : bool :=
  match v with
  | JNull => false
  | JBool b => b
  | JInt z => negb (z =? 0)
  | JFloat f => negb (PyFloat.is_zero f)
  | JStr s => match s with [] => false | _ => true end
  | JArr l => match l with [] => false | _ => true end
  | JObj l => match l with [] => false | _ => true end
  end.

(** The subscripts and keys the code uses are literals. *)
Fixpoint lookup (k : text) (kvs : list (str * JSON)) : option JSON :=
  match kvs with
  | [] => None
  | (k', v) :: rest => if PyStr.eqb k k' then Some v else lookup k rest
  end.

Definition key_error (k : text) : exn := mkExn KeyError ("'" ++ k ++ "'").

(** [v[k]] for a [str] key. *)
Definition getitem (v : JSON) (k : text) : result JSON :=
  match v with
  | JObj kvs =>
      match lookup k kvs with
      | Some x => Ok x
      | None => Raise (key_error k)
      end
  | JArr _ => Raise (mkExn TypeError "list indices must be integers or slices, not str")
  | JStr _ => Raise (mkExn TypeError "string indices must be integers, not 'str'")
  | _ => Raise (mkExn TypeError ("'" ++ type_name v ++ "' object is not subscriptable"))
  end.

Definition is_str (k : text) (v : JSON) : bool :=
  match v with
  | JStr s => PyStr.eqb k s
  | _ => false
  end.

(** [k in v] for a [str] key. *)
Definition contains (k : text) (v : JSON) : result bool :=
  match v with
  | JObj kvs => Ok (match lookup k kvs with Some _ => true | None => false end)
  | JArr l => Ok (existsb (is_str k) l)
  | JStr s => Ok (PyStr.contains k s)
  | _ => Raise (mkExn TypeError ("argument of type '" ++ type_name v ++ "' is not iterable"))
  end.

(** The items a [for] loop over [v] visits. *)
Definition iter (v : JSON) : result (list JSON) :=
  match v with
  | JArr l => Ok l
  | JObj kvs => Ok (map (fun kv => JStr (fst kv)) kvs)
  | JStr s => Ok (map JStr (PyStr.chars s))
  | _ => Raise (mkExn TypeError ("'" ++ type_name v ++ "' object is not iterable"))
  end.

(** [v.get(k)] *)
Definition get (v : JSON) (k : text) : result JSON :=
  match v with
  | JObj kvs => Ok (match lookup k kvs with Some x => x | None => JNull end)
  | _ => Raise (mkExn AttributeError ("'" ++ type_name v ++ "' object has no attribute 'get'"))
  end.

Definition hashable (v : JSON) : bool :=
  match v with
  | JArr _ | JObj _ => false
  | _ => true
  end.

(** The number a key stands for: [True] and [False] are the integers 1 and
    0, a float that is equal to an integer is that integer. *)
Inductive Number : Type :=
| Integer (z : Z)
| Fraction (f : float)      (* a float that no integer equals *)
| NotANumber.

Definition number_of (v : JSON) : option Number :=
  match v with
  | JBool b => Some (Integer (if b then 1 else 0))
  | JInt z => Some (Integer z)
  | JFloat f =>
      if PrimFloat.is_nan f then Some NotANumber
      else match PyFloat.to_Z f with
           | Some z => Some (Integer z)
           | None => Some (Fraction f)
           end
  | _ => None
  end.

(** Two hashable values are the same key of a [dict]: equal strings, equal
    numbers whatever their types, [None] and [None].  The decoder gives one
    object for every NaN, and a key is found by identity before equality, so
    NaN is the same key as NaN. *)
Definition same_key (a b : JSON) : bool :=
  match a, b with
  | JNull, JNull => true
  | JStr s, JStr t => PyStr.eqb s t
  | _, _ =>
      match number_of a, number_of b with
      | Some (Integer m), Some (Integer n) => m =? n
      | Some (Fraction f), Some (Fraction g) => PrimFloat.eqb f g
      | Some NotANumber, Some NotANumber => true
      | _, _ => false
      end
  end.

(** [d[k] = v]: an equal key keeps its place and its first spelling and gets
    the new value; a new key goes last. *)
Fixpoint dict_set (k v : JSON) (d : list (JSON * JSON)) : list (JSON * JSON) :=
  match d with
  | [] => [(k, v)]
  | (k', v') :: rest =>
      if same_key k k' then (k', v) :: rest else (k', v') :: dict_set k v rest
  end.

(** The [dict] a sequence of insertions builds. *)
Definition dict_of (insertions : list (JSON * JSON)) : list (JSON * JSON) :=
  fold_left (fun d kv => dict_set (fst kv) (snd kv) d) insertions [].

(** A list comprehension [[body x for x in xs if cond x]]: the first
    exception raised by [cond] or [body] ends it. *)
Fixpoint comprehension {A B : Type} (cond : A -> result bool) (body : A -> result B)
         (xs : list A) : result (list B) :=
  match xs with
  | [] => Ok []
  | x :: rest =>
      match cond x with
      | Raise e => Raise e
      | Ok false => comprehension cond body rest
      | Ok true =>
          match body x with
          | Raise e => Raise e
          | Ok y =>
              match comprehension cond body rest with
              | Raise e => Raise e
              | Ok ys => Ok (y :: ys)
              end
          end
      end
  end.

End Py.


(* ===================================================================== *)
(** ** Computations *)
(* ===================================================================== *)

Section Monad.

Variable S : Type.

(** A computation runs on a store and leaves a store behind, whether it
    returns or raises: writes made before an exception stay. *)
Definition M (A : Type) : Type := S -> S * result A.

Definition ret {A} (a : A) : M A := fun s => (s, Ok a).

Definition raise {A} (e : exn) : M A := fun s => (s, Raise e).

Definition bind {A B} (c : M A) (k : A -> M B) : M B :=
  fun s =>
    match c s with
    | (s', Ok a) => k a s'
    | (s', Raise e) => (s', Raise e)
    end.

(** [try: c  except ...: h e] *)
Definition try_except {A} (c : M A) (h : exn -> M A) : M A :=
  fun s =>
    match c s with
    | (s', Ok a) => (s', Ok a)
    | (s', Raise e) => h e s'
    end.

(** A pure expression that may raise. *)
Definition lift {A} (r : result A) : M A := fun s => (s, r).

Definition modify (f : S -> S) : M unit := fun s => (f s, Ok tt).

Definition gets {A} (f : S -> A) : M A := fun s => (s, Ok (f s)).

End Monad.

Arguments ret {S A} a.
Arguments raise {S A} e.
Arguments bind {S A B} c k.
Arguments try_except {S A} c h.
Arguments lift {S A} r.
Arguments modify {S} f.
Arguments gets {S A} f.

Declare Scope py_scope.
Delimit Scope py_scope with py.
Notation "x <- c ;; k" := (bind c (fun x => k))
  (at level 61, c at next level, right associativity) : py_scope.
Notation "c ;; k" := (bind c (fun _ => k))
  (at level 61, right associativity) : py_scope.
Local Open Scope py_scope.

Definition and_then {A B} (r : result A) (k : A -> result B) : result B :=
  match r with
  | Ok a => k a
  | Raise e => Raise e
  end.

(* ===================================================================== *)
(** ** models.py *)
(* ===================================================================== *)

(** [class Pokemon(models.Model)], as a row of its table.  [pk] is the
    automatic primary key; the two timestamps are readings of the clock. *)
Record Pokemon : Type := mkPokemon {
  pk : Z;
  pokemon_id : Z;                 (* IntegerField(unique=True) *)
  name : str;                     (* CharField(max_length=100, unique=True) *)
  height : Z;                     (* IntegerField(), decimeters *)
  weight : Z;                     (* IntegerField(), hectograms *)
  base_experience : option Z;     (* IntegerField(null=True, blank=True) *)
  raw_data : JSON;                (* JSONField() *)
  created_at : Z;                 (* DateTimeField(auto_now_add=True) *)
  updated_at : Z                  (* DateTimeField(auto_now=True) *)
}.

(** [class APIRequest(models.Model)] *)
Record APIRequest : Type := mkAPIRequest {
  pokemon_name : str;                 (* CharField(max_length=100) *)
  success : bool;                     (* BooleanField() *)
  error_message : str;                (* TextField(blank=True) *)
  http_status_code : option Z;        (* IntegerField(null=True, blank=True) *)
  request_timestamp : Z;              (* DateTimeField(auto_now_add=True) *)
  response_data : option JSON         (* JSONField(null=True, blank=True) *)
}.

(** [Pokemon.__str__] *)
Definition Pokemon_str (self : Pokemon) : str :=
  (name self ++ " (#" ++ PyStr.of_Z (pokemon_id self) ++ ")")%str.

(** [n * 0.1] for an [int] [n]: the integer is converted to [float] first,
    which raises [OverflowError] beyond the range of binary64. *)
Definition int_times_tenth (n : Z) : result float :=
  let f := PyFloat.round_Z n in
  if PyFloat.is_finite f
  then Ok (PrimFloat.mul f 0x1.999999999999ap-4%float)
  else Raise (mkExn OverflowError "int too large to convert to float").

(** [Pokemon.height_in_meters] *)
Definition height_in_meters (self : Pokemon) : result float :=
  int_times_tenth (height self).

(** [Pokemon.weight_in_kg] *)
Definition weight_in_kg (self : Pokemon) : result float :=
  int_times_tenth (weight self).

(** [if self.raw_data and key in self.raw_data]: [and] does not evaluate its
    right operand when the left one is false. *)
Definition has_key (raw : JSON) (key : text) : result bool :=
  if Py.truthy raw then Py.contains key raw else Ok false.

(** [x[k1][k2]] *)
Definition getitem2 (x : JSON) (k1 k2 : text) : result JSON :=
  and_then (Py.getitem x k1) (fun y => Py.getitem y k2).

(** [Pokemon.types] *)
Definition types (self : Pokemon) : result (list JSON) :=
  and_then (has_key (raw_data self) "types") (fun present =>
  if present then
    and_then (Py.getitem (raw_data self) "types") (fun seq =>
    and_then (Py.iter seq) (fun items =>
    Py.comprehension (fun _ => Ok true)
                     (fun type_data => getitem2 type_data "type" "name")
                     items))
  else Ok []).

(** [ability['is_hidden']] as a condition. *)
Definition is_hidden (ability : JSON) : result bool :=
  and_then (Py.getitem ability "is_hidden") (fun h => Ok (Py.truthy h)).

(** [Pokemon.abilities] *)
Definition abilities (self : Pokemon) : result (list JSON) :=
  and_then (has_key (raw_data self) "abilities") (fun present =>
  if present then
    and_then (Py.getitem (raw_data self) "abilities") (fun seq =>
    and_then (Py.iter seq) (fun items =>
    Py.comprehension (fun ability => and_then (is_hidden ability) (fun h => Ok (negb h)))
                     (fun ability => getitem2 ability "ability" "name")
                     items))
  else Ok []).

(** [Pokemon.hidden_abilities] *)
Definition hidden_abilities (self : Pokemon) : result (list JSON) :=
  and_then (has_key (raw_data self) "abilities") (fun present =>
  if present then
    and_then (Py.getitem (raw_data self) "abilities") (fun seq =>
    and_then (Py.iter seq) (fun items =>
    Py.comprehension is_hidden
                     (fun ability => getitem2 ability "ability" "name")
                     items))
  else Ok []).

(** One item of the dict comprehension of [base_stats]: the key expression,
    then the value expression, then the insertion, which hashes the key. *)
Definition stat_item (stat : JSON) : result (JSON * JSON) :=
  and_then (getitem2 stat "stat" "name") (fun k =>
  and_then (Py.getitem stat "base_stat") (fun v =>
  if Py.hashable k then Ok (k, v)
  else Raise (mkExn TypeError ("unhashable type: '" ++ Py.type_name k ++ "'")))).

(** [Pokemon.base_stats].  The [dict] is given by its items in order; the
    empty list is the empty [dict]. *)
Definition base_stats (self : Pokemon) : result (list (JSON * JSON)) :=
  and_then (has_key (raw_data self) "stats") (fun present =>
  if present then
    and_then (Py.getitem (raw_data self) "stats") (fun seq =>
    and_then (Py.iter seq) (fun items =>
    and_then (Py.comprehension (fun _ => Ok true) stat_item items) (fun insertions =>
    Ok (Py.dict_of insertions))))
  else Ok []).

(* ===================================================================== *)
(** ** The world outside the process, and the store *)
(* ===================================================================== *)

(** [requests.Response], as far as the service reads it: the status code and
    what [response.json()] gives (the decoded document, or the exception it
    raises). *)
Record Response : Type := mkResponse {
  status_code : Z;
  json : result JSON
}.

(** The styles of [self.style] the command uses. *)
Inductive Style : Type := PLAIN | SUCCESS | ERROR_STYLE.

(** A line the command writes: the style and the text. *)
Definition Written : Type := (Style * str)%type.

Record World : Type := mkWorld {
  (** [session.get(url, timeout=TIMEOUT)]: a response, or the exception it
      raises. *)
  http_get : str -> result Response;
  (** [default_storage.save(filename, content)]: [Some e] when it raises. *)
  storage_save : str -> option exn;
  (** A file of that name is in the storage though no save recorded in the
      store has written it: left by a write that failed, or put there by
      other means. *)
  name_taken : str -> bool;
  (** The name the storage gives a file whose name is taken (it never
      overwrites), from the names in use and the name asked for. *)
  alternative_name : list str -> str -> str;
  (** [timezone.now()] *)
  clock : Z;
  (** [int(v)] on a [float] or a [str], used by an [IntegerField]. *)
  py_int : JSON -> result Z;
  (** [repr(v)] of a [str], a [float], a [list] or a [dict]. *)
  py_repr : JSON -> text;
  (** The lowercase mappings of the Unicode database. *)
  unicode : PyStr.Unicode;
  (** [Header(value, 'utf-8').encode()], which a response applies to a
      header value outside Latin-1. *)
  mime_header : str -> result str;
  (** [sys.stdout.write(line)]: [Some e] when the stream cannot encode the
      line. *)
  stdout_write : Written -> option exn
}.

(** [s.lower()] in a world. *)
Definition lower (w : World) (s : str) : str := PyStr.lower (unicode w) s.

Inductive Level : Type := INFO | WARNING | ERROR.

(** What the process does to its collaborators, in order. *)
Inductive Event : Type :=
| EvHttpGet (url : str)                 (* session.get *)
| EvRequestLogInsert                    (* APIRequest.objects.create *)
| EvPokemonUpsert                       (* Pokemon.objects.update_or_create *)
| EvPokemonGetByName (key : str)        (* Pokemon.objects.get(name=...) *)
| EvStorageSave (filename : str).       (* default_storage.save *)

Record Store : Type := mkStore {
  pokemons : list Pokemon;                (* table of Pokemon *)
  next_pk : Z;                            (* its primary-key sequence *)
  api_requests : list APIRequest;         (* table of APIRequest, oldest first *)
  media : list (str * JSON);              (* files of the storage: name, document *)
  logger : list (Level * str);            (* records emitted, oldest first *)
  effects : list Event                    (* oldest first *)
}.

Definition set_pokemons (rows : list Pokemon) (n : Z) (s : Store) : Store :=
  mkStore rows n (api_requests s) (media s) (logger s) (effects s).

Definition add_api_request (r : APIRequest) (s : Store) : Store :=
  mkStore (pokemons s) (next_pk s) (api_requests s ++ [r]) (media s) (logger s) (effects s).

Definition add_media (f : str * JSON) (s : Store) : Store :=
  mkStore (pokemons s) (next_pk s) (api_requests s) (media s ++ [f]) (logger s) (effects s).

Definition add_log (l : Level * str) (s : Store) : Store :=
  mkStore (pokemons s) (next_pk s) (api_requests s) (media s) (logger s ++ [l]) (effects s).

Definition add_effect (e : Event) (s : Store) : Store :=
  mkStore (pokemons s) (next_pk s) (api_requests s) (media s) (logger s) (effects s ++ [e]).

Definition emit (e : Event) : M Store unit := modify (add_effect e).

Definition logger_info (msg : str) : M Store unit := modify (add_log (INFO, msg)).
Definition logger_warning (msg : str) : M Store unit := modify (add_log (WARNING, msg)).
Definition logger_error (msg : str) : M Store unit := modify (add_log (ERROR, msg)).

(** [str(v)], as an f-string formats a value. *)
Definition py_str (w : World) (v : JSON) : str :=
  match v with
  | JStr s => s
  | JInt z => PyStr.of_Z z
  | JBool true => "True"
  | JBool false => "False"
  | JNull => "None"
  | _ => py_repr w v
  end.


(* ===================================================================== *)
(** ** The ORM *)
(* ===================================================================== *)

(** The database is the one a fresh Django project has, SQLite.  A write
    goes through three stages, each over all columns in their order: the
    fields convert the Python values ([int()], [str()]); the driver binds
    them (an INTEGER holds a signed 64-bit value, a TEXT is encoded as
    UTF-8); the table checks its constraints (NOT NULL, then CHECK, then
    UNIQUE; a [max_length] is not enforced on write).  Outages of the
    database are outside the model. *)
Module ORM.

Definition sqlite_integer (z : Z) : bool :=
  (- 2 ^ 63 <=? z) && (z <? 2 ^ 63).

(** [IntegerField.get_prep_value]: [None] stays, anything else goes through
    [int()]. *)
Definition to_int (w : World) (column : text) (v : JSON) : result (option Z) :=
  match v with
  | JNull => Ok None
  | JInt z => Ok (Some z)
  | JBool b => Ok (Some (if b then 1 else 0))
  | JFloat _ | JStr _ => and_then (py_int w v) (fun z => Ok (Some z))
  | JArr _ | JObj _ =>
      Raise (mkExn TypeError
               ("Field '" ++ column ++ "' expected a number but got " ++ py_repr w v ++ "."))
  end.

(** The driver binds an [int]. *)
Definition bind_int (oz : option Z) : result (option Z) :=
  match oz with
  | None => Ok None
  | Some z =>
      if sqlite_integer z then Ok (Some z)
      else Raise (mkExn OverflowError "Python int too large to convert to SQLite INTEGER")
  end.

(** An [IntegerField] from the Python value to the bound parameter. *)
Definition integer_field (w : World) (column : text) (v : JSON) : result (option Z) :=
  and_then (to_int w column v) bind_int.

(** What the encoder says of the first lone surrogates of a string. *)
Definition unicode_encode_error (s : str) : exn :=
  mkExn UnicodeEncodeError
    match PyStr.first_surrogates 0 s with
    | Some (pos, [c]) =>
        "'utf-8' codec can't encode character '\u" ++ PyStr.hex4 c ++ "' in position "
        ++ PyStr.of_Z pos ++ ": surrogates not allowed"
    | Some (pos, run) =>
        "'utf-8' codec can't encode characters in position " ++ PyStr.of_Z pos ++ "-"
        ++ PyStr.of_Z (pos + Z.of_nat (List.length run) - 1) ++ ": surrogates not allowed"
    | None => ""
    end.

(** The driver binds a [str]. *)
Definition bind_text (s : str) : result str :=
  if PyStr.encodable s then Ok s else Raise (unicode_encode_error s).

Definition bind_optional_text (o : option str) : result (option str) :=
  match o with
  | None => Ok None
  | Some s => and_then (bind_text s) (fun s' => Ok (Some s'))
  end.

(** [CharField.get_prep_value]: [None] stays, a [str] stays, anything else
    goes through [str()]. *)
Definition char_field (w : World) (v : JSON) : option str :=
  match v with
  | JNull => None
  | _ => Some (py_str w v)
  end.

Definition not_null {A} (column : text) (o : option A) : result A :=
  match o with
  | Some a => Ok a
  | None => Raise (mkExn IntegrityError
                     ("NOT NULL constraint failed: pokemon_api_pokemon." ++ column))
  end.

Definition unique_violation (column : text) : exn :=
  mkExn IntegrityError ("UNIQUE constraint failed: pokemon_api_pokemon." ++ column).

(** A [JSONField] column carries the constraint [JSON_VALID(column)].  The
    decoder of the response accepts NaN and the infinities, the encoder of
    the field writes them back as such, and [JSON_VALID] rejects that text.
    The encoder escapes everything outside ASCII, lone surrogates too. *)
Fixpoint json_valid (v : JSON) : bool :=
  match v with
  | JFloat f => PyFloat.is_finite f
  | JArr items => forallb json_valid items
  | JObj members => forallb (fun kv => let '(_, x) := kv in json_valid x) members
  | _ => true
  end.

Definition check_violation (table column : text) : exn :=
  mkExn IntegrityError ("CHECK constraint failed: " ++ table ++ "." ++ column).

Definition json_field (table column : text) (v : JSON) : result JSON :=
  if json_valid v then Ok v else Raise (check_violation table column).

(** The [defaults] of [update_or_create], as Python values. *)
Record Defaults : Type := mkDefaults {
  d_name : JSON;
  d_height : JSON;
  d_weight : JSON;
  d_base_experience : JSON;
  d_raw_data : JSON
}.

(** The same after conversion and binding: parameters of the statement. *)
Record Parameters : Type := mkParameters {
  q_name : option str;
  q_height : option Z;
  q_weight : option Z;
  q_base_experience : option Z;
  q_raw_data : JSON
}.

(** The same, as the columns receive them. *)
Record Columns : Type := mkColumns {
  c_name : str;
  c_height : Z;
  c_weight : Z;
  c_base_experience : option Z;
  c_raw_data : JSON
}.

(** First stage: the fields convert. *)
Definition convert (w : World) (d : Defaults) : result Parameters :=
  and_then (to_int w "height" (d_height d)) (fun h =>
  and_then (to_int w "weight" (d_weight d)) (fun wt =>
  and_then (to_int w "base_experience" (d_base_experience d)) (fun be =>
  Ok (mkParameters (char_field w (d_name d)) h wt be (d_raw_data d))))).

(** Second stage: the driver binds. *)
Definition bind_parameters (q : Parameters) : result Parameters :=
  and_then (bind_optional_text (q_name q)) (fun n =>
  and_then (bind_int (q_height q)) (fun h =>
  and_then (bind_int (q_weight q)) (fun wt =>
  and_then (bind_int (q_base_experience q)) (fun be =>
  Ok (mkParameters n h wt be (q_raw_data q)))))).

(** Third stage, without the UNIQUE indexes: NOT NULL, then CHECK. *)
Definition constrain (q : Parameters) : result Columns :=
  and_then (not_null "name" (q_name q)) (fun n =>
  and_then (not_null "height" (q_height q)) (fun h =>
  and_then (not_null "weight" (q_weight q)) (fun wt =>
  and_then (json_field "pokemon_api_pokemon" "raw_data" (q_raw_data q)) (fun raw =>
  Ok (mkColumns n h wt (q_base_experience q) raw))))).

(** The columns an UPDATE sets from the defaults. *)
Definition prepare (w : World) (d : Defaults) : result Columns :=
  and_then (and_then (convert w d) bind_parameters) constrain.

(** The id and the columns of an INSERT: [pokemon_id] is the first
    parameter and the first column. *)
Definition prepare_insert (w : World) (converted_id : option Z) (d : Defaults)
  : result (Z * Columns) :=
  and_then (convert w d) (fun q =>
  and_then (bind_int converted_id) (fun oid =>
  and_then (bind_parameters q) (fun q' =>
  and_then (not_null "pokemon_id" oid) (fun id =>
  and_then (constrain q') (fun c =>
  Ok (id, c)))))).

Definition has_id (id : Z) (p : Pokemon) : bool := pokemon_id p =? id.
Definition has_name (n : str) (p : Pokemon) : bool := PyStr.eqb (name p) n.
Definition has_pk (k : Z) (p : Pokemon) : bool := pk p =? k.

(** [INSERT]: a fresh primary key, both timestamps set. *)
Definition insert_row (now id : Z) (c : Columns) : M Store Pokemon :=
  fun s =>
    if existsb (has_id id) (pokemons s) then (s, Raise (unique_violation "pokemon_id"))
    else if existsb (has_name (c_name c)) (pokemons s) then (s, Raise (unique_violation "name"))
    else
      let p := mkPokemon (next_pk s) id (c_name c) (c_height c) (c_weight c)
                         (c_base_experience c) (c_raw_data c) now now in
      (set_pokemons (pokemons s ++ [p]) (next_pk s + 1) s, Ok p).

(** [UPDATE ... WHERE id = pk]: the defaults overwrite the columns,
    [updated_at] is refreshed, [created_at] and the keys stay. *)
Definition update_row (now : Z) (old : Pokemon) (c : Columns) : M Store Pokemon :=
  fun s =>
    if existsb (fun q => has_name (c_name c) q && negb (has_pk (pk old) q)) (pokemons s)
    then (s, Raise (unique_violation "name"))
    else
      let p := mkPokemon (pk old) (pokemon_id old) (c_name c) (c_height c) (c_weight c)
                         (c_base_experience c) (c_raw_data c) (created_at old) now in
      (set_pokemons (map (fun q => if has_pk (pk old) q then p else q) (pokemons s))
                    (next_pk s) s,
       Ok p).

(** The object [update_or_create] returns: the row the table now holds, and
    the attributes as Python has them.  The attributes set from the defaults
    are the values passed in, not what the columns made of them; the id is
    the value passed in on a creation and the column of the row found on an
    update. *)
Record Instance : Type := mkInstance {
  row : Pokemon;
  attr_pokemon_id : JSON;
  attr_name : JSON;
  attr_height : JSON;
  attr_weight : JSON;
  attr_base_experience : JSON
}.

Definition instance_of (p : Pokemon) (v_id : JSON) (d : Defaults) : Instance :=
  mkInstance p v_id (d_name d) (d_height d) (d_weight d) (d_base_experience d).

(** The rows a lookup by a converted id finds: none for [None] and none
    for an id outside the range of the column, which the query does not
    even send. *)
Definition rows_with_id (converted_id : option Z) (rows : list Pokemon) : list Pokemon :=
  match bind_int converted_id with
  | Ok (Some id) => filter (has_id id) rows
  | _ => []
  end.

(** [Pokemon.objects.update_or_create(pokemon_id=v_id, defaults=d)].  It
    runs in a transaction: when it raises, the table is as before. *)
Definition Pokemon_update_or_create (w : World) (v_id : JSON) (d : Defaults)
  : M Store (Instance * bool) :=
  emit EvPokemonUpsert ;;
  converted_id <- lift (to_int w "pokemon_id" v_id) ;;
  rows <- gets pokemons ;;
  match rows_with_id converted_id rows with
  | [] =>
      ic <- lift (prepare_insert w converted_id d) ;;
      p <- insert_row (clock w) (fst ic) (snd ic) ;;
      ret (instance_of p v_id d, true)
  | [old] =>
      c <- lift (prepare w d) ;;
      p <- update_row (clock w) old c ;;
      ret (instance_of p (JInt (pokemon_id old)) d, false)
  | _ => raise (mkExn MultipleObjectsReturned
                  "get() returned more than one Pokemon")
  end.

(** [Pokemon.objects.get(name=key)] *)
Definition Pokemon_get_by_name (key : str) : M Store Pokemon :=
  emit (EvPokemonGetByName key) ;;
  lift (bind_text key) ;;
  rows <- gets pokemons ;;
  match filter (has_name key) rows with
  | [] => raise (mkExn DoesNotExist "Pokemon matching query does not exist.")
  | [p] => ret p
  | _ => raise (mkExn MultipleObjectsReturned
                  "get() returned more than one Pokemon")
  end.

(** [APIRequest.objects.create(...)].  The driver binds the two texts, the
    name first; of the constraints of the table only the one on
    [response_data] can be broken by the values the service writes (a status
    code has three digits, the other columns get a [bool], a timestamp, or
    NULL where NULL is allowed). *)
Definition APIRequest_create (w : World) (pokemon_name : str) (ok : bool)
           (code : option Z) (msg : str) (data : option JSON) : M Store unit :=
  emit EvRequestLogInsert ;;
  lift (bind_text pokemon_name) ;;
  lift (bind_text msg) ;;
  match data with
  | Some d => if json_valid d then ret tt
              else raise (check_violation "pokemon_api_apirequest" "response_data")
  | None => ret tt
  end ;;
  modify (add_api_request (mkAPIRequest pokemon_name ok msg code (clock w) data)).

End ORM.

Coercion ORM.row : ORM.Instance >-> Pokemon.

(* ===================================================================== *)
(** ** services.py *)
(* ===================================================================== *)

Definition BASE_URL : str := "https://pokeapi.co/api/v2/pokemon/".
Definition TIMEOUT : Z := 30.

(** [self.session.get(url, timeout=self.TIMEOUT)] *)
Definition session_get (w : World) (url : str) : M Store Response :=
  emit (EvHttpGet url) ;;
  lift (http_get w url).

(** [response.json()] *)
Definition response_json (response : Response) : M Store JSON :=
  lift (json response).

(** The name under which the storage files a document: the name asked for
    when it is free, another one otherwise. *)
Definition stored_name (w : World) (in_use : list str) (filename : str) : str :=
  if existsb (PyStr.eqb filename) in_use || name_taken w filename
  then alternative_name w in_use filename
  else filename.

(** [default_storage.save(filename, ContentFile(json.dumps(data, indent=2)))];
    the content is kept as the document it serialises. *)
Definition default_storage_save (w : World) (filename : str) (data : JSON)
  : M Store unit :=
  emit (EvStorageSave filename) ;;
  match storage_save w filename with
  | Some e => raise e
  | None =>
      in_use <- gets (fun s => map fst (media s)) ;;
      modify (add_media (stored_name w in_use filename, data))
  end.

(** The three values [fetch_pokemon] returns:
    (Pokemon instance or None, success boolean, error message). *)
Definition FetchResult : Type := (option ORM.Instance * bool * option str)%type.

(** [PokemonAPIService._save_json_to_file] *)
Definition _save_json_to_file (w : World) (data : JSON) (pokemon_name : str)
  : M Store unit :=
  try_except
    (v_id <- lift (Py.getitem data "id") ;;
     let filename := ("pokemon_data/" ++ pokemon_name ++ "_" ++ py_str w v_id ++ ".json")%str in
     default_storage_save w filename data ;;
     logger_info ("Saved JSON data to " ++ filename))
    (fun e => logger_error ("Failed to save JSON file: " ++ exc_str e)).

(** [PokemonAPIService._log_error] *)
Definition _log_error (w : World) (pokemon_name error_message : str) : M Store unit :=
  ORM.APIRequest_create w pokemon_name false None error_message None.

(** [PokemonAPIService.fetch_pokemon] *)
Definition fetch_pokemon (w : World) (pokemon_name : str) : M Store FetchResult :=
  let pokemon_name := PyStr.strip (lower w pokemon_name) in
  let url := (BASE_URL ++ pokemon_name ++ "/")%str in
  try_except
    (logger_info ("Fetching Pokemon data for: " ++ pokemon_name) ;;
     response <- session_get w url ;;
     (* Log the API request *)
     body <- (if status_code response =? 200
              then (d <- response_json response ;; ret (Some d))
              else ret None) ;;
     ORM.APIRequest_create w pokemon_name
        (status_code response =? 200)
        (Some (status_code response))
        (if status_code response =? 200 then ""
         else "HTTP " ++ PyStr.of_Z (status_code response))%str
        body ;;
     if status_code response =? 200 then
       data <- response_json response ;;
       (* Save JSON data to file *)
       _save_json_to_file w data pokemon_name ;;
       (* Create or update Pokemon in database *)
       v_id <- lift (Py.getitem data "id") ;;
       v_name <- lift (Py.getitem data "name") ;;
       v_height <- lift (Py.getitem data "height") ;;
       v_weight <- lift (Py.getitem data "weight") ;;
       v_exp <- lift (Py.get data "base_experience") ;;
       pc <- ORM.Pokemon_update_or_create w v_id
               (ORM.mkDefaults v_name v_height v_weight v_exp data) ;;
       let action : str := if snd pc then "Created" else "Updated" in
       logger_info (action ++ " Pokemon: " ++ py_str w (ORM.attr_name (fst pc))) ;;
       ret (Some (fst pc), true, None)
     else if status_code response =? 404 then
       let error_msg := ("Pokemon '" ++ pokemon_name ++ "' not found")%str in
       logger_warning error_msg ;;
       ret (None, false, Some error_msg)
     else
       let error_msg := ("API request failed with status "
                         ++ PyStr.of_Z (status_code response))%str in
       logger_error error_msg ;;
       ret (None, false, Some error_msg))
    (fun e =>
       if isinstance_Timeout e then
         let error_msg := ("Request timeout for Pokemon: " ++ pokemon_name)%str in
         logger_error error_msg ;;
         _log_error w pokemon_name error_msg ;;
         ret (None, false, Some error_msg)
       else if isinstance_ConnectionError e then
         let error_msg := ("Connection error when fetching Pokemon: " ++ pokemon_name)%str in
         logger_error error_msg ;;
         _log_error w pokemon_name error_msg ;;
         ret (None, false, Some error_msg)
       else
         let error_msg := ("Unexpected error: " ++ exc_str e)%str in
         logger_error error_msg ;;
         _log_error w pokemon_name error_msg ;;
         ret (None, false, Some error_msg)).


(* ===================================================================== *)
(** ** views.py *)
(* ===================================================================== *)

(** The ['data'] object of a successful JSON answer.  The first four values
    and the base experience are attributes of the object, whatever they
    hold. *)
Record PokemonData : Type := mkPokemonData {
  data_id : JSON;
  data_name : JSON;
  data_height : JSON;
  data_weight : JSON;
  data_height_meters : float;
  data_weight_kg : float;
  data_base_experience : JSON;
  data_types : list JSON;
  data_abilities : list JSON;
  data_hidden_abilities : list JSON;
  data_base_stats : list (JSON * JSON)
}.

Inductive Body : Type :=
| BodySuccess (data : PokemonData)      (* {'success': True, 'data': {...}} *)
| BodyFailure (error : str).            (* {'success': False, 'error': ...} *)

Record JsonResponse : Type := mkJsonResponse {
  body : Body;
  status : Z
}.

(** A nullable integer column as Python reads it. *)
Definition optional_int (o : option Z) : JSON :=
  match o with
  | Some z => JInt z
  | None => JNull
  end.

(** The dict display of the first branch of [PokemonAPIView.get], on an
    object loaded from its row: the properties are read in the order of the
    keys. *)
Definition pokemon_data (pokemon : Pokemon) : result PokemonData :=
  and_then (height_in_meters pokemon) (fun hm =>
  and_then (weight_in_kg pokemon) (fun wk =>
  and_then (types pokemon) (fun ts =>
  and_then (abilities pokemon) (fun ab =>
  and_then (hidden_abilities pokemon) (fun hid =>
  and_then (base_stats pokemon) (fun st =>
  Ok (mkPokemonData (JInt (pokemon_id pokemon)) (JStr (name pokemon))
                    (JInt (height pokemon)) (JInt (weight pokemon))
                    hm wk (optional_int (base_experience pokemon)) ts ab hid st))))))).

(** [v * 0.1] for an attribute that holds any value. *)
Definition times_tenth (v : JSON) : result float :=
  match v with
  | JInt n => int_times_tenth n
  | JBool b => int_times_tenth (if b then 1 else 0)
  | JFloat f => Ok (PrimFloat.mul f 0x1.999999999999ap-4%float)
  | JStr _ | JArr _ =>
      Raise (mkExn TypeError "can't multiply sequence by non-int of type 'float'")
  | _ =>
      Raise (mkExn TypeError ("unsupported operand type(s) for *: '" ++ Py.type_name v
                              ++ "' and 'float'"))
  end.

(** The same dict display in the second branch, on the object
    [fetch_pokemon] returns. *)
Definition instance_data (pokemon : ORM.Instance) : result PokemonData :=
  and_then (times_tenth (ORM.attr_height pokemon)) (fun hm =>
  and_then (times_tenth (ORM.attr_weight pokemon)) (fun wk =>
  and_then (types pokemon) (fun ts =>
  and_then (abilities pokemon) (fun ab =>
  and_then (hidden_abilities pokemon) (fun hid =>
  and_then (base_stats pokemon) (fun st =>
  Ok (mkPokemonData (ORM.attr_pokemon_id pokemon) (ORM.attr_name pokemon)
                    (ORM.attr_height pokemon) (ORM.attr_weight pokemon)
                    hm wk (ORM.attr_base_experience pokemon) ts ab hid st))))))).

Definition not_iterable_None {A} : M Store A :=
  raise (mkExn TypeError "argument of type 'NoneType' is not iterable").

Definition no_attribute_None {A} (attr : text) : M Store A :=
  raise (mkExn AttributeError ("'NoneType' object has no attribute '" ++ attr ++ "'")).

(** [PokemonAPIView.get].  The name is a segment of the request path, which
    the framework has decoded. *)
Definition PokemonAPIView_get (w : World) (pokemon_name : text) : M Store JsonResponse :=
  try_except
    ((* First try to get from database *)
     pokemon <- ORM.Pokemon_get_by_name (lower w pokemon_name) ;;
     data <- lift (pokemon_data pokemon) ;;
     ret (mkJsonResponse (BodySuccess data) 200))
    (fun e =>
       if isinstance_DoesNotExist e then
         (* If not in database, fetch from API *)
         r <- fetch_pokemon w pokemon_name ;;
         let '(pokemon, ok, error) := r in
         if ok then
           match pokemon with
           | Some p =>
               data <- lift (instance_data p) ;;
               ret (mkJsonResponse (BodySuccess data) 200)
           | None => no_attribute_None "pokemon_id"
           end
         else
           match error with
           | Some msg =>
               ret (mkJsonResponse (BodyFailure msg)
                                   (if PyStr.contains "not found" msg then 404 else 500))
           | None => not_iterable_None
           end
       else raise e).

Inductive MessageLevel : Type := MsgSuccess | MsgError.

Inductive Route : Type :=
| RouteSearch                 (* reverse_lazy('pokemon_api:search') *)
| RouteDetail (key : Z).      (* reverse_lazy('pokemon_api:detail', kwargs={'pk': ...}) *)

(** What [form_valid] leaves: the flash message and the redirect target. *)
Record Redirect : Type := mkRedirect {
  message : MessageLevel * str;
  success_url : Route
}.

(** [PokemonSearchView.form_valid], from the cleaned form value on: a text
    the framework has decoded. *)
Definition PokemonSearchView_form_valid (w : World) (pokemon_name : text)
  : M Store Redirect :=
  r <- fetch_pokemon w pokemon_name ;;
  let '(pokemon, ok, error) := r in
  if ok then
    match pokemon with
    | Some p =>
        ret (mkRedirect (MsgSuccess,
                         ("Successfully fetched data for " ++ py_str w (ORM.attr_name p)
                          ++ "!")%str)
                        (RouteDetail (pk p)))
    | None => no_attribute_None "name"
    end
  else
    ret (mkRedirect (MsgError, ("Error: " ++ match error with
                                             | Some msg => msg
                                             | None => "None"
                                             end)%str)
                    RouteSearch).

(** [HttpResponse], as far as [DownloadJSONView.get] fills it; the content,
    [json.dumps(pokemon.raw_data, indent=2)], is kept as the document it
    serialises. *)
Record HttpResponse : Type := mkHttpResponse {
  content : JSON;
  content_type : str;
  content_disposition : str
}.

(** The double-quote character of the header value. *)
Definition double_quote : str := [Scalar 34].

(** [response[header] = value]: a value with a line break is refused; a
    value within Latin-1 is kept, any other is MIME-encoded. *)
Definition header_value (w : World) (value : str) : result str :=
  if PyStr.has_newline value
  then Raise (mkExn BadHeaderError
                ("Header values can't contain newlines (got " ++ py_repr w (JStr value)
                 ++ ")"))
  else if PyStr.latin1 value then Ok value
  else mime_header w value.

(** [DownloadJSONView.get].  [None] stands for the [Http404] that
    [get_object_or_404] raises when no row has the primary key, which the
    framework turns into the 404 page.  The table is only read. *)
Definition DownloadJSONView_get (w : World) (key : Z) : M Store (option HttpResponse) :=
  rows <- gets pokemons ;;
  match filter (ORM.has_pk key) rows with
  | [] => ret None
  | [pokemon] =>
      disposition <- lift (header_value w ("attachment; filename=" ++ double_quote
                                           ++ name pokemon ++ "_data.json"
                                           ++ double_quote)%str) ;;
      ret (Some (mkHttpResponse (raw_data pokemon) "application/json" disposition))
  | _ => raise (mkExn MultipleObjectsReturned "get() returned more than one Pokemon")
  end.

(* ===================================================================== *)
(** ** management/commands/fetch_pokemon.py *)
(* ===================================================================== *)

(** The values of [options] that [add_arguments] declares.  The names are
    arguments of the command line, which can hold what the decoding of the
    command line could not decode, as lone surrogates. *)
Record Options : Type := mkOptions {
  pokemon_names : list str;       (* nargs='+' *)
  force : bool                    (* --force, action='store_true' *)
}.

(** The command runs on the store and on the lines written so far. *)
Definition Console : Type := (Store * list Written)%type.

(** [self.stdout.write(line)] *)
Definition stdout_write_line (w : World) (line : Written) : M Console unit :=
  match stdout_write w line with
  | Some e => raise e
  | None => modify (fun c => (fst c, (snd c ++ [line])%list))
  end.

Definition on_store {A} (c : M Store A) : M Console A :=
  fun con => ((fst (c (fst con)), snd con), snd (c (fst con))).

(** The two emoji of the messages: U+2705 and U+274C. *)
Definition check_mark : str := [Scalar 9989].
Definition cross_mark : str := [Scalar 10060].

(** The three lines of [handle]. *)
Definition fetching_line (pokemon_name : str) : Written :=
  (PLAIN, ("Fetching " ++ pokemon_name ++ "...")%str).

Definition success_line (w : World) (pokemon : ORM.Instance) : Written :=
  (SUCCESS, (check_mark ++ " Successfully fetched " ++ py_str w (ORM.attr_name pokemon))%str).

Definition failure_line (pokemon_name : str) (error : option str) : Written :=
  (ERROR_STYLE, (cross_mark ++ " Failed to fetch " ++ pokemon_name ++ ": "
                 ++ match error with
                    | Some msg => msg
                    | None => "None"
                    end)%str).

(** The body of [for pokemon_name in options['pokemon_names']]. *)
Fixpoint handle_names (w : World) (names : list str) : M Console unit :=
  match names with
  | [] => ret tt
  | pokemon_name :: rest =>
      stdout_write_line w (fetching_line pokemon_name) ;;
      r <- on_store (fetch_pokemon w pokemon_name) ;;
      (let '(pokemon, ok, error) := r in
       if ok then
         match pokemon with
         | Some p => stdout_write_line w (success_line w p)
         | None => on_store (no_attribute_None "name")
         end
       else stdout_write_line w (failure_line pokemon_name error)) ;;
      handle_names w rest
  end.

(** [Command.handle] *)
Definition handle (w : World) (options : Options) : M Console unit :=
  handle_names w (pokemon_names options).

(* ===================================================================== *)
(** ** Concrete worlds and stores used in examples *)
(* ===================================================================== *)

(** A name of the shape the storage gives a file whose name is taken: seven
    characters before the extension [.json]. *)
Definition suffixed (in_use : list str) (filename : str) : str :=
  let n := (List.length filename - 5)%nat in
  (firstn n filename : str) ++ "_00000" ++ PyStr.of_Z (10 + Z.of_nat (List.length in_use) mod 90)
  ++ (skipn n filename : str).

(** The database of a new project; the first primary key is 1. *)
Definition empty_store : Store := mkStore [] 1 [] [] [] [].

(** A world whose provider gives the same answer at every URL, whose storage
    has the files the store records and takes every other, whose console
    takes everything, whose Unicode database leaves every code point from
    256 on as it is, and whose header encoder does the same with a value. *)
Definition world_answering (r : result Response) : World :=
  mkWorld (fun _ => r) (fun _ => None) (fun _ => false) suffixed 0
          (fun _ => Raise (mkExn ValueError "invalid literal for int()"))
          (fun _ => "...")
          (fun _ c _ => [c])
          (fun value => Ok value)
          (fun _ => None).

Definition ditto_payload : JSON :=
  JObj [item "id" (JInt 132); item "name" (JStr "ditto"); item "height" (JInt 3);
        item "weight" (JInt 40);
        item "abilities"
          (JArr [JObj [item "ability" (JObj [item "name" (JStr "limber")]);
                       item "is_hidden" (JBool false)]])].

Definition ditto_world : World := world_answering (Ok (mkResponse 200 (Ok ditto_payload))).


(* ===================================================================== *)
(** ** Vocabulary of the statements *)
(* ===================================================================== *)

Local Open Scope list_scope.

(** [post c s Q]: [c], run on [s], ends in a store and a result (a value or
    an exception) that satisfy [Q].  Computations are total functions, so
    this is both "it ends" and "what it ends in". *)
Definition post {A} (c : M Store A) (s : Store) (Q : Store -> result A -> Prop) : Prop :=
  Q (fst (c s)) (snd (c s)).

(** [s1] has the tables of [s]. *)
Definition same_tables (s s1 : Store) : Prop :=
  pokemons s1 = pokemons s /\ next_pk s1 = next_pk s /\ api_requests s1 = api_requests s.

(** Effects that are all calls of the media storage. *)
Definition only_saves (evs : list Event) : Prop :=
  forall e, In e evs -> exists f, e = EvStorageSave f.

(** The two shapes of the returned triple. *)
Definition is_outcome (r : FetchResult) : Prop :=
  (exists p, r = (Some p, true, None)) \/ (exists msg, r = (None, false, Some msg)).

(** Kinds of effects, and how many of a kind a run has made. *)
Definition is_upsert (e : Event) : bool :=
  match e with EvPokemonUpsert => true | _ => false end.

Definition is_log_insert (e : Event) : bool :=
  match e with EvRequestLogInsert => true | _ => false end.

Definition is_http_get (e : Event) : bool :=
  match e with EvHttpGet _ => true | _ => false end.

Definition is_lookup_by_name (e : Event) : bool :=
  match e with EvPokemonGetByName _ => true | _ => false end.

Definition count_ev (p : Event -> bool) (evs : list Event) : nat := List.length (filter p evs).

(** [pokemon_name.lower().strip()] *)
Definition normalize (w : World) (pokemon_name : str) : str :=
  PyStr.strip (lower w pokemon_name).

(** The URL [fetch_pokemon] builds for a name. *)
Definition url_of (w : World) (pokemon_name : str) : str :=
  (BASE_URL ++ PyStr.strip (lower w pokemon_name) ++ "/")%str.


(** The table after "ditto" was fetched once. *)
Definition store_with_ditto : Store := fst (fetch_pokemon ditto_world "ditto" empty_store).

(** A provider that now lists the name "ditto" under another id. *)
Definition renumbered_payload : JSON :=
  JObj [item "id" (JInt 10132); item "name" (JStr "ditto"); item "height" (JInt 3);
        item "weight" (JInt 40)].

Definition renumbering_world : World :=
  world_answering (Ok (mkResponse 200 (Ok renumbered_payload))).

(** The exceptions of the interpreter itself that reading a row can raise,
    as opposed to those of [requests] and of the ORM. *)
Definition builtin_error (e : exn) : bool :=
  match exc_class e with
  | KeyError | TypeError | OverflowError => true
  | _ => false
  end.

(** A result that, when it is an exception, is one of those. *)
Definition raises_builtin {A} (r : result A) : Prop :=
  forall e, r = Raise e -> builtin_error e = true.

(** What the database guarantees of the table at any time: the primary key
    and the two UNIQUE columns have no repeated value, and the sequence is
    ahead of every key in use. *)
Record well_formed (s : Store) : Prop := mk_well_formed {
  wf_pk : NoDup (map pk (pokemons s));
  wf_pokemon_id : NoDup (map pokemon_id (pokemons s));
  wf_name : NoDup (map name (pokemons s));
  wf_next : forall p, In p (pokemons s) -> pk p < next_pk s
}.

(** The row [p] holds the id and the columns [c]. *)
Definition stored (id : Z) (c : ORM.Columns) (p : Pokemon) : Prop :=
  pokemon_id p = id /\ name p = ORM.c_name c /\ height p = ORM.c_height c /\
  weight p = ORM.c_weight c /\ base_experience p = ORM.c_base_experience c /\
  raw_data p = ORM.c_raw_data c.

(** Everything but the Pokemon table is as it was. *)
Definition same_but_rows (s s1 : Store) : Prop :=
  api_requests s1 = api_requests s /\ media s1 = media s /\
  logger s1 = logger s /\ effects s1 = effects s.

(** What one [update_or_create] does to a well-formed table. *)
Definition upserted (w : World) (v_id : JSON) (d : ORM.Defaults) (s s1 : Store)
           (p : Pokemon) (created : bool) : Prop :=
  exists id c,
    and_then (ORM.integer_field w "pokemon_id" v_id) (ORM.not_null "pokemon_id") = Ok id /\
    ORM.prepare w d = Ok c /\
    stored id c p /\
    updated_at p = clock w /\
    filter (ORM.has_id id) (pokemons s1) = [p] /\
    if created
    then filter (ORM.has_id id) (pokemons s) = [] /\
         pokemons s1 = pokemons s ++ [p] /\
         pk p = next_pk s /\ created_at p = clock w
    else exists old l1 l2,
        pokemons s = l1 ++ old :: l2 /\ pokemons s1 = l1 ++ p :: l2 /\
        pokemon_id old = id /\ pk p = pk old /\ created_at p = created_at old.

(** Defaults for "ditto" with a given height, and the row and the object the
    example of the specification leads to. *)
Definition ditto_defaults (h : Z) : ORM.Defaults :=
  ORM.mkDefaults (JStr "ditto") (JInt h) (JInt 40) JNull ditto_payload.

Definition ditto_row : Pokemon := mkPokemon 1 132 "ditto" 3 40 None ditto_payload 0 0.

Definition ditto_instance : ORM.Instance :=
  ORM.instance_of ditto_row (JInt 132) (ditto_defaults 3).

(** A provider that capitalises the name. *)
Definition capitalised_payload : JSON :=
  JObj [item "id" (JInt 132); item "name" (JStr "Ditto"); item "height" (JInt 3);
        item "weight" (JInt 40)].

Definition capitalising_world : World :=
  world_answering (Ok (mkResponse 200 (Ok capitalised_payload))).

(** A row around a given [raw_data]. *)
Definition row_with (raw : JSON) : Pokemon := mkPokemon 1 1 "x" 1 1 None raw 0 0.

(** The key is not among the keys of the document. *)
Definition key_absent (key : text) (raw : JSON) : Prop :=
  match raw with
  | JObj members => Py.lookup key members = None
  | _ => True
  end.

(** The document is a JSON object (a [dict]). *)
Definition is_object (raw : JSON) : Prop :=
  match raw with
  | JObj _ => True
  | _ => False
  end.

(** A document the provider can answer and [fetch_pokemon] stores: the
    entries of "types" and "stats" lack the inner object, the entry of
    "abilities" lacks "is_hidden". *)
Definition misshapen_payload : JSON :=
  JObj [item "id" (JInt 7); item "name" (JStr "squirtle"); item "height" (JInt 5);
        item "weight" (JInt 90);
        item "types" (JArr [JObj [item "slot" (JInt 1)]]);
        item "abilities" (JArr [JObj [item "ability" (JObj [item "name" (JStr "torrent")])]]);
        item "stats" (JArr [JObj [item "base_stat" (JInt 44)]])].

(** The binary64 number that the literal [0.3] denotes (the nearest to
    3/10), and its successor, which prints as 0.30000000000000004. *)
Definition float_0_3 : float := 0x1.3333333333333p-2%float.
Definition float_0_30000000000000004 : float := 0x1.3333333333334p-2%float.

(** The same world with another media storage. *)
Definition with_storage (w : World) (f : str -> option exn) : World :=
  mkWorld (http_get w) f (name_taken w) (alternative_name w) (clock w) (py_int w)
          (py_repr w) (unicode w) (mime_header w) (stdout_write w).

(** Two stores with the same tables; media, logger and effects are free. *)
Definition tables_agree (s s' : Store) : Prop :=
  pokemons s = pokemons s' /\ next_pk s = next_pk s' /\ api_requests s = api_requests s'.

(** Two computations that, from stores with the same tables, end in stores
    with the same tables and in the same result. *)
Definition agree {A} (c c' : M Store A) : Prop :=
  forall s s', tables_agree s s' ->
               tables_agree (fst (c s)) (fst (c' s')) /\ snd (c s) = snd (c' s').

(** The name of the file a fetch asks the storage to write. *)
Definition filename_of (w : World) (pokemon_name : str) (v_id : JSON) : str :=
  ("pokemon_data/" ++ PyStr.strip (lower w pokemon_name) ++ "_" ++ py_str w v_id
   ++ ".json")%str.

(** A storage that refuses every file. *)
Definition disk_full : str -> option exn :=
  fun _ => Some (mkExn OSError "[Errno 28] No space left on device").




(** A name with a lone surrogate, as the command line gives it for the byte
    0x80. *)
Definition undecodable_name : str := [Surrogate 56448].

(** What the answer of the provider to a name gives [update_or_create] to
    write: the id under which the row is looked up and the columns. *)
Definition provider_values (w : World) (pokemon_name : str) (id : Z) (c : ORM.Columns) : Prop :=
  exists response data v_id v_name v_height v_weight v_exp,
    http_get w (url_of w pokemon_name) = Ok response /\
    status_code response = 200 /\
    json response = Ok data /\
    Py.getitem data "id" = Ok v_id /\
    Py.getitem data "name" = Ok v_name /\
    Py.getitem data "height" = Ok v_height /\
    Py.getitem data "weight" = Ok v_weight /\
    Py.get data "base_experience" = Ok v_exp /\
    and_then (ORM.integer_field w "pokemon_id" v_id) (ORM.not_null "pokemon_id") = Ok id /\
    ORM.prepare w (ORM.mkDefaults v_name v_height v_weight v_exp data) = Ok c.

(** A provider that lists "ditto" under the same id with another height. *)
Definition grown_payload : JSON :=
  JObj [item "id" (JInt 132); item "name" (JStr "ditto"); item "height" (JInt 4);
        item "weight" (JInt 40)].

Definition grown_world : World :=
  world_answering (Ok (mkResponse 200 (Ok grown_payload))).

(** An uppercase letter below 256. *)
Definition is_upper (c : code) : bool :=
  match c with
  | Scalar n => PyStr.is_cased_upper n
  | Surrogate _ => false
  end.

(** No code point of the string is an uppercase letter below 256. *)
Definition no_upper (s : str) : bool := forallb (fun c => negb (is_upper c)) s.

(** The string starts, or ends, with whitespace. *)
Definition starts_with_space (s : str) : bool :=
  match s with
  | [] => false
  | c :: _ => PyStr.is_space c
  end.

Fixpoint ends_with_space (s : str) : bool :=
  match s with
  | [] => false
  | [c] => PyStr.is_space c
  | _ :: s' => ends_with_space s'
  end.

(** The lowercase of a code point below 256, as a code. *)
Definition low (c : code) : code := Scalar (PyStr.lower_latin1 (PyStr.code_point c)).

(** A scalar value below 256. *)
Definition is_latin1 (c : code) : bool :=
  PyStr.is_scalar c && (PyStr.code_point c <? 256)%N.

(** A Unicode database in which the capital I with a dot above (U+0130) has
    the lowercase it has in Unicode: i followed by a combining dot above. *)
Definition dotted_world : World :=
  mkWorld (fun _ => Raise (mkExn ConnectionError "unreachable")) (fun _ => None) (fun _ => false) suffixed 0
          (fun _ => Raise (mkExn ValueError "invalid literal for int()"))
          (fun _ => "...")
          (fun _ c _ => if (c =? 304)%N then [105; 775]%N else [c])
          (fun value => Ok value)
          (fun _ => None).

(** A row of the request log written for the name [n]. *)
Definition logged_for (n : str) (q : APIRequest) : Prop := pokemon_name q = n.

(** The row [q'] continues the row [q]: same primary key, same provider id,
    same creation time. *)
Definition continues (q q' : Pokemon) : Prop :=
  pk q' = pk q /\ pokemon_id q' = pokemon_id q /\ created_at q' = created_at q.

(** The value [DownloadJSONView.get] gives the Content-Disposition header. *)
Definition disposition_of (pokemon : Pokemon) : str :=
  ("attachment; filename=" ++ double_quote ++ name pokemon ++ "_data.json" ++ double_quote)%str.

(** A provider whose document has a line feed in the name. *)
Definition two_line_payload : JSON :=
  JObj [item "id" (JInt 132); item "name" (JStr [Scalar 100; Scalar 10; Scalar 105]);
        item "height" (JInt 3); item "weight" (JInt 40)].

Definition two_line_world : World :=
  world_answering (Ok (mkResponse 200 (Ok two_line_payload))).

(** The character does not occur in the string. *)
Definition lacks (c : code) (s : str) : bool :=
  forallb (fun d => negb (PyStr.code_eqb c d)) s.

(** The URLs of the GETs among the effects, in order. *)
Fixpoint provider_calls (evs : list Event) : list str :=
  match evs with
  | [] => []
  | EvHttpGet url :: rest => url :: provider_calls rest
  | _ :: rest => provider_calls rest
  end.

(** A provider that answers the misshapen document. *)
Definition misshapen_world : World :=
  world_answering (Ok (mkResponse 200 (Ok misshapen_payload))).

(** A provider that does not answer in time. *)
Definition timeout_world : World :=
  world_answering (Raise (mkExn Timeout "Read timed out. (read timeout=30)")).

(** A provider that gives the height as a string of digits, in a world
    where [int('7')] is 7. *)
Definition quoted_payload : JSON :=
  JObj [item "id" (JInt 7); item "name" (JStr "squirtle"); item "height" (JStr "7");
        item "weight" (JInt 90)].

Definition quoting_world : World :=
  mkWorld (fun _ => Ok (mkResponse 200 (Ok quoted_payload))) (fun _ => None) (fun _ => false) suffixed 0
          (fun v => match v with
                    | JStr [Scalar 55] => Ok 7
                    | _ => Raise (mkExn ValueError "invalid literal for int()")
                    end)
          (fun _ => "...")
          (fun _ c _ => [c])
          (fun value => Ok value)
          (fun _ => None).

(** A document with an id and nothing else. *)
Definition bare_payload : JSON := JObj [item "id" (JInt 7)].

Definition bare_world : World := world_answering (Ok (mkResponse 200 (Ok bare_payload))).

(** The lines the command writes for a list of names, from a store to the
    store it leaves: for each name the announcement, then, as the call of
    the service for that name on the store reached so far turns out, the
    success line of the object returned or the failure line with the name as
    typed and the message returned. *)
Inductive reports (w : World) : Store -> list str -> list Written -> Store -> Prop :=
| reports_nil s : reports w s [] [] s
| reports_success n names s s1 s2 p lines :
    fetch_pokemon w n s = (s1, Ok (Some p, true, None)) ->
    reports w s1 names lines s2 ->
    reports w s (n :: names) (fetching_line n :: success_line w p :: lines) s2
| reports_failure n names s s1 s2 msg lines :
    fetch_pokemon w n s = (s1, Ok (None, false, Some msg)) ->
    reports w s1 names lines s2 ->
    reports w s (n :: names) (fetching_line n :: failure_line n (Some msg) :: lines) s2.

(** The stores the application can be in: the empty database, and what a
    call of the service, of one of the views or of the command leaves. *)
Inductive reachable : Store -> Prop :=
| reach_empty : reachable empty_store
| reach_fetch w (n : str) s : reachable s -> reachable (fst (fetch_pokemon w n s))
| reach_search w (n : text) s :
    reachable s -> reachable (fst (PokemonSearchView_form_valid w n s))
| reach_api w (n : text) s : reachable s -> reachable (fst (PokemonAPIView_get w n s))
| reach_download w k s : reachable s -> reachable (fst (DownloadJSONView_get w k s))
| reach_handle w options s out :
    reachable s -> reachable (fst (fst (handle w options (s, out)))).

(** The entries a comprehension over [self.raw_data[key]] visits; none when
    the document is empty or lacks the key. *)
Definition entries (self : Pokemon) (key : text) : result (list JSON) :=
  and_then (has_key (raw_data self) key) (fun present =>
  if present then and_then (Py.getitem (raw_data self) key) Py.iter else Ok []).

(** [names] are the values of [body] on [items], one for one and in order. *)
Definition one_for_one {A B} (body : A -> result B) (items : list A) (names : list B) : Prop :=
  Forall2 (fun item nm => body item = Ok nm) items names.

(** No item of the [dict] has the key of an item before it. *)
Fixpoint distinct_keys (d : list (JSON * JSON)) : Prop :=
  match d with
  | [] => True
  | kv :: rest =>
      Forall (fun later => Py.same_key (fst later) (fst kv) = false) rest /\
      distinct_keys rest
  end.

(** A row whose document lists the stat "hp" twice. *)
Definition repeated_stat_row : Pokemon :=
  row_with (JObj [item "stats"
                    (JArr [JObj [item "base_stat" (JInt 48);
                                 item "stat" (JObj [item "name" (JStr "hp")])];
                           JObj [item "base_stat" (JInt 50);
                                 item "stat" (JObj [item "name" (JStr "attack")])];
                           JObj [item "base_stat" (JInt 60);
                                 item "stat" (JObj [item "name" (JStr "hp")])]])]).

(* ===================================================================== *)
(** ** Reasoning about computations *)
(* ===================================================================== *)

Arguments PyStr.append : simpl never.
Arguments PyStr.text_append : simpl never.
Arguments PyStr.of_text : simpl never.
Arguments PyStr.lit : simpl never.

Section PostRules.

Context {A B : Type}.

Lemma post_ret (a : A) s (Q : Store -> result A -> Prop) :
  Q s (Ok a) -> post (ret a) s Q.
Proof. exact (fun H => H). Qed.

Lemma post_raise e s (Q : Store -> result A -> Prop) :
  Q s (Raise e) -> post (raise e) s Q.
Proof. exact (fun H => H). Qed.

Lemma post_lift (r : result A) s (Q : Store -> result A -> Prop) :
  Q s r -> post (lift r) s Q.
Proof. exact (fun H => H). Qed.

Lemma post_gets (f : Store -> A) s (Q : Store -> result A -> Prop) :
  Q s (Ok (f s)) -> post (gets f) s Q.
Proof. exact (fun H => H). Qed.

Lemma post_bind (c : M Store A) (k : A -> M Store B) s (Q : Store -> result B -> Prop) :
  post c s (fun s1 r => match r with
                        | Ok a => post (k a) s1 Q
                        | Raise e => Q s1 (Raise e)
                        end) ->
  post (bind c k) s Q.
Proof.
  unfold post, bind. destruct (c s) as [s1 [a | e]]; simpl; trivial.
Qed.

Lemma post_try (c : M Store A) (h : exn -> M Store A) s (Q : Store -> result A -> Prop) :
  post c s (fun s1 r => match r with
                        | Ok a => Q s1 (Ok a)
                        | Raise e => post (h e) s1 Q
                        end) ->
  post (try_except c h) s Q.
Proof.
  unfold post, try_except. destruct (c s) as [s1 [a | e]]; simpl; trivial.
Qed.

Lemma post_weaken (c : M Store A) s (Q Q' : Store -> result A -> Prop) :
  post c s Q -> (forall s1 r, Q s1 r -> Q' s1 r) -> post c s Q'.
Proof. unfold post. auto. Qed.

End PostRules.

Lemma post_modify (f : Store -> Store) s (Q : Store -> result unit -> Prop) :
  Q (f s) (Ok tt) -> post (modify f) s Q.
Proof. exact (fun H => H). Qed.

(* ===================================================================== *)
(** ** What UTF-8 can encode *)
(* ===================================================================== *)

Lemma encodable_text (t : text) : PyStr.encodable t = true.
Proof. unfold PyStr.encodable, PyStr.of_text. induction t; cbn; auto. Qed.

Lemma encodable_append (a b : str) :
  PyStr.encodable (a ++ b)%str = PyStr.encodable a && PyStr.encodable b.
Proof. unfold PyStr.encodable, PyStr.append. apply forallb_app. Qed.

Lemma encodable_lower_from u before s :
  PyStr.encodable (PyStr.lower_from u before s) = PyStr.encodable s.
Proof.
  revert before. induction s as [| c s IH]; intros before; [reflexivity |].
  cbn [PyStr.lower_from]. rewrite encodable_append, IH.
  destruct c as [n | n]; cbn; [| reflexivity].
  destruct (n <? 256)%N; [reflexivity |]. rewrite encodable_text. reflexivity.
Qed.

Lemma encodable_lower w s : PyStr.encodable (lower w s) = PyStr.encodable s.
Proof. apply encodable_lower_from. Qed.

Lemma encodable_cons c s :
  PyStr.encodable (c :: s) = PyStr.is_scalar c && PyStr.encodable s.
Proof. reflexivity. Qed.

(** A space is a scalar value: stripping removes no surrogate. *)
Lemma space_is_scalar c : PyStr.is_space c = true -> PyStr.is_scalar c = true.
Proof. destruct c; [reflexivity | discriminate]. Qed.

Lemma encodable_lstrip s : PyStr.encodable (PyStr.lstrip s) = PyStr.encodable s.
Proof.
  induction s as [| c s IH]; [reflexivity |]. cbn [PyStr.lstrip].
  destruct (PyStr.is_space c) eqn:E; [| reflexivity].
  rewrite encodable_cons, (space_is_scalar c E), IH. reflexivity.
Qed.

Lemma encodable_rstrip s : PyStr.encodable (PyStr.rstrip s) = PyStr.encodable s.
Proof.
  induction s as [| c s IH]; [reflexivity |]. cbn [PyStr.rstrip].
  rewrite (encodable_cons c s), <- IH.
  destruct (PyStr.rstrip s) as [| d r].
  - destruct (PyStr.is_space c) eqn:E.
    + rewrite (space_is_scalar c E). reflexivity.
    + rewrite encodable_cons. reflexivity.
  - rewrite (encodable_cons c (d :: r)). reflexivity.
Qed.

Lemma encodable_strip s : PyStr.encodable (PyStr.strip s) = PyStr.encodable s.
Proof. unfold PyStr.strip. rewrite encodable_rstrip. apply encodable_lstrip. Qed.

(** The normal form of a name can be encoded exactly when the name can. *)
Lemma encodable_normalize w n : PyStr.encodable (normalize w n) = PyStr.encodable n.
Proof. unfold normalize. rewrite encodable_strip. apply encodable_lower. Qed.

Lemma bind_text_ok s : PyStr.encodable s = true -> ORM.bind_text s = Ok s.
Proof. unfold ORM.bind_text. intros ->. reflexivity. Qed.

Lemma bind_text_raise s :
  PyStr.encodable s = false -> ORM.bind_text s = Raise (ORM.unicode_encode_error s).
Proof. unfold ORM.bind_text. intros ->. reflexivity. Qed.

(* ===================================================================== *)
(** ** Symbolic execution *)
(* ===================================================================== *)

(** The driver's verdict on a text parameter: known for a text and for what
    was decided before, a case distinction otherwise. *)
Ltac wp_bind_text s :=
  unfold ORM.bind_text;
  rewrite ?encodable_append, ?encodable_text; cbn [andb];
  repeat match goal with
    | H : PyStr.encodable ?n = _ |- context [PyStr.encodable ?n] => rewrite H; cbn [andb]
    end;
  lazymatch goal with
  | |- context [if PyStr.encodable ?n then _ else _] => destruct (PyStr.encodable n) eqn:?
  | |- _ => idtac
  end.

(** One step of symbolic execution of a computation under [post]. *)
Ltac wp_step :=
  lazymatch goal with
  | |- post (bind _ _) _ _ => apply post_bind
  | |- post (try_except _ _) _ _ => apply post_try
  | |- post (ret _) _ _ => apply post_ret
  | |- post (raise _) _ _ => apply post_raise
  | |- post (gets _) _ _ => apply post_gets
  | |- post (modify _) _ _ => apply post_modify
  | |- post (emit _) _ _ => apply post_modify
  | |- post (logger_info _) _ _ => apply post_modify
  | |- post (logger_warning _) _ _ => apply post_modify
  | |- post (logger_error _) _ _ => apply post_modify
  | |- post (lift (Ok _)) _ _ => apply post_lift
  | |- post (lift (Raise _)) _ _ => apply post_lift
  | |- post (lift (ORM.bind_text ?s)) _ _ => wp_bind_text s
  | |- post (lift ?r) _ _ => apply post_lift; destruct r eqn:?
  | |- post (response_json _) _ _ => unfold response_json
  | |- post (if ?b then _ else _) _ _ => destruct b eqn:?
  | |- post (match ?x with _ => _ end) _ _ => destruct x eqn:?
  end; cbn beta iota.

Ltac wp_open :=
  lazymatch goal with
  | |- post (ORM.APIRequest_create _ _ _ _ _ _) _ _ => unfold ORM.APIRequest_create
  | |- post (_log_error _ _ _) _ _ => unfold _log_error
  | |- post (session_get _ _) _ _ => unfold session_get
  | |- post (default_storage_save _ _ _) _ _ => unfold default_storage_save
  | |- post (ORM.insert_row _ _ _) _ _ => unfold ORM.insert_row, post; cbn beta
  | |- post (ORM.update_row _ _ _) _ _ => unfold ORM.update_row, post; cbn beta
  end.

Ltac wp_all := repeat (wp_step || wp_open).

(* ===================================================================== *)
(** ** What the two helpers of [fetch_pokemon] leave alone *)
(* ===================================================================== *)

(** [_save_json_to_file] always returns, never touches a table, and its only
    effects are calls of the storage. *)
Lemma save_json_spec w data nm s :
  post (_save_json_to_file w data nm) s
       (fun s1 r => r = Ok tt /\ same_tables s s1 /\
                    exists evs, effects s1 = effects s ++ evs /\ only_saves evs).
Proof.
  unfold _save_json_to_file, same_tables, only_saves.
  wp_all; cbn; (split; [reflexivity | split; [auto | ]]).
  - eexists [_]. split; [reflexivity | intros ? [<- | []]; eauto].
  - eexists [_]. split; [reflexivity | intros ? [<- | []]; eauto].
  - exists []. rewrite app_nil_r. split; [reflexivity | intros ? []].
Qed.

(** [update_or_create] is one upsert and writes nothing to the request log. *)
Lemma upsert_frame w v d s :
  post (ORM.Pokemon_update_or_create w v d) s
       (fun s1 _ => api_requests s1 = api_requests s /\
                    effects s1 = effects s ++ [EvPokemonUpsert]).
Proof.
  unfold ORM.Pokemon_update_or_create.
  wp_all; cbn; auto.
  all: repeat match goal with |- context [if ?b then _ else _] => destruct b end; cbn; auto.
Qed.

Ltac wp_call :=
  lazymatch goal with
  | |- post (_save_json_to_file _ _ _) _ _ =>
      eapply post_weaken;
      [ apply save_json_spec | cbn beta; intros ? ? (-> & (? & ? & ?) & ? & ? & ?) ]
  | |- post (ORM.Pokemon_update_or_create _ _ _) _ _ =>
      eapply post_weaken; [ apply upsert_frame | cbn beta; intros ? [[? ?] | ?] [? ?] ]
  end.

Ltac wp_fetch := repeat (wp_step || wp_open || wp_call).

(* ===================================================================== *)
(** ** Some runs *)
(* ===================================================================== *)

Example read_timeout_run :
  let w := world_answering (Raise (mkExn ReadTimeout "Read timed out. (read timeout=30)")) in
  let run := fetch_pokemon w " Pikachu " empty_store in
  snd run = Ok (None, false, Some ("Request timeout for Pokemon: pikachu" : str)) /\
  api_requests (fst run)
    = [mkAPIRequest "pikachu" false "Request timeout for Pokemon: pikachu" None 0 None] /\
  pokemons (fst run) = [].
Proof. repeat split. Qed.

(** [ConnectTimeout] is both a [ConnectionError] and a [Timeout]; the
    clause for [Timeout] comes first. *)
Example connect_timeout_run :
  let w := world_answering (Raise (mkExn ConnectTimeout "Connection to pokeapi.co timed out")) in
  snd (fetch_pokemon w "pikachu" empty_store)
    = Ok (None, false, Some ("Request timeout for Pokemon: pikachu" : str)).
Proof. reflexivity. Qed.

Example server_error_run :
  let w := world_answering (Ok (mkResponse 503 (Raise (mkExn JSONDecodeError "Expecting value")))) in
  let run := fetch_pokemon w "pikachu" empty_store in
  snd run = Ok (None, false, Some ("API request failed with status 503" : str)) /\
  api_requests (fst run) = [mkAPIRequest "pikachu" false "HTTP 503" (Some 503) 0 None].
Proof. repeat split. Qed.

Example undecodable_body_run :
  let w := world_answering (Ok (mkResponse 200 (Raise (mkExn JSONDecodeError "Expecting value")))) in
  let run := fetch_pokemon w "pikachu" empty_store in
  snd run = Ok (None, false, Some ("Unexpected error: Expecting value" : str)) /\
  api_requests (fst run)
    = [mkAPIRequest "pikachu" false "Unexpected error: Expecting value" None 0 None].
Proof. repeat split. Qed.

(* ===================================================================== *)
(** ** When the service returns and when it raises *)
(* ===================================================================== *)

(** With a name that UTF-8 can encode, [fetch_pokemon] returns to its
    caller, and what it returns is a triple (entity, True, None) or (None,
    False, message). *)
Lemma fetch_pokemon_returns w pokemon_name s :
  PyStr.encodable pokemon_name = true ->
  post (fetch_pokemon w pokemon_name) s (fun _ r => exists t, r = Ok t /\ is_outcome t).
Proof.
  intros H. rewrite <- (encodable_normalize w) in H. unfold normalize in H.
  unfold fetch_pokemon, is_outcome. wp_fetch; eauto; try congruence.
Qed.

(** With a name that holds a lone surrogate, every path ends in the insert
    of [_log_error], outside any [try], or never gets that far: the call
    raises to its caller, and the tables are as before. *)
Lemma fetch_pokemon_raises w pokemon_name s :
  PyStr.encodable pokemon_name = false ->
  post (fetch_pokemon w pokemon_name) s
       (fun s1 r => r = Raise (ORM.unicode_encode_error (normalize w pokemon_name)) /\
                    same_tables s s1).
Proof.
  intros H. rewrite <- (encodable_normalize w) in H. unfold normalize in *.
  unfold fetch_pokemon, same_tables. wp_fetch; cbn; try congruence; auto.
Qed.

(* ===================================================================== *)
(** ** The effects of one call of [fetch_pokemon] *)
(* ===================================================================== *)

Lemma count_ev_app p l l' : count_ev p (l ++ l') = (count_ev p l + count_ev p l')%nat.
Proof. unfold count_ev. rewrite filter_app, length_app. reflexivity. Qed.

Lemma only_saves_count p evs :
  (forall f, p (EvStorageSave f) = false) -> only_saves evs -> count_ev p evs = 0%nat.
Proof.
  intros Hp H. unfold count_ev. induction evs as [| e evs IH]; [reflexivity |].
  destruct (H e (or_introl eq_refl)) as [f ->]. cbn. rewrite Hp.
  apply IH. intros e' He'. apply H. right. exact He'.
Qed.

Lemma count_ev_cons p e l :
  count_ev p (e :: l) = ((if p e then 1 else 0) + count_ev p l)%nat.
Proof. unfold count_ev. cbn. destruct (p e); reflexivity. Qed.

(** The shape of every run: the first thing a call does to the outside is the
    GET at the URL of the normalised name; after it come no second GET, no
    lookup by name, at most one upsert and at most two inserts into the
    request log. *)
Lemma fetch_pokemon_trace w pokemon_name s :
  post (fetch_pokemon w pokemon_name) s
       (fun s1 r =>
          exists evs,
            effects s1 = effects s ++ EvHttpGet (url_of w pokemon_name) :: evs /\
            count_ev is_http_get evs = 0%nat /\
            count_ev is_lookup_by_name evs = 0%nat /\
            (count_ev is_upsert evs <= 1)%nat /\
            (count_ev is_log_insert evs <= 2)%nat).
Proof.
  unfold fetch_pokemon. fold (url_of w pokemon_name).
  wp_fetch.
  all: cbn [effects api_requests add_effect add_log add_api_request fst snd] in *.
  all: repeat match goal with
         | H : effects ?x = _ |- context [effects ?x] => rewrite H; clear H
         end.
  all: rewrite <- ?app_assoc; cbn [app].
  all: eexists; split; [reflexivity |].
  all: repeat (rewrite count_ev_cons || rewrite count_ev_app).
  all: repeat match goal with
         | H : only_saves ?x |- context [count_ev ?p ?x] =>
             rewrite (@only_saves_count p x (fun _ => eq_refl) H)
         end.
  all: cbn [count_ev filter is_upsert is_log_insert is_http_get is_lookup_by_name
            List.length Nat.add].
  all: repeat split; lia.
Qed.

Ltac rows :=
  repeat match goal with
    | H : (?a =? ?b) = _ |- context [?a =? ?b] => rewrite H
    end;
  reflexivity.


(* ===================================================================== *)
(** ** The service raises from its own handlers *)
(* ===================================================================== *)

(** C1, evaluated.  Every [except] clause of [fetch_pokemon] ends in
    [_log_error], an insert into the request log that no [try] covers.  With
    a name that UTF-8 can encode the insert succeeds, and the call returns a
    triple (entity, True, None) or (None, False, message) whatever the
    provider, the storage and the tables do.  With a name that holds a lone
    surrogate, as the command line gives it for an undecodable byte, the
    driver refuses the name: the insert of the request raises, the clause
    for [Exception] catches that, and the insert of [_log_error] raises the
    same [UnicodeEncodeError] to the caller; when the GET has raised, the
    insert of the handler is the first to fail.  Nothing is logged. *)
Theorem fetch_pokemon_raises_from_its_handlers :
  (forall w pokemon_name s,
      PyStr.encodable pokemon_name = true ->
      exists s1 t, fetch_pokemon w pokemon_name s = (s1, Ok t) /\ is_outcome t) /\
  (forall w pokemon_name s,
      PyStr.encodable pokemon_name = false ->
      exists s1,
        fetch_pokemon w pokemon_name s
          = (s1, Raise (ORM.unicode_encode_error (normalize w pokemon_name))) /\
        same_tables s s1) /\
  let run := fetch_pokemon ditto_world undecodable_name empty_store in
  snd run
    = Raise (mkExn UnicodeEncodeError
               "'utf-8' codec can't encode character '\udc80' in position 0: surrogates not allowed") /\
  api_requests (fst run) = [] /\
  effects (fst run)
    = [EvHttpGet ("https://pokeapi.co/api/v2/pokemon/" ++ undecodable_name ++ "/")%str;
       EvRequestLogInsert; EvRequestLogInsert].
Proof.
  split; [| split].
  - intros w pokemon_name s H.
    pose proof (fetch_pokemon_returns w pokemon_name s H) as Hp. unfold post in Hp.
    destruct (fetch_pokemon w pokemon_name s) as [s1 r]. cbn in Hp.
    destruct Hp as (t & -> & Ht). eauto.
  - intros w pokemon_name s H.
    pose proof (fetch_pokemon_raises w pokemon_name s H) as Hp. unfold post in Hp.
    destruct (fetch_pokemon w pokemon_name s) as [s1 r]. cbn in Hp.
    destruct Hp as (-> & Ht). eauto.
  - vm_compute. repeat split.
Qed.

(* ===================================================================== *)
(** ** The request log *)
(* ===================================================================== *)




(** A document with a NaN in it decodes, but the request log refuses it: the
    call fails before the row of the request exists, and the log gets the one
    row of the error. *)
Example rejected_document_one_log_row :
  let w := world_answering
             (Ok (mkResponse 200 (Ok (JObj [item "id" (JInt 132);
                                            item "height" (JFloat nan)])))) in
  map error_message (api_requests (fst (fetch_pokemon w "ditto" empty_store)))
    = ["Unexpected error: CHECK constraint failed: pokemon_api_apirequest.response_data" : str].
Proof. reflexivity. Qed.

(* ===================================================================== *)
(** ** The 404 branch *)
(* ===================================================================== *)

(** C3, evaluated.  When the provider answers 404 for a name that UTF-8
    can encode, [fetch_pokemon] returns (None, False, "Pokemon '<name>' not
    found"), appends to the request log the one row (name, success=False,
    "HTTP 404", 404, no body), and leaves the Pokemon table as it was. *)
Theorem not_found_outcome (w : World) (pokemon_name : str) (s : Store)
        (response : Response) :
  PyStr.encodable pokemon_name = true ->
  http_get w (url_of w pokemon_name) = Ok response ->
  status_code response = 404 ->
  let normalized := normalize w pokemon_name in
  let s1 := fst (fetch_pokemon w pokemon_name s) in
  snd (fetch_pokemon w pokemon_name s)
    = Ok (None, false, Some ("Pokemon '" ++ normalized ++ "' not found")%str) /\
  api_requests s1
    = api_requests s ++ [mkAPIRequest normalized false "HTTP 404" (Some 404) (clock w) None] /\
  pokemons s1 = pokemons s /\
  next_pk s1 = next_pk s.
Proof.
  intros Hn Hget Hcode. unfold url_of in Hget.
  rewrite <- (encodable_normalize w) in Hn. unfold normalize in *.
  cbv beta zeta delta [fetch_pokemon try_except bind session_get emit modify lift
                       logger_info logger_warning ORM.APIRequest_create ret ORM.bind_text].
  rewrite Hget, Hcode, Hn. cbn [Z.eqb Pos.eqb fst snd].
  rewrite encodable_append, !encodable_text. cbn. auto.
Qed.

Lemma not_found_outcome_witness :
  let w := world_answering (Ok (mkResponse 404 (Raise (mkExn JSONDecodeError "Expecting value")))) in
  snd (fetch_pokemon w "MissingNo" empty_store)
    = Ok (None, false, Some ("Pokemon 'missingno' not found" : str)) /\
  pokemons (fst (fetch_pokemon w "MissingNo" empty_store)) = [].
Proof.
  intro w.
  destruct (@not_found_outcome w "MissingNo" empty_store
              (mkResponse 404 (Raise (mkExn JSONDecodeError "Expecting value")))
              eq_refl eq_refl eq_refl) as (Hr & _ & Hp & _).
  split; [exact Hr | exact Hp].
Defined.

(** C3 at a name with a lone surrogate: the provider answers 404, the
    insert of the request raises, the insert of [_log_error] raises again,
    and there is no outcome and no row in the request log. *)
Lemma not_found_lone_surrogate :
  let w := world_answering (Ok (mkResponse 404 (Raise (mkExn JSONDecodeError "Expecting value")))) in
  let run := fetch_pokemon w undecodable_name empty_store in
  http_get w (url_of w undecodable_name)
    = Ok (mkResponse 404 (Raise (mkExn JSONDecodeError "Expecting value"))) /\
  snd run
    = Raise (mkExn UnicodeEncodeError
               "'utf-8' codec can't encode character '\udc80' in position 0: surrogates not allowed") /\
  api_requests (fst run) = [].
Proof. vm_compute. repeat split. Qed.

(* ===================================================================== *)
(** ** Which exceptions the accessors raise *)
(* ===================================================================== *)

Lemma and_then_builtin {A B} (r : result A) (k : A -> result B) :
  raises_builtin r -> (forall a, raises_builtin (k a)) -> raises_builtin (and_then r k).
Proof.
  intros Hr Hk e. destruct r as [a | e']; cbn.
  - apply Hk.
  - intros [= ->]. apply Hr. reflexivity.
Qed.

Lemma ok_builtin {A} (a : A) : raises_builtin (Ok a).
Proof. intros e [=]. Qed.

Lemma raise_builtin {A} e : builtin_error e = true -> raises_builtin (@Raise A e).
Proof. intros H e' [= <-]. exact H. Qed.

Lemma getitem_builtin v k : raises_builtin (Py.getitem v k).
Proof.
  intros e. destruct v; cbn; try (intros [= <-]; reflexivity).
  destruct (Py.lookup k members); intros [= <-]. reflexivity.
Qed.

Lemma contains_builtin k v : raises_builtin (Py.contains k v).
Proof. intros e. destruct v; cbn; intros [= <-]; reflexivity. Qed.

Lemma iter_builtin v : raises_builtin (Py.iter v).
Proof. intros e. destruct v; cbn; intros [= <-]; reflexivity. Qed.

Lemma comprehension_builtin {A B} (cond : A -> result bool) (body : A -> result B) xs :
  (forall x, raises_builtin (cond x)) -> (forall x, raises_builtin (body x)) ->
  raises_builtin (Py.comprehension cond body xs).
Proof.
  intros Hc Hb. induction xs as [| x xs IH]; cbn.
  - apply ok_builtin.
  - intros e. specialize (Hc x). specialize (Hb x).
    destruct (cond x) as [[|] | e1].
    + destruct (body x) as [y | e2].
      * destruct (Py.comprehension cond body xs) as [ys | e3].
        -- intros [=].
        -- intros [= <-]. apply IH. reflexivity.
      * intros [= <-]. apply Hb. reflexivity.
    + apply IH.
    + intros [= <-]. apply Hc. reflexivity.
Qed.

Lemma has_key_builtin raw k : raises_builtin (has_key raw k).
Proof.
  unfold has_key. destruct (Py.truthy raw); [apply contains_builtin | apply ok_builtin].
Qed.

Lemma getitem2_builtin x k1 k2 : raises_builtin (getitem2 x k1 k2).
Proof. apply and_then_builtin; [apply getitem_builtin | intro; apply getitem_builtin]. Qed.

Lemma is_hidden_builtin x : raises_builtin (is_hidden x).
Proof. apply and_then_builtin; [apply getitem_builtin | intro; apply ok_builtin]. Qed.

Lemma stat_item_builtin x : raises_builtin (stat_item x).
Proof.
  apply and_then_builtin; [apply getitem2_builtin | intro k].
  apply and_then_builtin; [apply getitem_builtin | intro v].
  destruct (Py.hashable k); [apply ok_builtin | intros e [= <-]; reflexivity].
Qed.

Lemma int_times_tenth_builtin n : raises_builtin (int_times_tenth n).
Proof.
  unfold int_times_tenth.
  destruct (PyFloat.is_finite _); [apply ok_builtin | intros e [= <-]; reflexivity].
Qed.

Create HintDb builtin.

#[local] Hint Resolve and_then_builtin ok_builtin getitem_builtin contains_builtin
  iter_builtin comprehension_builtin has_key_builtin getitem2_builtin is_hidden_builtin
  stat_item_builtin int_times_tenth_builtin : builtin.

Ltac builtin :=
  repeat first
    [ apply and_then_builtin
    | apply comprehension_builtin
    | match goal with |- forall _, raises_builtin _ => intro end
    | match goal with |- raises_builtin (if ?b then _ else _) => destruct b end
    | solve [ auto with builtin ]
    | solve [ apply raise_builtin; reflexivity ] ].

(** Reading the derived fields of a row raises nothing but [KeyError],
    [TypeError] and [OverflowError]. *)
Lemma pokemon_data_builtin p : raises_builtin (pokemon_data p).
Proof.
  unfold pokemon_data, height_in_meters, weight_in_kg, types, abilities,
    hidden_abilities, base_stats.
  builtin.
Qed.

Lemma times_tenth_builtin v : raises_builtin (times_tenth v).
Proof.
  destruct v; cbn; try (intros e [= <-]; reflexivity); try apply int_times_tenth_builtin.
Qed.

(** The same holds of the object [fetch_pokemon] returns. *)
Lemma instance_data_builtin p : raises_builtin (instance_data p).
Proof.
  unfold instance_data, types, abilities, hidden_abilities, base_stats.
  pose proof times_tenth_builtin.
  builtin.
Qed.

Lemma builtin_not_DoesNotExist e : builtin_error e = true -> isinstance_DoesNotExist e = false.
Proof.
  unfold builtin_error, isinstance_DoesNotExist. destruct (exc_class e); congruence.
Qed.


(* ===================================================================== *)
(** ** Who calls the provider *)
(* ===================================================================== *)

Lemma encodable_lower_text w (t : text) : PyStr.encodable (lower w t) = true.
Proof. rewrite encodable_lower. apply encodable_text. Qed.

(** C10.  [fetch_pokemon] starts with the GET at the provider, whatever the
    table holds, and never looks a name up in the table (its only read of
    the table is the one inside [update_or_create], by provider id, after the
    provider has answered); the search form, which calls it directly,
    therefore contacts the provider on every submission.  Only
    [PokemonAPIView.get] looks the name up first, and when the table has the
    row it answers without any call to the provider. *)
Theorem provider_called_on_every_fetch (w : World) (s : Store) :
  (forall pokemon_name : str,
    exists evs,
      effects (fst (fetch_pokemon w pokemon_name s))
        = effects s ++ EvHttpGet (url_of w pokemon_name) :: evs /\
      count_ev is_lookup_by_name evs = 0%nat) /\
  (forall pokemon_name : text,
    exists evs,
      effects (fst (PokemonSearchView_form_valid w pokemon_name s))
        = effects s ++ EvHttpGet (url_of w pokemon_name) :: evs /\
      count_ev is_lookup_by_name evs = 0%nat) /\
  (forall (pokemon_name : text) p,
      filter (ORM.has_name (lower w pokemon_name)) (pokemons s) = [p] ->
      effects (fst (PokemonAPIView_get w pokemon_name s))
        = effects s ++ [EvPokemonGetByName (lower w pokemon_name)]).
Proof.
  split; [| split].
  - intros pokemon_name.
    destruct (fetch_pokemon_trace w pokemon_name s) as (evs & Hev & _ & Hlook & _).
    exists evs. split; assumption.
  - intros pokemon_name.
    destruct (fetch_pokemon_trace w pokemon_name s) as (evs & Hev & _ & Hlook & _).
    exists evs. split; [| assumption].
    unfold PokemonSearchView_form_valid, bind.
    destruct (fetch_pokemon w pokemon_name s) as [s1 [[[[p |] [|]] msg] | e]];
      cbn in *; assumption.
  - intros pokemon_name p Hp.
    unfold PokemonAPIView_get, try_except, bind, ORM.Pokemon_get_by_name, emit, modify, gets,
      lift.
    rewrite (bind_text_ok _ (encodable_lower_text w pokemon_name)).
    cbn. rewrite Hp. cbn.
    destruct (pokemon_data p) as [d | e] eqn:E; [reflexivity |].
    rewrite (builtin_not_DoesNotExist e (pokemon_data_builtin p e E)). reflexivity.
Qed.

Lemma provider_called_on_every_fetch_witness :
  effects (fst (PokemonAPIView_get ditto_world (PyStr.lit "Ditto") store_with_ditto))
    = effects store_with_ditto ++ [EvPokemonGetByName "ditto"] /\
  In (EvHttpGet "https://pokeapi.co/api/v2/pokemon/ditto/")
     (skipn (List.length (effects store_with_ditto))
            (effects (fst (fetch_pokemon ditto_world "Ditto" store_with_ditto)))).
Proof.
  split.
  - destruct (provider_called_on_every_fetch ditto_world store_with_ditto)
      as (_ & _ & H).
    refine (H (PyStr.lit "Ditto") _ _). vm_compute. reflexivity.
  - vm_compute. left. reflexivity.
Defined.

(* ===================================================================== *)
(** ** The Pokemon table and its constraints *)
(* ===================================================================== *)

Lemma well_formed_same s s1 :
  pokemons s1 = pokemons s -> next_pk s1 = next_pk s -> well_formed s -> well_formed s1.
Proof. intros Hp Hn [? ? ? ?]. split; rewrite ?Hp, ?Hn; assumption. Qed.

Section ListFacts.

Context {A B : Type}.

Lemma NoDup_snoc (l : list A) (x : A) : NoDup l -> ~ In x l -> NoDup (l ++ [x]).
Proof.
  intros Hl Hx. apply NoDup_app; [assumption | repeat constructor; intros [] |].
  intros a Ha [<- | []]. contradiction.
Qed.

Lemma NoDup_middle (l l' : list A) (x : A) :
  NoDup (l ++ l') -> ~ In x (l ++ l') -> NoDup (l ++ x :: l').
Proof. intros H1 H2. apply (NoDup_Add (Add_app x l l')). split; assumption. Qed.

Lemma map_id_on (g : A -> A) (l : list A) :
  (forall x, In x l -> g x = x) -> map g l = l.
Proof.
  intros H. rewrite <- (map_id l) at 2. apply map_ext_in. exact H.
Qed.

Lemma existsb_false_In (f : A -> bool) (l : list A) :
  existsb f l = false -> forall x, In x l -> f x = false.
Proof.
  intros H x Hx. destruct (f x) eqn:E; [| reflexivity].
  rewrite <- H. symmetry. apply existsb_exists. exists x. split; assumption.
Qed.

Lemma filter_nil_In (f : A -> bool) (l : list A) :
  filter f l = [] -> forall x, In x l -> f x = false.
Proof.
  intros H x Hx. destruct (f x) eqn:E; [| reflexivity].
  assert (Hin : In x (filter f l)) by (apply filter_In; split; assumption).
  rewrite H in Hin. destruct Hin.
Qed.

Lemma filter_none (f : A -> bool) (l : list A) :
  (forall x, In x l -> f x = false) -> filter f l = [].
Proof.
  induction l as [| a l IH]; intros H; [reflexivity |].
  cbn. rewrite (H a (or_introl eq_refl)). apply IH. intros x Hx. apply H. right. exact Hx.
Qed.

Lemma not_in_map (f : A -> B) (l : list A) (y : B) :
  (forall x, In x l -> f x <> y) -> ~ In y (map f l).
Proof. intros H Hy. apply in_map_iff in Hy as (x & Hfx & Hx). exact (H x Hx Hfx). Qed.

End ListFacts.

(** Two rows of one table with the same value in a NoDup column are apart
    in no decomposition of the table. *)
Lemma NoDup_split_fresh {A B} (f : A -> B) (l1 l2 : list A) (x : A) :
  NoDup (map f (l1 ++ x :: l2)) ->
  forall q, In q (l1 ++ l2) -> f q <> f x.
Proof.
  intros H q Hq E. rewrite map_app in H. cbn in H.
  apply NoDup_remove_2 in H. apply H. rewrite <- map_app, <- E.
  apply in_map. exact Hq.
Qed.

Lemma has_id_true id p : ORM.has_id id p = true <-> pokemon_id p = id.
Proof. apply Z.eqb_eq. Qed.

Lemma has_id_false id p : ORM.has_id id p = false <-> pokemon_id p <> id.
Proof. apply Z.eqb_neq. Qed.

Lemma code_eqb_eq c d : PyStr.code_eqb c d = true <-> c = d.
Proof.
  destruct c, d; cbn; rewrite ?N.eqb_eq; split; try congruence; discriminate.
Qed.

Lemma str_eqb_eq (a b : str) : PyStr.eqb a b = true <-> a = b.
Proof.
  revert b. induction a as [| c a IH]; intros [| d b]; cbn; try (split; congruence).
  rewrite andb_true_iff, code_eqb_eq, IH. split; [intros [-> ->]; reflexivity |].
  intros [= -> ->]. auto.
Qed.

Lemma str_eqb_refl (a : str) : PyStr.eqb a a = true.
Proof. apply str_eqb_eq. reflexivity. Qed.

Lemma has_name_true n p : ORM.has_name n p = true <-> name p = n.
Proof. apply str_eqb_eq. Qed.

Lemma has_name_false n p : ORM.has_name n p = false <-> name p <> n.
Proof.
  unfold ORM.has_name. rewrite <- str_eqb_eq. destruct (PyStr.eqb (name p) n); split; congruence.
Qed.

Lemma insert_row_spec now id c s :
  well_formed s ->
  filter (ORM.has_id id) (pokemons s) = [] ->
  post (ORM.insert_row now id c) s
       (fun s1 r =>
          match r with
          | Ok p =>
              well_formed s1 /\ same_but_rows s s1 /\ stored id c p /\
              pk p = next_pk s /\ created_at p = now /\ updated_at p = now /\
              pokemons s1 = pokemons s ++ [p]
          | Raise _ => s1 = s
          end).
Proof.
  intros [Hpk Hid Hname Hnext] Hnone. unfold post, ORM.insert_row.
  destruct (existsb (ORM.has_id id) (pokemons s)); [reflexivity |].
  destruct (existsb (ORM.has_name (ORM.c_name c)) (pokemons s)) eqn:Hfree; [reflexivity |].
  cbn. repeat split; cbn.
  - rewrite map_app. apply NoDup_snoc; [assumption |]. cbn.
    apply not_in_map. intros q Hq. specialize (Hnext q Hq). lia.
  - rewrite map_app. apply NoDup_snoc; [assumption |]. cbn.
    apply not_in_map. intros q Hq. apply has_id_false.
    exact (filter_nil_In _ _ Hnone q Hq).
  - rewrite map_app. apply NoDup_snoc; [assumption |]. cbn.
    apply not_in_map. intros q Hq. apply has_name_false.
    exact (existsb_false_In _ _ Hfree q Hq).
  - intros p [Hp | [<- | []]]%in_app_or; cbn; [specialize (Hnext p Hp) |]; lia.
Qed.

Lemma update_row_spec now old c s :
  well_formed s ->
  In old (pokemons s) ->
  post (ORM.update_row now old c) s
       (fun s1 r =>
          match r with
          | Ok p =>
              well_formed s1 /\ same_but_rows s s1 /\ stored (pokemon_id old) c p /\
              pk p = pk old /\ created_at p = created_at old /\ updated_at p = now /\
              next_pk s1 = next_pk s /\
              exists l1 l2, pokemons s = l1 ++ old :: l2 /\ pokemons s1 = l1 ++ p :: l2
          | Raise _ => s1 = s
          end).
Proof.
  intros [Hpk Hid Hname Hnext] Hold. unfold post, ORM.update_row.
  destruct (existsb _ (pokemons s)) eqn:Hfree; [reflexivity |].
  destruct (in_split _ _ Hold) as (l1 & l2 & Hrows).
  set (p := mkPokemon (pk old) (pokemon_id old) (ORM.c_name c) (ORM.c_height c)
                      (ORM.c_weight c) (ORM.c_base_experience c) (ORM.c_raw_data c)
                      (created_at old) now).
  assert (Hnew : map (fun q => if ORM.has_pk (pk old) q then p else q) (pokemons s)
                 = l1 ++ p :: l2).
  { rewrite Hrows in Hpk |- *. rewrite map_app. cbn.
    unfold ORM.has_pk at 2. rewrite Z.eqb_refl.
    assert (Hother : forall q, In q (l1 ++ l2) ->
                               (if ORM.has_pk (pk old) q then p else q) = q).
    { intros q Hq. unfold ORM.has_pk.
      destruct (Z.eqb_spec (pk q) (pk old)) as [E | _]; [| reflexivity].
      exfalso. exact (NoDup_split_fresh _ _ _ _ Hpk q Hq E). }
    rewrite !map_id_on; [reflexivity | |]; intros q Hq; apply Hother, in_or_app; auto. }
  cbn. rewrite Hnew. repeat split; cbn; try (exists l1, l2; split; [assumption | reflexivity]).
  - rewrite Hrows in Hpk. rewrite map_app in *. exact Hpk.
  - rewrite Hrows in Hid. rewrite map_app in *. exact Hid.
  - rewrite Hrows in Hname, Hpk. rewrite map_app in Hname |- *. cbn in Hname |- *.
    apply NoDup_middle; [exact (NoDup_remove_1 _ _ _ Hname) |].
    rewrite <- map_app. apply not_in_map. intros q Hq. apply has_name_false.
    assert (Hq' : In q (pokemons s)).
    { rewrite Hrows. apply in_app_or in Hq. apply in_or_app. cbn. tauto. }
    pose proof (existsb_false_In _ _ Hfree q Hq') as Hf. cbn beta in Hf.
    apply andb_false_iff in Hf as [Hf | Hf]; [exact Hf |].
    apply negb_false_iff, Z.eqb_eq in Hf. exfalso.
    exact (NoDup_split_fresh _ _ _ _ Hpk q Hq Hf).
  - intros q [Hq | [<- | Hq]]%in_app_or; cbn; apply Hnext; rewrite Hrows;
      apply in_or_app; cbn; auto.
Qed.

Lemma filter_split_unit {A} (f : A -> bool) (l1 l2 : list A) (x : A) :
  filter f (l1 ++ x :: l2) = [x] -> filter f l1 = [] /\ filter f l2 = [] /\ f x = true.
Proof.
  intros H.
  assert (Hx : f x = true).
  { assert (Hin : In x (filter f (l1 ++ x :: l2))) by (rewrite H; left; reflexivity).
    apply filter_In in Hin. tauto. }
  rewrite filter_app in H. cbn in H. rewrite Hx in H.
  destruct (filter f l1) as [| a l].
  - cbn in H. injection H as H. auto.
  - cbn in H. injection H as _ H. destruct l; discriminate H.
Qed.

(** What the stages of a write have checked when they return. *)
Lemma prepare_insert_ok w converted_id d id c :
  ORM.prepare_insert w converted_id d = Ok (id, c) ->
  ORM.bind_int converted_id = Ok (Some id) /\ ORM.prepare w d = Ok c.
Proof.
  unfold ORM.prepare_insert, ORM.prepare. intros H.
  destruct (ORM.convert w d) as [q |]; cbn [and_then] in *; [| discriminate H].
  destruct (ORM.bind_int converted_id) as [oid |]; cbn [and_then] in *; [| discriminate H].
  destruct (ORM.bind_parameters q) as [q' |]; cbn [and_then] in *; [| discriminate H].
  destruct oid as [id' |]; cbn [ORM.not_null and_then] in H; [| discriminate H].
  destruct (ORM.constrain q') as [c' |]; cbn [and_then] in *; [| discriminate H].
  injection H as -> ->. auto.
Qed.

Lemma integer_field_ok w column v converted_id id :
  ORM.to_int w column v = Ok converted_id ->
  ORM.bind_int converted_id = Ok (Some id) ->
  and_then (ORM.integer_field w column v) (ORM.not_null column) = Ok id.
Proof. unfold ORM.integer_field. intros -> H. cbn. rewrite H. reflexivity. Qed.

Lemma rows_with_id_found converted_id rows old rest :
  ORM.rows_with_id converted_id rows = old :: rest ->
  exists id, ORM.bind_int converted_id = Ok (Some id) /\
             filter (ORM.has_id id) rows = old :: rest.
Proof.
  unfold ORM.rows_with_id.
  destruct (ORM.bind_int converted_id) as [[id |] |]; try discriminate. eauto.
Qed.

Lemma upsert_spec w v_id d s :
  well_formed s ->
  post (ORM.Pokemon_update_or_create w v_id d) s
       (fun s1 r =>
          well_formed s1 /\
          match r with
          | Ok (p, created) =>
              upserted w v_id d s s1 p created /\
              p = ORM.instance_of p (if created then v_id else JInt (pokemon_id p)) d
          | Raise _ => pokemons s1 = pokemons s /\ next_pk s1 = next_pk s
          end).
Proof.
  intros Hwf. unfold ORM.Pokemon_update_or_create.
  assert (Hwf' : well_formed (add_effect EvPokemonUpsert s))
    by (apply well_formed_same with s; auto).
  wp_step. wp_step. wp_step. wp_step; [| cbn; auto].
  rename a into converted_id. wp_step. wp_step.
  cbn [pokemons add_effect].
  destruct (ORM.rows_with_id converted_id (pokemons s)) as [| old [| other rest]] eqn:Hfound.
  - wp_step. wp_step; [| cbn; auto]. destruct a as [id c]. cbn [fst snd].
    apply prepare_insert_ok in Heqr0 as (Hid & Hprep).
    assert (Hfilter : filter (ORM.has_id id) (pokemons s) = [])
      by (unfold ORM.rows_with_id in Hfound; rewrite Hid in Hfound; exact Hfound).
    wp_step.
    eapply post_weaken;
      [apply (insert_row_spec (clock w) id c (add_effect EvPokemonUpsert s) Hwf' Hfilter) |].
    cbn beta. intros s1 [p | e].
    + intros (Hwf1 & _ & Hst & Hpk & Hc & Hu & Hrows). cbn in Hrows.
      wp_step. split; [assumption |]. split; [| reflexivity].
      exists id, c. cbn [ORM.row ORM.instance_of].
      split; [exact (integer_field_ok _ _ _ _ _ Heqr Hid) |].
      repeat split; try assumption; try apply Hst.
      rewrite Hrows, filter_app, Hfilter. cbn.
      destruct Hst as (Hid' & _). apply has_id_true in Hid'. rewrite Hid'. reflexivity.
    + intros ->. cbn. auto.
  - apply rows_with_id_found in Hfound as (id & Hid & Hfilter).
    assert (Hold : In old (pokemons s) /\ ORM.has_id id old = true).
    { apply filter_In. rewrite Hfilter. left. reflexivity. }
    destruct Hold as (Hold & Hid'). apply has_id_true in Hid'.
    wp_step. wp_step; [| cbn; auto]. rename a into c. wp_step.
    eapply post_weaken;
      [apply (update_row_spec (clock w) old c (add_effect EvPokemonUpsert s) Hwf' Hold) |].
    cbn beta. intros s1 [p | e].
    + intros (Hwf1 & _ & Hst & Hpk & Hc & Hu & _ & l1 & l2 & Hrows & Hrows1).
      cbn in Hrows. rewrite Hid' in Hst.
      wp_step. split; [assumption |]. cbn [ORM.row ORM.instance_of].
      split; [| destruct Hst as (-> & _); rewrite Hid'; reflexivity].
      exists id, c.
      split; [exact (integer_field_ok _ _ _ _ _ Heqr Hid) |].
      repeat split; try assumption; try apply Hst.
      * rewrite Hrows in Hfilter. apply filter_split_unit in Hfilter as (F1 & F2 & _).
        rewrite Hrows1, filter_app. cbn. rewrite F1, F2.
        destruct Hst as (Hid'' & _). apply has_id_true in Hid''. rewrite Hid''. reflexivity.
      * exists old, l1, l2. auto.
    + intros ->. cbn. auto.
  - wp_step. cbn. auto.
Qed.

Lemma unique_id_filter id rows :
  NoDup (map pokemon_id rows) -> (List.length (filter (ORM.has_id id) rows) <= 1)%nat.
Proof.
  induction rows as [| q rows IH]; cbn; [lia |].
  intros [Hq Hrows]%NoDup_cons_iff.
  destruct (ORM.has_id id q) eqn:E; [| auto].
  apply has_id_true in E. cbn. rewrite filter_none; [cbn; lia |].
  intros x Hx. apply has_id_false. intros Ex. apply Hq. rewrite E, <- Ex.
  apply in_map. exact Hx.
Qed.

(** What [prepare] has checked when it returns. *)
Lemma prepare_ok w d c :
  ORM.prepare w d = Ok c ->
  ORM.char_field w (ORM.d_name d) = Some (ORM.c_name c) /\
  PyStr.encodable (ORM.c_name c) = true /\
  ORM.c_raw_data c = ORM.d_raw_data d /\
  ORM.json_valid (ORM.d_raw_data d) = true.
Proof.
  unfold ORM.prepare, ORM.convert, ORM.bind_parameters, ORM.constrain, ORM.json_field,
    ORM.bind_optional_text, ORM.bind_text.
  intros H.
  destruct (ORM.to_int w "height" (ORM.d_height d)) as [h |]; [| discriminate H].
  destruct (ORM.to_int w "weight" (ORM.d_weight d)) as [wt |]; [| discriminate H].
  destruct (ORM.to_int w "base_experience" (ORM.d_base_experience d)) as [be |];
    [| discriminate H].
  cbn [and_then ORM.q_name ORM.q_height ORM.q_weight ORM.q_base_experience ORM.q_raw_data] in H.
  destruct (ORM.char_field w (ORM.d_name d)) as [n |].
  - destruct (PyStr.encodable n) eqn:En; [| discriminate H].
    cbn [and_then] in H.
    destruct (ORM.bind_int h) as [[h' |] |]; cbn in H; try discriminate H.
    all: destruct (ORM.bind_int wt) as [[wt' |] |]; cbn in H; try discriminate H.
    all: destruct (ORM.bind_int be) as [be' |]; cbn in H; try discriminate H.
    destruct (ORM.json_valid (ORM.d_raw_data d)) eqn:Ej; [| discriminate H].
    cbn in H. injection H as <-. cbn. auto.
  - cbn [and_then] in H.
    destruct (ORM.bind_int h) as [h' |]; cbn in H; try discriminate H.
    destruct (ORM.bind_int wt) as [wt' |]; cbn in H; try discriminate H.
    destruct (ORM.bind_int be) as [be' |]; cbn in H; discriminate H.
Qed.

Lemma empty_store_well_formed : well_formed empty_store.
Proof. split; cbn; try constructor. intros p []. Qed.

(* ===================================================================== *)
(** ** What a successful fetch has done *)
(* ===================================================================== *)

Ltac wp_call_save :=
  lazymatch goal with
  | |- post (_save_json_to_file _ _ _) _ _ =>
      eapply post_weaken;
      [ apply save_json_spec | cbn beta; intros ? ? (-> & (? & ? & ?) & ? & ? & ?) ]
  end.

(** What a successful fetch has done: the provider answered 200 with [data],
    and the row of the object returned is the one row of [data['id']], holding
    the fields of [data] as the columns take them; the attributes of the
    object are the fields of [data] as they are. *)
Lemma fetch_pokemon_success w pokemon_name s :
  well_formed s ->
  post (fetch_pokemon w pokemon_name) s
       (fun s1 r =>
          well_formed s1 /\
          forall p, r = Ok (Some p, true, None) ->
            exists response data v_id v_name v_height v_weight v_exp (created : bool),
              http_get w (url_of w pokemon_name) = Ok response /\
              status_code response = 200 /\
              json response = Ok data /\
              Py.getitem data "id" = Ok v_id /\
              Py.getitem data "name" = Ok v_name /\
              Py.getitem data "height" = Ok v_height /\
              Py.getitem data "weight" = Ok v_weight /\
              Py.get data "base_experience" = Ok v_exp /\
              p = ORM.instance_of p (if created then v_id else JInt (pokemon_id p))
                                  (ORM.mkDefaults v_name v_height v_weight v_exp data) /\
              exists s0, pokemons s0 = pokemons s /\ next_pk s0 = next_pk s /\
                upserted w v_id (ORM.mkDefaults v_name v_height v_weight v_exp data)
                         s0 s1 p created).
Proof.
  intros Hwf. unfold fetch_pokemon.
  repeat (wp_step || wp_open || wp_call_save).
  all: cbn [pokemons next_pk api_requests add_effect add_log add_api_request] in *.
  all: try (split; [ eapply well_formed_same; [ | | exact Hwf]; cbn; congruence
                   | intros p [=] ]).
  assert (Hwf1 : well_formed s1) by (apply well_formed_same with s; assumption).
  eapply post_weaken; [apply (upsert_spec w _ _ s1 Hwf1) |].
  cbn beta. intros s2 [[p created] | e] (Hwf2 & Hup).
  - destruct Hup as (Hup & Hattr).
    wp_all. split; [apply well_formed_same with s2; auto |].
    intros p' [= <-]. apply Z.eqb_eq in Heqb.
    exists a, a0, a1, a2, a3, a4, a5, created. unfold url_of.
    repeat (split; [assumption || reflexivity |]).
    exists s1. do 2 (split; [assumption |]).
    destruct Hup as (id & c & ? & ? & ? & ? & ? & Hcase).
    exists id, c. repeat (split; [assumption |]). exact Hcase.
  - destruct Hup as (Hrows & Hnext).
    wp_all; cbn [pokemons next_pk add_effect add_log add_api_request].
    all: split; [apply well_formed_same with s2; auto | intros p [=]].
Qed.

(* ===================================================================== *)
(** ** The outcome of a fetch and the table *)
(* ===================================================================== *)

(** [update_or_create] on any table: the row it returns is in the table, and
    when it raises the table is as before. *)
Lemma upsert_outcome w v d s :
  post (ORM.Pokemon_update_or_create w v d) s
       (fun s1 r =>
          api_requests s1 = api_requests s /\
          match r with
          | Ok (p, _) => In (ORM.row p) (pokemons s1)
          | Raise _ => pokemons s1 = pokemons s /\ next_pk s1 = next_pk s
          end).
Proof.
  unfold ORM.Pokemon_update_or_create.
  wp_all; cbn; auto.
  all: repeat match goal with |- context [if ?b then _ else _] => destruct b eqn:? end;
    cbn; auto.
  - split; [reflexivity |]. apply in_or_app. right. left. reflexivity.
  - split; [reflexivity |]. apply in_map_iff. exists p.
    match goal with H : ORM.rows_with_id _ _ = [p] |- _ =>
      cbn in H; apply rows_with_id_found in H as (id & _ & Hfound) end.
    assert (Hp : In p (filter (ORM.has_id id) (pokemons s)))
      by (rewrite Hfound; left; reflexivity).
    apply filter_In in Hp as (Hp & _).
    split; [| exact Hp]. unfold ORM.has_pk. rewrite Z.eqb_refl. reflexivity.
Qed.

(** The three ways a call ends: with an entity that is in the table; with a
    message, the table as before; with an exception, the table as before. *)
Lemma fetch_pokemon_outcome w pokemon_name s :
  post (fetch_pokemon w pokemon_name) s
       (fun s1 r =>
          (exists p, r = Ok (Some p, true, None) /\ In (ORM.row p) (pokemons s1)) \/
          ((exists msg, r = Ok (None, false, Some msg)) \/
           r = Raise (ORM.unicode_encode_error (normalize w pokemon_name))) /\
          pokemons s1 = pokemons s /\ next_pk s1 = next_pk s).
Proof.
  unfold fetch_pokemon. fold (normalize w pokemon_name).
  repeat first
    [ wp_step | wp_open
    | lazymatch goal with
      | |- post (_save_json_to_file _ _ _) _ _ =>
          eapply post_weaken;
          [ apply save_json_spec | cbn beta; intros ? ? (-> & (? & ? & ?) & _) ]
      | |- post (ORM.Pokemon_update_or_create _ _ _) _ _ =>
          eapply post_weaken;
          [ apply upsert_outcome | cbn beta; intros ? [[? ?] | ?] [? ?] ]
      end ].
  all: cbn [pokemons next_pk api_requests add_effect add_log add_api_request fst snd] in *.
  all: repeat match goal with H : _ /\ _ |- _ => destruct H end.
  all: first
         [ left; eexists; split; [reflexivity | assumption]
         | right; split; [left; eexists; reflexivity | split; congruence]
         | right; split; [right; reflexivity | split; congruence] ].
Qed.

Lemma fetch_pokemon_well_formed w n s :
  well_formed s -> well_formed (fst (fetch_pokemon w n s)).
Proof. intros Hwf. apply (fetch_pokemon_success w n s Hwf). Qed.

(** What a successful fetch has written: the row of the object returned
    holds the values the provider's answer gives, it is the one row of its
    provider id, and it is either a new last row or stands where the row of
    that id stood, with the primary key and the creation time of that one. *)
Lemma fetch_pokemon_upsert w pokemon_name s s1 (p : ORM.Instance) :
  well_formed s ->
  fetch_pokemon w pokemon_name s = (s1, Ok (Some p, true, None)) ->
  well_formed s1 /\
  exists id c,
    provider_values w pokemon_name id c /\ stored id c p /\
    updated_at p = clock w /\
    filter (ORM.has_id id) (pokemons s1) = [ORM.row p] /\
    ((filter (ORM.has_id id) (pokemons s) = [] /\
      pokemons s1 = pokemons s ++ [ORM.row p] /\
      pk p = next_pk s /\ created_at p = clock w) \/
     (exists old l1 l2,
         pokemons s = l1 ++ old :: l2 /\ pokemons s1 = l1 ++ ORM.row p :: l2 /\
         pokemon_id old = id /\ pk p = pk old /\ created_at p = created_at old)).
Proof.
  intros Hwf Hrun.
  pose proof (fetch_pokemon_success w pokemon_name s Hwf) as H.
  unfold post in H. rewrite Hrun in H. cbn [fst snd] in H.
  destruct H as (Hwf1 & H). split; [exact Hwf1 |].
  destruct (H p eq_refl)
    as (response & data & v_id & v_name & v_h & v_w & v_e & created & Hget & Hcode & Hjson &
        Hid & Hname & Hh & Hwt & He & _ & s0 & Hp0 & Hn0 & id & c & Hint & Hprep & Hst &
        Hup & Hone & Hcase).
  exists id, c.
  split; [exists response, data, v_id, v_name, v_h, v_w, v_e; repeat split; assumption |].
  do 3 (split; [assumption |]).
  destruct created.
  - left. rewrite <- Hp0, <- Hn0. exact Hcase.
  - right. rewrite <- Hp0. exact Hcase.
Qed.

(** A fetch does not lower the number of rows of a provider id. *)
Lemma fetch_pokemon_ids w pokemon_name s id :
  well_formed s ->
  (List.length (filter (ORM.has_id id) (pokemons s))
   <= List.length (filter (ORM.has_id id) (pokemons (fst (fetch_pokemon w pokemon_name s)))))%nat.
Proof.
  intros Hwf.
  pose proof (fetch_pokemon_outcome w pokemon_name s) as Ho. unfold post in Ho.
  destruct (fetch_pokemon w pokemon_name s) as [s1 r] eqn:Hrun. cbn [fst snd] in *.
  destruct Ho as [(p & -> & _) | (_ & -> & _)]; [| lia].
  destruct (fetch_pokemon_upsert w pokemon_name s s1 p Hwf Hrun)
    as (_ & id' & c & _ & Hst & _ & _ &
        [(_ & -> & _) | (old & l1 & l2 & -> & -> & Hold & _)]).
  - rewrite filter_app, length_app. lia.
  - assert (E : ORM.has_id id old = ORM.has_id id (ORM.row p)).
    { unfold ORM.has_id. destruct Hst as (Hid & _). rewrite Hid, Hold. reflexivity. }
    rewrite !filter_app, !length_app. cbn [filter]. rewrite E.
    destruct (ORM.has_id id (ORM.row p)); cbn [List.length]; lia.
Qed.

(* ===================================================================== *)
(** ** Fetching one provider id twice *)
(* ===================================================================== *)

(** C2.  Fetch twice, from any table that satisfies its constraints, under
    any two names and with any two providers.  Whatever the two calls
    return, no provider id has two rows afterwards.  When the first call
    has returned an entity, its provider id has exactly one row after the
    second call.  When both calls have returned an entity, each row holds
    the id and the values of the document its provider answered with, as
    the columns take them, the row of the later call is the one row of its
    id; and when the two documents carry the same id, the later call has
    updated the row of the earlier one (same primary key, same creation
    time) and the table has as many rows as before it. *)
Theorem fetch_twice_one_row (w1 w2 : World) (name1 name2 : str) (s : Store) :
  well_formed s ->
  let run1 := fetch_pokemon w1 name1 s in
  let run2 := fetch_pokemon w2 name2 (fst run1) in
  (forall id, (List.length (filter (ORM.has_id id) (pokemons (fst run2))) <= 1)%nat) /\
  (forall p1 : ORM.Instance,
      snd run1 = Ok (Some p1, true, None) ->
      List.length (filter (ORM.has_id (pokemon_id p1)) (pokemons (fst run2))) = 1%nat) /\
  (forall p1 p2 : ORM.Instance,
      snd run1 = Ok (Some p1, true, None) ->
      snd run2 = Ok (Some p2, true, None) ->
      exists id1 c1 id2 c2,
        provider_values w1 name1 id1 c1 /\ stored id1 c1 p1 /\
        provider_values w2 name2 id2 c2 /\ stored id2 c2 p2 /\
        filter (ORM.has_id id2) (pokemons (fst run2)) = [ORM.row p2] /\
        (id1 = id2 ->
           pk p2 = pk p1 /\ created_at p2 = created_at p1 /\
           List.length (pokemons (fst run2)) = List.length (pokemons (fst run1)))).
Proof.
  intros Hwf run1 run2.
  assert (Hwf1 : well_formed (fst run1)) by (apply fetch_pokemon_well_formed, Hwf).
  assert (Hwf2 : well_formed (fst run2)) by (apply fetch_pokemon_well_formed, Hwf1).
  split; [intros id; apply unique_id_filter, Hwf2 | split].
  - intros p1 E1.
    destruct (fetch_pokemon_upsert w1 name1 s (fst run1) p1 Hwf)
      as (_ & id1 & c1 & _ & Hst1 & _ & Hone1 & _).
    { fold run1. rewrite <- E1. apply surjective_pairing. }
    destruct Hst1 as (Hid1 & _). rewrite Hid1.
    pose proof (fetch_pokemon_ids w2 name2 (fst run1) id1 Hwf1) as Hle.
    fold run2 in Hle. rewrite Hone1 in Hle. cbn in Hle.
    pose proof (unique_id_filter id1 _ (wf_pokemon_id _ Hwf2)). lia.
  - intros p1 p2 E1 E2.
    destruct (fetch_pokemon_upsert w1 name1 s (fst run1) p1 Hwf)
      as (_ & id1 & c1 & Hv1 & Hst1 & _ & Hone1 & _).
    { fold run1. rewrite <- E1. apply surjective_pairing. }
    destruct (fetch_pokemon_upsert w2 name2 (fst run1) (fst run2) p2 Hwf1)
      as (_ & id2 & c2 & Hv2 & Hst2 & _ & Hone2 & Hcase).
    { fold run2. rewrite <- E2. apply surjective_pairing. }
    exists id1, c1, id2, c2. do 5 (split; [assumption |]).
    intros <-.
    destruct Hcase as [(Hnone & _) | (old & l1 & l2 & Hrows & Hrows2 & Hold & Hpk & Hcr)].
    + rewrite Hone1 in Hnone. discriminate.
    + assert (Hin : In old (filter (ORM.has_id id1) (pokemons (fst run1)))).
      { apply filter_In. split; [rewrite Hrows; apply in_elt | apply has_id_true, Hold]. }
      rewrite Hone1 in Hin. destruct Hin as [<- | []].
      repeat split; try assumption.
      rewrite Hrows, Hrows2, !length_app. reflexivity.
Qed.

Lemma ditto_fetched_twice :
  map height (pokemons (fst (fetch_pokemon grown_world "Ditto"
                               (fst (fetch_pokemon ditto_world "ditto" empty_store))))) = [4].
Proof. vm_compute. reflexivity. Qed.

Lemma fetch_twice_one_row_witness :
  let s2 := fst (fetch_pokemon grown_world "Ditto"
                   (fst (fetch_pokemon ditto_world "ditto" empty_store))) in
  (List.length (filter (ORM.has_id 132) (pokemons s2)) <= 1)%nat /\
  map height (pokemons s2) = [4].
Proof.
  intros s2. split.
  - exact (proj1 (fetch_twice_one_row ditto_world grown_world "ditto" "Ditto" empty_store
                    empty_store_well_formed) 132).
  - exact ditto_fetched_twice.
Defined.

(* ===================================================================== *)
(** ** The name a fetch stores *)
(* ===================================================================== *)

(** C5 (as amended).  After a successful fetch the row returned holds, as its
    name, the value of the key "name" of the provider's document, exactly as
    the provider wrote it (no lowercasing happens between the document and
    the column); the same document is the row's raw_data; and the names
    of the table are still pairwise different. *)
Theorem stored_name_is_provider_name (w : World) (pokemon_name : str) (s s1 : Store)
        (p : ORM.Instance) :
  well_formed s ->
  fetch_pokemon w pokemon_name s = (s1, Ok (Some p, true, None)) ->
  exists response data v_name,
    http_get w (url_of w pokemon_name) = Ok response /\
    json response = Ok data /\
    Py.getitem data "name" = Ok v_name /\
    ORM.char_field w v_name = Some (name p) /\
    (forall provider_name, v_name = JStr provider_name -> name p = provider_name) /\
    raw_data p = data /\
    In (ORM.row p) (pokemons s1) /\
    NoDup (map name (pokemons s1)).
Proof.
  intros Hwf Hrun.
  pose proof (fetch_pokemon_success w pokemon_name s Hwf) as H.
  unfold post in H. rewrite Hrun in H. cbn [fst snd] in H.
  destruct H as (Hwf1 & H).
  destruct (H p eq_refl)
    as (response & data & v_id & v_name & v_h & v_w & v_e & created & Hget & _ & Hjson &
        _ & Hname & _ & _ & _ & _ & s0 & _ & _ & id & c & _ & Hprep & Hst & _ & Hone & _).
  destruct Hst as (_ & Hn & _ & _ & _ & Hraw).
  apply prepare_ok in Hprep as (Hchar & _ & Hcr & _).
  cbn [ORM.d_name ORM.d_raw_data] in Hchar, Hcr.
  exists response, data, v_name.
  repeat (split; [assumption |]).
  split; [rewrite Hn; exact Hchar |].
  split; [intros nm ->; cbn in Hchar; congruence |].
  split; [congruence |].
  split; [| apply Hwf1].
  assert (Hin : In (ORM.row p) (filter (ORM.has_id id) (pokemons s1)))
    by (rewrite Hone; left; reflexivity).
  apply filter_In in Hin. tauto.
Qed.

Lemma ditto_fetched :
  fetch_pokemon ditto_world "ditto" empty_store
    = (store_with_ditto, Ok (Some ditto_instance, true, None)).
Proof. vm_compute. reflexivity. Qed.

Lemma stored_name_is_provider_name_witness :
  In ditto_row (pokemons store_with_ditto) /\ NoDup (map name (pokemons store_with_ditto)).
Proof.
  destruct (stored_name_is_provider_name ditto_world "ditto" empty_store store_with_ditto
              ditto_instance empty_store_well_formed ditto_fetched)
    as (response & data & v_name & _ & _ & _ & _ & _ & _ & Hin & Hnodup).
  split; assumption.
Defined.

(** C5, as stated, fails: the fetch succeeds and the name column holds
    "Ditto", which is not lowercase; the provider's casing is in the column
    as well as in raw_data. *)
Lemma stored_name_keeps_provider_case :
  let run := fetch_pokemon capitalising_world "ditto" empty_store in
  let row := mkPokemon 1 132 "Ditto" 3 40 None capitalised_payload 0 0 in
  snd run = Ok (Some (ORM.instance_of row (JInt 132)
                        (ORM.mkDefaults (JStr "Ditto") (JInt 3) (JInt 40) JNull
                                        capitalised_payload)),
                true, None) /\
  pokemons (fst run) = [row] /\
  map name (pokemons (fst run)) = ["Ditto" : str] /\
  lower capitalising_world "Ditto" <> ("Ditto" : str).
Proof.
  split; [reflexivity | split; [reflexivity | split; [reflexivity | discriminate]]].
Qed.

(* ===================================================================== *)
(** ** The derived accessors *)
(* ===================================================================== *)

Lemma has_key_absent raw key :
  is_object raw \/ Py.truthy raw = false ->
  key_absent key raw ->
  has_key raw key = Ok false.
Proof.
  unfold has_key. intros [Hobj | Hfalsy] Habs.
  - destruct raw; try contradiction. cbn in Habs.
    destruct (Py.truthy (JObj members)); [| reflexivity].
    cbn. rewrite Habs. reflexivity.
  - rewrite Hfalsy. reflexivity.
Qed.

(** Every document that [fetch_pokemon] stores is an object: [data['id']]
    was read from it. *)
Lemma getitem_ok_object v key x : Py.getitem v key = Ok x -> is_object v.
Proof. destruct v; cbn; try discriminate. trivial. Qed.

(** C7 (as amended).  For a [raw_data] that is a JSON object, or that is
    false as a condition (null, false, 0, 0.0, the empty string, list or
    object), an accessor whose key is absent returns the empty list (for
    [base_stats] the empty mapping) and does not raise. *)
Theorem accessors_without_key (self : Pokemon) :
  is_object (raw_data self) \/ Py.truthy (raw_data self) = false ->
  (key_absent "types" (raw_data self) -> types self = Ok []) /\
  (key_absent "abilities" (raw_data self) ->
     abilities self = Ok [] /\ hidden_abilities self = Ok []) /\
  (key_absent "stats" (raw_data self) -> base_stats self = Ok []).
Proof.
  intros Hraw. unfold types, abilities, hidden_abilities, base_stats.
  split; [| split]; intros Habs; rewrite (has_key_absent _ _ Hraw Habs); auto.
Qed.

Lemma accessors_without_key_witness :
  types ditto_row = Ok [] /\ base_stats ditto_row = Ok [].
Proof.
  destruct (accessors_without_key ditto_row (or_introl I)) as (Ht & _ & Hs).
  split; [exact (Ht eq_refl) | exact (Hs eq_refl)].
Defined.

(** C7, as stated, fails: there are [raw_data] values on which the accessors
    raise.  The first is stored by a successful fetch; the second is a JSON
    number, in which no key is present. *)
Lemma accessors_can_raise :
  let run := fetch_pokemon (world_answering (Ok (mkResponse 200 (Ok misshapen_payload))))
                           "squirtle" empty_store in
  (exists p : ORM.Instance,
      snd run = Ok (Some p, true, None) /\
      raw_data p = misshapen_payload /\
      types p = Raise (Py.key_error "type") /\
      abilities p = Raise (Py.key_error "is_hidden") /\
      hidden_abilities p = Raise (Py.key_error "is_hidden") /\
      base_stats p = Raise (Py.key_error "stat")) /\
  key_absent "types" (JInt 5) /\
  types (row_with (JInt 5))
    = Raise (mkExn TypeError "argument of type 'int' is not iterable").
Proof.
  split; [eexists; repeat split | split; [exact I | reflexivity]].
Qed.

(* ===================================================================== *)
(** ** The "ditto" example *)
(* ===================================================================== *)

(** C8, evaluated.  Resolving "ditto" against the provider of the example
    gives the entity with provider id 132, abilities ["limber"], no hidden
    ability and 4.0 kg; its height in meters is the binary64 product of 3 and
    0.1, which is 0.30000000000000004 and not the float 0.3, on the row as
    on the object returned. *)
Theorem ditto_example :
  snd (fetch_pokemon ditto_world "ditto" empty_store) = Ok (Some ditto_instance, true, None) /\
  ORM.row ditto_instance = ditto_row /\
  pokemon_id ditto_row = 132 /\
  height_in_meters ditto_row = Ok float_0_30000000000000004 /\
  PrimFloat.eqb float_0_30000000000000004 float_0_3 = false /\
  height_in_meters ditto_row <> Ok float_0_3 /\
  times_tenth (ORM.attr_height ditto_instance) = Ok float_0_30000000000000004 /\
  weight_in_kg ditto_row = Ok 4%float /\
  abilities ditto_row = Ok [JStr "limber"] /\
  hidden_abilities ditto_row = Ok [].
Proof.
  repeat split; try reflexivity.
  intros H.
  assert (E : forall f g : float, Ok f = Ok g -> PrimFloat.eqb f g = PrimFloat.eqb g g)
    by (intros f g [= ->]; reflexivity).
  apply E in H. vm_compute in H. discriminate H.
Qed.

(* ===================================================================== *)
(** ** The storage cannot change what a fetch returns or writes *)
(* ===================================================================== *)

Section AgreeRules.

Context {A B : Type}.

Lemma agree_ret (a : A) : agree (ret a) (ret a).
Proof. intros s s' H. split; [exact H | reflexivity]. Qed.

Lemma agree_raise (e : exn) : agree (@raise Store A e) (raise e).
Proof. intros s s' H. split; [exact H | reflexivity]. Qed.

Lemma agree_lift (r : result A) : agree (lift r) (lift r).
Proof. intros s s' H. split; [exact H | reflexivity]. Qed.

Lemma agree_bind (c c' : M Store A) (k k' : A -> M Store B) :
  agree c c' -> (forall a, agree (k a) (k' a)) -> agree (bind c k) (bind c' k').
Proof.
  intros Hc Hk s s' H. unfold bind. specialize (Hc s s' H).
  destruct (c s) as [s1 r], (c' s') as [s1' r']. cbn in Hc. destruct Hc as (H1 & <-).
  destruct r as [a | e]; [apply Hk; exact H1 | split; [exact H1 | reflexivity]].
Qed.

Lemma agree_try (c c' : M Store A) (h h' : exn -> M Store A) :
  agree c c' -> (forall e, agree (h e) (h' e)) -> agree (try_except c h) (try_except c' h').
Proof.
  intros Hc Hh s s' H. unfold try_except. specialize (Hc s s' H).
  destruct (c s) as [s1 r], (c' s') as [s1' r']. cbn in Hc. destruct Hc as (H1 & <-).
  destruct r as [a | e]; [split; [exact H1 | reflexivity] | apply Hh; exact H1].
Qed.

End AgreeRules.

Lemma agree_modify (f f' : Store -> Store) :
  (forall s s', tables_agree s s' -> tables_agree (f s) (f' s')) ->
  agree (modify f) (modify f').
Proof. intros Hf s s' H. split; [apply Hf; exact H | reflexivity]. Qed.

Lemma agree_gets_pokemons : agree (gets pokemons) (gets pokemons).
Proof. intros s s' H. split; [exact H | cbn; f_equal; apply H]. Qed.

Lemma agree_insert_row now id c : agree (ORM.insert_row now id c) (ORM.insert_row now id c).
Proof.
  intros s s' (Hp & Hn & Ha). unfold ORM.insert_row. rewrite <- Hp, <- Hn.
  repeat match goal with |- context [if ?b then _ else _] => destruct b end;
    cbn; repeat split; assumption.
Qed.

Lemma agree_update_row now old c : agree (ORM.update_row now old c) (ORM.update_row now old c).
Proof.
  intros s s' (Hp & Hn & Ha). unfold ORM.update_row. rewrite <- Hp.
  repeat match goal with |- context [if ?b then _ else _] => destruct b end;
    cbn; repeat split; assumption.
Qed.

Lemma agree_save w w' data nm :
  agree (_save_json_to_file w data nm) (_save_json_to_file w' data nm).
Proof.
  intros s s' (Hp & Hn & Ha).
  destruct (save_json_spec w data nm s) as (-> & (? & ? & ?) & _).
  destruct (save_json_spec w' data nm s') as (-> & (? & ? & ?) & _).
  repeat split; congruence.
Qed.

Ltac tables :=
  let H := fresh in
  intros ? ? H; destruct H as (? & ? & ?); repeat split; cbn; congruence.

Ltac agree_step :=
  lazymatch goal with
  | |- agree (bind _ _) (bind _ _) => apply agree_bind; [| intros ?]
  | |- agree (try_except _ _) (try_except _ _) => apply agree_try; [| intros ?]
  | |- agree (ret _) (ret _) => apply agree_ret
  | |- agree (raise _) (raise _) => apply agree_raise
  | |- agree (lift _) (lift _) => apply agree_lift
  | |- agree (gets pokemons) (gets pokemons) => apply agree_gets_pokemons
  | |- agree (modify _) (modify _) => apply agree_modify; tables
  | |- agree (emit _) (emit _) => apply agree_modify; tables
  | |- agree (logger_info _) (logger_info _) => apply agree_modify; tables
  | |- agree (logger_warning _) (logger_warning _) => apply agree_modify; tables
  | |- agree (logger_error _) (logger_error _) => apply agree_modify; tables
  | |- agree (ORM.insert_row _ _ _) (ORM.insert_row _ _ _) => apply agree_insert_row
  | |- agree (ORM.update_row _ _ _) (ORM.update_row _ _ _) => apply agree_update_row
  | |- agree (_save_json_to_file _ _ _) (_save_json_to_file _ _ _) => apply agree_save
  | |- agree (if ?b then _ else _) (if ?b then _ else _) => destruct b
  | |- agree (match ?x with _ => _ end) (match ?x with _ => _ end) => destruct x
  end.

Lemma agree_fetch_pokemon w f pokemon_name :
  agree (fetch_pokemon (with_storage w f) pokemon_name) (fetch_pokemon w pokemon_name).
Proof.
  unfold fetch_pokemon, session_get, response_json, _log_error, ORM.APIRequest_create,
    ORM.Pokemon_update_or_create, ORM.prepare_insert, ORM.prepare, ORM.convert, ORM.to_int,
    ORM.integer_field, ORM.char_field, py_str, lower.
  cbn [with_storage http_get clock py_int py_repr unicode].
  repeat agree_step.
Qed.

Lemma upsert_keeps_logger w v d s :
  post (ORM.Pokemon_update_or_create w v d) s (fun s1 _ => logger s1 = logger s).
Proof.
  unfold ORM.Pokemon_update_or_create.
  wp_all; cbn; auto.
  all: repeat match goal with |- context [if ?b then _ else _] => destruct b end; cbn; auto.
Qed.

(** Once the storage has refused the file, the record of it stays in the
    logger output to the end of the call. *)
Lemma failed_save_is_logged w f pokemon_name s response data v_id e :
  PyStr.encodable pokemon_name = true ->
  http_get w (url_of w pokemon_name) = Ok response ->
  status_code response = 200 ->
  json response = Ok data ->
  ORM.json_valid data = true ->
  Py.getitem data "id" = Ok v_id ->
  f (filename_of w pokemon_name v_id) = Some e ->
  In (ERROR, ("Failed to save JSON file: " ++ exc_str e)%str)
     (logger (fst (fetch_pokemon (with_storage w f) pokemon_name s))).
Proof.
  intros Henc Hget Hcode Hjson Hvalid Hid Hsave.
  rewrite <- (encodable_normalize w) in Henc. unfold normalize in Henc.
  unfold url_of in Hget. unfold filename_of in Hsave.
  change (post (fetch_pokemon (with_storage w f) pokemon_name) s
               (fun s1 _ => In (ERROR, ("Failed to save JSON file: " ++ exc_str e)%str)
                               (logger s1))).
  destruct response as [code body]. cbn in Hcode, Hjson. subst code body.
  unfold fetch_pokemon, session_get, response_json, _save_json_to_file, default_storage_save,
    py_str, lower in *.
  cbn [with_storage http_get clock py_int py_repr storage_save unicode].
  rewrite Hget.
  repeat first [ rewrite Hid | rewrite Hsave | rewrite Hvalid
               | progress cbn [Z.eqb Pos.eqb json status_code]
               | wp_step | wp_open ].
  all: try (eapply post_weaken; [apply upsert_keeps_logger | cbn beta; intros ? [[? ?] | ?] Hlog]).
  all: repeat (wp_step || wp_open).
  all: cbn [logger add_log add_effect add_api_request]; rewrite ?Hlog;
    cbn [logger add_log add_effect add_api_request].
  all: try congruence.
  all: rewrite ?in_app_iff; cbn [In]; tauto.
Qed.

(** C9.  Take any world and replace its media storage by any other, one that
    refuses every file included.  [fetch_pokemon] ends in the same way, with
    the same triple when it returns, and leaves the same Pokemon table and
    the same request log; and when the provider has answered 200 with a
    document, the request log has accepted the name and the document, and
    the storage raises on the file, the exception goes no further than an
    ERROR record of the logger. *)
Theorem storage_failure_is_harmless (w : World) (f : str -> option exn)
        (pokemon_name : str) (s : Store) :
  let run := fetch_pokemon w pokemon_name s in
  let run' := fetch_pokemon (with_storage w f) pokemon_name s in
  snd run' = snd run /\
  pokemons (fst run') = pokemons (fst run) /\
  next_pk (fst run') = next_pk (fst run) /\
  api_requests (fst run') = api_requests (fst run) /\
  (forall response data v_id e,
      PyStr.encodable pokemon_name = true ->
      http_get w (url_of w pokemon_name) = Ok response ->
      status_code response = 200 ->
      json response = Ok data ->
      ORM.json_valid data = true ->
      Py.getitem data "id" = Ok v_id ->
      f (filename_of w pokemon_name v_id) = Some e ->
      In (ERROR, ("Failed to save JSON file: " ++ exc_str e)%str) (logger (fst run'))).
Proof.
  intros run run'.
  destruct (agree_fetch_pokemon w f pokemon_name s s) as ((Hp & Hn & Ha) & Hr);
    [repeat split |].
  repeat (split; [assumption |]).
  intros response data v_id e. apply failed_save_is_logged.
Qed.

Lemma storage_failure_is_harmless_witness :
  let run' := fetch_pokemon (with_storage ditto_world disk_full) "ditto" empty_store in
  snd run' = Ok (Some ditto_instance, true, None) /\
  In (ERROR, "Failed to save JSON file: [Errno 28] No space left on device" : str)
     (logger (fst run')).
Proof.
  destruct (storage_failure_is_harmless ditto_world disk_full "ditto" empty_store)
    as (Hr & _ & _ & _ & Hlog).
  split.
  - rewrite Hr. reflexivity.
  - exact (Hlog (mkResponse 200 (Ok ditto_payload)) ditto_payload (JInt 132)
                (mkExn OSError "[Errno 28] No space left on device")
                eq_refl eq_refl eq_refl eq_refl eq_refl eq_refl eq_refl).
Defined.

(* ===================================================================== *)
(** ** Which name the table is asked for, and which the provider *)
(* ===================================================================== *)

(** [PokemonAPIView.get] starts by asking the table for the lowercased name,
    as given otherwise. *)
Lemma api_view_lookup_key w (pokemon_name : text) s :
  exists evs,
    effects (fst (PokemonAPIView_get w pokemon_name s))
      = effects s ++ EvPokemonGetByName (lower w pokemon_name) :: evs.
Proof.
  change (post (PokemonAPIView_get w pokemon_name) s
               (fun s1 _ => exists evs,
                    effects s1 = effects s
                                 ++ EvPokemonGetByName (lower w pokemon_name) :: evs)).
  pose proof (encodable_lower_text w pokemon_name) as Henc.
  unfold PokemonAPIView_get, ORM.Pokemon_get_by_name, no_attribute_None, not_iterable_None.
  repeat first
    [ wp_step | wp_open
    | lazymatch goal with
      | |- post (fetch_pokemon _ _) _ _ =>
          eapply post_weaken;
          [ apply fetch_pokemon_trace
          | cbn beta; intros ? [[[? ?] ?] | ?] (? & ? & _) ]
      end ].
  all: cbn [effects add_effect] in *.
  all: repeat match goal with
         | H : effects ?x = _ |- context [effects ?x] => rewrite H; clear H
         end.
  all: rewrite <- ?app_assoc; cbn [app]; eauto.
  all: exists []; reflexivity.
Qed.

(** C4, evaluated.  The provider is always asked for the trimmed, lowercased
    name.  The table, in [PokemonAPIView.get], is asked for the lowercased
    name without trimming: for " Ditto" the key is " ditto", the row "ditto"
    that the table holds is not found, and the provider is called. *)
Theorem api_view_lookup_is_not_trimmed :
  (forall w (pokemon_name : str) s, exists evs,
      effects (fst (fetch_pokemon w pokemon_name s))
        = effects s
          ++ EvHttpGet (BASE_URL ++ PyStr.strip (lower w pokemon_name) ++ "/")%str
             :: evs) /\
  (forall w (pokemon_name : text) s, exists evs,
      effects (fst (PokemonAPIView_get w pokemon_name s))
        = effects s ++ EvPokemonGetByName (lower w pokemon_name) :: evs) /\
  PyStr.strip (lower ditto_world " Ditto") = ("ditto" : str) /\
  map name (pokemons store_with_ditto) = ["ditto" : str] /\
  skipn (List.length (effects store_with_ditto))
        (effects (fst (PokemonAPIView_get ditto_world " Ditto" store_with_ditto)))
    = [EvPokemonGetByName " ditto";
       EvHttpGet "https://pokeapi.co/api/v2/pokemon/ditto/";
       EvRequestLogInsert;
       EvStorageSave "pokemon_data/ditto_132.json";
       EvPokemonUpsert].
Proof.
  split; [| split; [exact api_view_lookup_key | repeat split]].
  intros w pokemon_name s.
  destruct (fetch_pokemon_trace w pokemon_name s) as (evs & Hev & _).
  exists evs. exact Hev.
Qed.

(* ===================================================================== *)
(** ** The normal form of a name *)
(* ===================================================================== *)

Arguments low : simpl never.

(** A property of every code point below 256, decided by running through
    them. *)
Lemma below_256 (P : N -> bool) :
  forallb P (map N.of_nat (seq 0 256)) = true -> forall n, (n < 256)%N -> P n = true.
Proof.
  intros H n Hn. rewrite forallb_forall in H. apply H.
  apply in_map_iff. exists (N.to_nat n). split; [apply N2Nat.id | apply in_seq; lia].
Qed.

Lemma latin1_cons c s : PyStr.latin1 (c :: s) = is_latin1 c && PyStr.latin1 s.
Proof. reflexivity. Qed.

Lemma is_latin1_inv c :
  is_latin1 c = true -> exists n, c = Scalar n /\ (n < 256)%N.
Proof.
  unfold is_latin1. destruct c as [n | n]; cbn; [| discriminate].
  intros H%N.ltb_lt. eauto.
Qed.

Lemma low_latin1 c : is_latin1 c = true -> is_latin1 (low c) = true.
Proof.
  intros (n & -> & Hn)%is_latin1_inv. unfold low, is_latin1. cbn [PyStr.code_point PyStr.is_scalar andb].
  revert n Hn. apply (below_256 (fun n => (PyStr.lower_latin1 n <? 256)%N)).
  vm_compute. reflexivity.
Qed.

Lemma low_not_upper c : is_latin1 c = true -> is_upper (low c) = false.
Proof.
  intros (n & -> & Hn)%is_latin1_inv. unfold low. cbn [PyStr.code_point is_upper].
  apply negb_true_iff. revert n Hn.
  apply (below_256 (fun n => negb (PyStr.is_cased_upper (PyStr.lower_latin1 n)))).
  vm_compute. reflexivity.
Qed.

Lemma low_space c : is_latin1 c = true -> PyStr.is_space (low c) = PyStr.is_space c.
Proof.
  intros (n & -> & Hn)%is_latin1_inv. unfold low. cbn [PyStr.code_point].
  apply Bool.eqb_prop. revert n Hn.
  apply (below_256 (fun n => Bool.eqb (PyStr.is_space (Scalar (PyStr.lower_latin1 n)))
                                      (PyStr.is_space (Scalar n)))).
  vm_compute. reflexivity.
Qed.

Lemma low_fixed c : is_latin1 c = true -> is_upper c = false -> low c = c.
Proof.
  intros (n & -> & Hn)%is_latin1_inv. unfold low, PyStr.lower_latin1. cbn. intros ->.
  reflexivity.
Qed.

(** Below 256 [lower] works code point by code point. *)
Lemma lower_from_latin1 u before s :
  PyStr.latin1 s = true -> PyStr.lower_from u before s = map low s.
Proof.
  revert before. induction s as [| c s IH]; intros before; [reflexivity |].
  rewrite latin1_cons. intros [Hc Hs]%andb_true_iff.
  cbn [PyStr.lower_from map]. rewrite (IH _ Hs).
  apply is_latin1_inv in Hc as (n & -> & Hn%N.ltb_lt).
  unfold PyStr.lower_code. rewrite Hn. reflexivity.
Qed.

Lemma lower_latin1_map w s : PyStr.latin1 s = true -> lower w s = map low s.
Proof. apply lower_from_latin1. Qed.

Lemma latin1_map_low s : PyStr.latin1 s = true -> PyStr.latin1 (map low s) = true.
Proof.
  induction s as [| c s IH]; [reflexivity |].
  cbn [map]. rewrite !latin1_cons. intros [Hc Hs]%andb_true_iff.
  rewrite (low_latin1 c Hc), (IH Hs). reflexivity.
Qed.

Lemma no_upper_map_low s : PyStr.latin1 s = true -> no_upper (map low s) = true.
Proof.
  induction s as [| c s IH]; [reflexivity |].
  rewrite latin1_cons. intros [Hc Hs]%andb_true_iff.
  cbn [map no_upper forallb]. rewrite (low_not_upper c Hc). exact (IH Hs).
Qed.

Lemma map_low_fixed s : PyStr.latin1 s = true -> no_upper s = true -> map low s = s.
Proof.
  induction s as [| c s IH]; [reflexivity |].
  rewrite latin1_cons. intros [Hc Hs]%andb_true_iff. cbn.
  intros [Hu Hn]%andb_true_iff. apply negb_true_iff in Hu.
  rewrite (low_fixed c Hc Hu), (IH Hs Hn). reflexivity.
Qed.

Lemma lstrip_map_low s :
  PyStr.latin1 s = true -> PyStr.lstrip (map low s) = map low (PyStr.lstrip s).
Proof.
  induction s as [| c s IH]; [reflexivity |].
  rewrite latin1_cons. intros [Hc Hs]%andb_true_iff.
  cbn. rewrite (low_space c Hc). destruct (PyStr.is_space c); [exact (IH Hs) | reflexivity].
Qed.

Lemma rstrip_map_low s :
  PyStr.latin1 s = true -> PyStr.rstrip (map low s) = map low (PyStr.rstrip s).
Proof.
  induction s as [| c s IH]; [reflexivity |].
  rewrite latin1_cons. intros [Hc Hs]%andb_true_iff.
  cbn. rewrite (IH Hs), (low_space c Hc).
  destruct (PyStr.rstrip s); cbn; [destruct (PyStr.is_space c) |]; reflexivity.
Qed.

Lemma latin1_lstrip s : PyStr.latin1 s = true -> PyStr.latin1 (PyStr.lstrip s) = true.
Proof.
  induction s as [| c s IH]; [reflexivity |].
  intros H. cbn [PyStr.lstrip]. destruct (PyStr.is_space c); [| exact H].
  rewrite latin1_cons in H. apply andb_true_iff in H as [_ Hs]. exact (IH Hs).
Qed.

Lemma latin1_rstrip s : PyStr.latin1 s = true -> PyStr.latin1 (PyStr.rstrip s) = true.
Proof.
  induction s as [| c s IH]; [reflexivity |].
  rewrite latin1_cons. intros [Hc Hs]%andb_true_iff. cbn [PyStr.rstrip].
  specialize (IH Hs). destruct (PyStr.rstrip s) as [| d r].
  - destruct (PyStr.is_space c); [reflexivity |]. rewrite latin1_cons, Hc. reflexivity.
  - rewrite latin1_cons, Hc. exact IH.
Qed.

Lemma latin1_strip s : PyStr.latin1 s = true -> PyStr.latin1 (PyStr.strip s) = true.
Proof. intros H. apply latin1_rstrip, latin1_lstrip, H. Qed.

Lemma strip_map_low s :
  PyStr.latin1 s = true -> PyStr.strip (map low s) = map low (PyStr.strip s).
Proof.
  intros H. unfold PyStr.strip.
  rewrite (lstrip_map_low s H). apply rstrip_map_low, latin1_lstrip, H.
Qed.

Lemma lstrip_clean s : starts_with_space (PyStr.lstrip s) = false.
Proof.
  induction s as [| c s IH]; [reflexivity |].
  cbn. destruct (PyStr.is_space c) eqn:E; [exact IH | cbn; exact E].
Qed.

Lemma lstrip_fixed s : starts_with_space s = false -> PyStr.lstrip s = s.
Proof. destruct s as [| c s]; [reflexivity |]. cbn. intros ->. reflexivity. Qed.

Lemma rstrip_clean s : ends_with_space (PyStr.rstrip s) = false.
Proof.
  induction s as [| c s IH]; [reflexivity |].
  cbn [PyStr.rstrip]. destruct (PyStr.rstrip s) as [| d r] eqn:E.
  - destruct (PyStr.is_space c) eqn:Ec; [reflexivity | cbn; exact Ec].
  - exact IH.
Qed.

Lemma rstrip_fixed s : ends_with_space s = false -> PyStr.rstrip s = s.
Proof.
  induction s as [| c s IH]; [reflexivity |].
  destruct s as [| d s'].
  - cbn. intros ->. reflexivity.
  - intros H. change (ends_with_space (d :: s') = false) in H.
    cbn [PyStr.rstrip]. cbn [PyStr.rstrip] in IH. rewrite (IH H). reflexivity.
Qed.

Lemma rstrip_keeps_start s :
  starts_with_space s = false -> starts_with_space (PyStr.rstrip s) = false.
Proof.
  destruct s as [| c s]; [reflexivity |].
  cbn. intros Hc. destruct (PyStr.rstrip s); [rewrite Hc |]; cbn; rewrite ?Hc; reflexivity.
Qed.

Lemma strip_clean s :
  starts_with_space (PyStr.strip s) = false /\ ends_with_space (PyStr.strip s) = false.
Proof.
  unfold PyStr.strip. split; [apply rstrip_keeps_start, lstrip_clean | apply rstrip_clean].
Qed.

Lemma strip_fixed s :
  starts_with_space s = false -> ends_with_space s = false -> PyStr.strip s = s.
Proof.
  intros H1 H2. unfold PyStr.strip. rewrite (lstrip_fixed _ H1). apply rstrip_fixed, H2.
Qed.

Lemma strip_idempotent s : PyStr.strip (PyStr.strip s) = PyStr.strip s.
Proof. apply strip_fixed; apply strip_clean. Qed.

Lemma length_lstrip s : (List.length (PyStr.lstrip s) <= List.length s)%nat.
Proof. induction s as [| c s IH]; cbn; [lia |]. destruct (PyStr.is_space c); cbn; lia. Qed.

Lemma length_rstrip s : (List.length (PyStr.rstrip s) <= List.length s)%nat.
Proof.
  induction s as [| c s IH]; cbn; [lia |].
  destruct (PyStr.rstrip s); [destruct (PyStr.is_space c) |]; cbn in *; lia.
Qed.

Lemma normalize_latin1 w n :
  PyStr.latin1 n = true -> normalize w n = map low (PyStr.strip n).
Proof.
  intros H. unfold normalize. rewrite (lower_latin1_map w n H). apply strip_map_low, H.
Qed.

Lemma normalize_idempotent w n :
  PyStr.latin1 n = true -> normalize w (normalize w n) = normalize w n.
Proof.
  intros H. pose proof (latin1_strip n H) as Hs.
  rewrite (normalize_latin1 w n H).
  rewrite (normalize_latin1 w _ (latin1_map_low _ Hs)).
  rewrite <- (strip_map_low _ H), strip_idempotent, (strip_map_low _ H).
  apply map_low_fixed; [apply latin1_map_low, Hs | apply no_upper_map_low, Hs].
Qed.

(** X1.  The name [fetch_pokemon] works with has no whitespace at either
    end.  For a name of code points below 256 it is a normal form: it is of
    such code points too, lowercasing and trimming it again changes nothing,
    it has no uppercase letter, it is no longer than the argument, and the
    call on the normal form is the call on the argument. *)
Theorem fetch_pokemon_normal_form (w : World) (pokemon_name : str) :
  starts_with_space (normalize w pokemon_name) = false /\
  ends_with_space (normalize w pokemon_name) = false /\
  (PyStr.latin1 pokemon_name = true ->
   PyStr.latin1 (normalize w pokemon_name) = true /\
   normalize w (normalize w pokemon_name) = normalize w pokemon_name /\
   no_upper (normalize w pokemon_name) = true /\
   (List.length (normalize w pokemon_name) <= List.length pokemon_name)%nat /\
   fetch_pokemon w (normalize w pokemon_name) = fetch_pokemon w pokemon_name).
Proof.
  split; [apply strip_clean |]. split; [apply strip_clean |].
  intros H. pose proof (latin1_strip _ H) as Hs.
  split; [rewrite (normalize_latin1 w _ H); apply latin1_map_low, Hs |].
  split; [apply normalize_idempotent, H |].
  split; [rewrite (normalize_latin1 w _ H); apply no_upper_map_low, Hs |].
  split.
  - rewrite (normalize_latin1 w _ H), length_map. unfold PyStr.strip.
    pose proof (length_rstrip (PyStr.lstrip pokemon_name)).
    pose proof (length_lstrip pokemon_name). lia.
  - unfold fetch_pokemon. fold (normalize w pokemon_name).
    fold (normalize w (normalize w pokemon_name)).
    rewrite (normalize_idempotent w _ H). reflexivity.
Qed.

(** Beyond 255 the lowercase of a name can be longer than the name. *)
Example dotted_capital_i_grows :
  List.length (normalize dotted_world [Scalar 304]) = 2%nat.
Proof. reflexivity. Qed.

(* ===================================================================== *)
(** ** The outcome of a fetch and the request log *)
(* ===================================================================== *)

Lemma literal_append_nonempty (a : string) (b : str) :
  a <> ""%string -> ((a : str) ++ b)%str <> [].
Proof. destruct a; [contradiction | discriminate]. Qed.

Lemma fetch_pokemon_last_row w pokemon_name s :
  PyStr.encodable pokemon_name = true ->
  post (fetch_pokemon w pokemon_name) s
       (fun s1 r =>
          exists reqs last,
            api_requests s1 = api_requests s ++ reqs ++ [last] /\
            Forall (logged_for (normalize w pokemon_name)) (reqs ++ [last]) /\
            ((exists p, r = Ok (Some p, true, None) /\
                        reqs = [] /\ success last = true /\
                        error_message last = [] /\
                        http_status_code last = Some 200) \/
             (exists msg, r = Ok (None, false, Some msg) /\
                          success last = false /\
                          error_message last <> [] /\
                          response_data last = None))).
Proof.
  intros H. rewrite <- (encodable_normalize w) in H. unfold normalize in H.
  unfold fetch_pokemon. fold (normalize w pokemon_name) in *.
  wp_fetch; try congruence.
  all: cbn [pokemons next_pk api_requests add_effect add_log add_api_request fst snd] in *.
  all: repeat match goal with
         | H : api_requests ?x = _ |- context [api_requests ?x] => rewrite H; clear H
         end.
  all: lazymatch goal with
       | |- exists reqs last, (?l ++ [?r1]) ++ [?r2] = _ /\ _ =>
           exists [r1], r2; split; [rewrite <- app_assoc; reflexivity |]
       | |- exists reqs last, ?l ++ [?r1] = _ /\ _ =>
           exists [], r1; split; [reflexivity |]
       end.
  all: split; [repeat constructor |].
  all: first
         [ solve [left; eexists; apply Z.eqb_eq in Heqb; cbn; rewrite Heqb; repeat split]
         | right; eexists; split; [reflexivity |];
           split; [reflexivity |];
           split; [cbn [error_message]; apply literal_append_nonempty; discriminate |];
           reflexivity ].
Qed.

(** X2.  A call with a name that UTF-8 cannot encode raises and leaves the
    request log as it was.  After any other call the last row of the
    request log tells the outcome: every row the call appends carries the
    normalised name; the last one has the success flag the call returns, an
    empty error message exactly on success, status 200 on success (and then
    it is the only row), and no body on failure. *)
Theorem log_agrees_with_outcome (w : World) (pokemon_name : str) (s : Store) :
  let run := fetch_pokemon w pokemon_name s in
  (PyStr.encodable pokemon_name = false ->
   snd run = Raise (ORM.unicode_encode_error (normalize w pokemon_name)) /\
   api_requests (fst run) = api_requests s) /\
  (PyStr.encodable pokemon_name = true ->
   exists reqs last entity ok msg,
     api_requests (fst run) = api_requests s ++ reqs ++ [last] /\
     Forall (logged_for (normalize w pokemon_name)) (reqs ++ [last]) /\
     snd run = Ok (entity, ok, msg) /\
     success last = ok /\
     (error_message last = [] <-> ok = true) /\
     (ok = true -> http_status_code last = Some 200 /\ reqs = []) /\
     (ok = false -> response_data last = None)).
Proof.
  intros run. split; intros Henc.
  - destruct (fetch_pokemon_raises w pokemon_name s Henc) as (Hr & _ & _ & Hlog).
    split; assumption.
  - destruct (fetch_pokemon_last_row w pokemon_name s Henc)
      as (reqs & last & Hlog & Hnames & [(p & Hr & Hreqs & Hs & Hm & Hc) |
                                          (msg & Hr & Hs & Hm & Hd)]).
    + exists reqs, last, (Some p), true, None. fold run in Hr, Hlog.
      split; [exact Hlog |]. split; [exact Hnames |]. split; [exact Hr |].
      split; [exact Hs |]. split; [tauto |]. split; [auto | intros [=]].
    + exists reqs, last, None, false, (Some msg). fold run in Hr, Hlog.
      split; [exact Hlog |]. split; [exact Hnames |]. split; [exact Hr |].
      split; [exact Hs |]. split; [split; [contradiction | intros [=]] |].
      split; [intros [=] | auto].
Qed.

(** X3.  A fetch that reports a failure has not touched the Pokemon table. *)
Theorem failed_fetch_leaves_table (w : World) (pokemon_name : str) (s : Store)
        (entity : option ORM.Instance) (msg : option str) :
  snd (fetch_pokemon w pokemon_name s) = Ok (entity, false, msg) ->
  pokemons (fst (fetch_pokemon w pokemon_name s)) = pokemons s /\
  next_pk (fst (fetch_pokemon w pokemon_name s)) = next_pk s.
Proof.
  intros Hr.
  destruct (fetch_pokemon_outcome w pokemon_name s) as [(p & Hr' & _) | (_ & Hp & Hn)].
  - rewrite Hr in Hr'. discriminate.
  - split; assumption.
Qed.

Lemma renumbered_ditto_fails :
  snd (fetch_pokemon renumbering_world "ditto" store_with_ditto)
    = Ok (None, false,
          Some ("Unexpected error: UNIQUE constraint failed: pokemon_api_pokemon.name" : str)).
Proof. vm_compute. reflexivity. Qed.

Lemma failed_fetch_leaves_table_witness :
  pokemons (fst (fetch_pokemon renumbering_world "ditto" store_with_ditto))
    = pokemons store_with_ditto.
Proof.
  exact (proj1 (failed_fetch_leaves_table renumbering_world "ditto" store_with_ditto
                  None _ renumbered_ditto_fails)).
Defined.

(* ===================================================================== *)
(** ** The search view *)
(* ===================================================================== *)

(** The name of the object [update_or_create] returns prints as the name of
    its row. *)
Lemma upsert_name w v d s :
  post (ORM.Pokemon_update_or_create w v d) s
       (fun s1 r =>
          match r with
          | Ok (p, _) => In (ORM.row p) (pokemons s1) /\ py_str w (ORM.attr_name p) = name p
          | Raise _ => pokemons s1 = pokemons s /\ next_pk s1 = next_pk s
          end).
Proof.
  pose proof (upsert_outcome w v d s) as Ho. unfold post in Ho |- *.
  destruct Ho as (_ & Ho).
  destruct (snd (ORM.Pokemon_update_or_create w v d s)) as [[p created] | e] eqn:Hr;
    [| exact Ho].
  split; [exact Ho |].
  revert Hr. unfold ORM.Pokemon_update_or_create, bind, emit, modify, gets, lift, ret, raise.
  cbn [fst snd].
  destruct (ORM.to_int w "pokemon_id" v) as [converted_id |]; cbn [fst snd]; [| discriminate].
  destruct (ORM.rows_with_id converted_id _) as [| old [| other rest]];
    cbn [fst snd]; [| | discriminate].
  - destruct (ORM.prepare_insert w converted_id d) as [[id c] |] eqn:Hprep;
      cbn [fst snd]; [| discriminate].
    apply prepare_insert_ok in Hprep as (_ & (Hchar & _)%prepare_ok).
    unfold ORM.insert_row.
    repeat match goal with |- context [if ?b then _ else _] => destruct b end;
      cbn [fst snd]; try discriminate.
    intros [= <- _]. cbn [ORM.instance_of ORM.attr_name ORM.row name].
    destruct (ORM.d_name d); cbn in Hchar; try discriminate; injection Hchar as <-;
      reflexivity.
  - destruct (ORM.prepare w d) as [c |] eqn:Hprep; cbn [fst snd]; [| discriminate].
    apply prepare_ok in Hprep as (Hchar & _).
    unfold ORM.update_row.
    repeat match goal with |- context [if ?b then _ else _] => destruct b end;
      cbn [fst snd]; try discriminate.
    intros [= <- _]. cbn [ORM.instance_of ORM.attr_name ORM.row name].
    destruct (ORM.d_name d); cbn in Hchar; try discriminate; injection Hchar as <-;
      reflexivity.
Qed.

(** The three ways a call ends, with the name a success prints. *)
Lemma fetch_pokemon_printed_name w pokemon_name s :
  post (fetch_pokemon w pokemon_name) s
       (fun s1 r =>
          forall p : ORM.Instance,
            r = Ok (Some p, true, None) -> py_str w (ORM.attr_name p) = name p).
Proof.
  unfold fetch_pokemon.
  repeat first
    [ wp_step | wp_open
    | lazymatch goal with
      | |- post (_save_json_to_file _ _ _) _ _ =>
          eapply post_weaken;
          [ apply save_json_spec | cbn beta; intros ? ? (-> & _) ]
      | |- post (ORM.Pokemon_update_or_create _ _ _) _ _ =>
          eapply post_weaken;
          [ apply upsert_name | cbn beta; intros ? [[? ?] | ?] [? ?] ]
      end ].
  all: intros p' [=]; subst; cbn [fst]; assumption.
Qed.

(** X7.  [form_valid] never raises; it redirects to the detail page of a row that
    is in the table when the fetch succeeded, and back to the search page with
    the error otherwise. *)
Theorem form_valid_redirects (w : World) (pokemon_name : text) (s : Store) :
  let run := fetch_pokemon w pokemon_name s in
  exists redirect,
    PokemonSearchView_form_valid w pokemon_name s = (fst run, Ok redirect) /\
    ((exists p : ORM.Instance,
         snd run = Ok (Some p, true, None) /\
         In (ORM.row p) (pokemons (fst run)) /\
         redirect = mkRedirect (MsgSuccess,
                                ("Successfully fetched data for " ++ name p ++ "!")%str)
                               (RouteDetail (pk p))) \/
     (exists msg, snd run = Ok (None, false, Some msg) /\
                  pokemons (fst run) = pokemons s /\
                  redirect = mkRedirect (MsgError, ("Error: " ++ msg)%str) RouteSearch)).
Proof.
  intros run.
  pose proof (fetch_pokemon_outcome w pokemon_name s) as H. unfold post in H.
  pose proof (fetch_pokemon_returns w pokemon_name s (encodable_text pokemon_name)) as Hret.
  unfold post in Hret.
  pose proof (fetch_pokemon_printed_name w pokemon_name s) as Hname. unfold post in Hname.
  unfold PokemonSearchView_form_valid, bind. fold run in H, Hret, Hname |- *.
  destruct run as [s1 r]. cbn [fst snd] in *.
  destruct H as [(p & -> & Hin) | ([(msg & ->) | ->] & Hp & _)]; cbn.
  - eexists. split; [reflexivity |]. left. exists p.
    split; [reflexivity | split; [assumption |]].
    rewrite (Hname p eq_refl). reflexivity.
  - eexists. split; [reflexivity |]. right. exists msg.
    split; [reflexivity | split; [assumption | reflexivity]].
  - destruct Hret as (t & [=] & _).
Qed.

(* ===================================================================== *)
(** ** The download view and the JSON API after a fetch *)
(* ===================================================================== *)

Lemma filter_unique {A K} (f : A -> K) (eqb : K -> K -> bool) (l : list A) (x : A) :
  (forall a b, eqb a b = true <-> a = b) ->
  NoDup (map f l) -> In x l -> filter (fun y => eqb (f y) (f x)) l = [x].
Proof.
  intros Heqb Hnd Hin.
  destruct (in_split _ _ Hin) as (l1 & l2 & ->).
  assert (Hother : forall q, In q (l1 ++ l2) -> eqb (f q) (f x) = false).
  { intros q Hq. destruct (eqb (f q) (f x)) eqn:E; [| reflexivity].
    apply Heqb in E. exfalso. exact (NoDup_split_fresh _ _ _ _ Hnd q Hq E). }
  rewrite filter_app. cbn. rewrite (proj2 (Heqb (f x) (f x)) eq_refl).
  rewrite !filter_none; [reflexivity | |]; intros q Hq; apply Hother, in_or_app; auto.
Qed.

Lemma unique_pk_filter rows p :
  NoDup (map pk rows) -> In p rows -> filter (ORM.has_pk (pk p)) rows = [p].
Proof. apply (filter_unique pk Z.eqb). apply Z.eqb_eq. Qed.

Lemma unique_name_filter rows p :
  NoDup (map name rows) -> In p rows -> filter (ORM.has_name (name p)) rows = [p].
Proof. apply (filter_unique name PyStr.eqb). apply str_eqb_eq. Qed.

Lemma unique_name_filter_any rows key :
  NoDup (map name rows) ->
  filter (ORM.has_name key) rows = [] \/ exists p, filter (ORM.has_name key) rows = [p].
Proof.
  intros Hnd. destruct (filter (ORM.has_name key) rows) as [| p rest] eqn:E; [auto |].
  right. exists p.
  assert (Hp : In p (filter (ORM.has_name key) rows)) by (rewrite E; left; reflexivity).
  apply filter_In in Hp as (Hin & Hk). apply has_name_true in Hk. subst key.
  rewrite (unique_name_filter rows p Hnd Hin) in E. congruence.
Qed.

(** The row a successful fetch returns holds the provider's document. *)
Lemma fetched_row w pokemon_name s s1 (p : ORM.Instance) :
  well_formed s ->
  fetch_pokemon w pokemon_name s = (s1, Ok (Some p, true, None)) ->
  well_formed s1 /\ In (ORM.row p) (pokemons s1) /\
  PyStr.encodable (name p) = true /\
  exists response data,
    http_get w (url_of w pokemon_name) = Ok response /\
    json response = Ok data /\
    raw_data p = data.
Proof.
  intros Hwf Hrun.
  pose proof (fetch_pokemon_success w pokemon_name s Hwf) as H.
  unfold post in H. rewrite Hrun in H. cbn [fst snd] in H.
  destruct H as (Hwf1 & H). split; [exact Hwf1 |].
  destruct (H p eq_refl)
    as (response & data & v_id & v_name & v_h & v_w & v_e & created & Hget & _ & Hjson &
        _ & _ & _ & _ & _ & _ & s0 & _ & _ & id & c & _ & Hprep & Hst & _ & Hone & _).
  apply prepare_ok in Hprep as (_ & Henc & Hcr & _). cbn in Hcr.
  destruct Hst as (_ & Hn & _ & _ & _ & Hraw).
  split; [| split; [rewrite Hn; exact Henc |]].
  - assert (Hin : In (ORM.row p) (filter (ORM.has_id id) (pokemons s1)))
      by (rewrite Hone; left; reflexivity).
    apply filter_In in Hin. tauto.
  - exists response, data. repeat (split; [assumption |]). congruence.
Qed.

Lemma has_newline_append (a b : str) :
  PyStr.has_newline (a ++ b)%str = PyStr.has_newline a || PyStr.has_newline b.
Proof. apply existsb_app. Qed.

Lemma latin1_append (a b : str) :
  PyStr.latin1 (a ++ b)%str = PyStr.latin1 a && PyStr.latin1 b.
Proof. apply forallb_app. Qed.

Lemma disposition_newline p : PyStr.has_newline (disposition_of p) = PyStr.has_newline (name p).
Proof.
  unfold disposition_of. rewrite !has_newline_append.
  change (PyStr.has_newline "attachment; filename=") with false.
  change (PyStr.has_newline double_quote) with false.
  change (PyStr.has_newline "_data.json") with false.
  cbn [orb]. rewrite !orb_false_r. reflexivity.
Qed.

Lemma disposition_latin1 p : PyStr.latin1 (disposition_of p) = PyStr.latin1 (name p).
Proof.
  unfold disposition_of. rewrite !latin1_append.
  change (PyStr.latin1 "attachment; filename=") with true.
  change (PyStr.latin1 double_quote) with true.
  change (PyStr.latin1 "_data.json") with true.
  cbn [andb]. rewrite !andb_true_r. reflexivity.
Qed.

(** X8.  Fetch, then download by the primary key of the row: when the
    response takes the header, the file served is the provider's document,
    named after the stored name.  A stored name with a line break is refused
    as a header value, and the download raises; a stored name of code points
    below 256 without a line break is in the header as it is. *)
Theorem download_serves_provider_document (w w' : World) (pokemon_name : str)
        (s s1 : Store) (p : ORM.Instance) :
  well_formed s ->
  fetch_pokemon w pokemon_name s = (s1, Ok (Some p, true, None)) ->
  exists response data,
    http_get w (url_of w pokemon_name) = Ok response /\
    json response = Ok data /\
    DownloadJSONView_get w' (pk p) s1
      = (s1, match header_value w' (disposition_of p) with
             | Ok disposition =>
                 Ok (Some (mkHttpResponse data "application/json" disposition))
             | Raise e => Raise e
             end) /\
    (PyStr.has_newline (name p) = true ->
     exists e, header_value w' (disposition_of p) = Raise e /\
               exc_class e = BadHeaderError) /\
    (PyStr.has_newline (name p) = false -> PyStr.latin1 (name p) = true ->
     header_value w' (disposition_of p) = Ok (disposition_of p)).
Proof.
  intros Hwf Hrun.
  destruct (fetched_row w pokemon_name s s1 p Hwf Hrun)
    as (Hwf1 & Hin & _ & response & data & Hget & Hjson & Hraw).
  exists response, data. repeat (split; [assumption |]).
  split; [| split].
  - unfold DownloadJSONView_get, bind, gets, lift. cbn [fst snd].
    rewrite (unique_pk_filter _ _ (wf_pk _ Hwf1) Hin).
    fold (disposition_of p).
    destruct (header_value w' (disposition_of p)); [rewrite Hraw |]; reflexivity.
  - intros Hnl. unfold header_value. rewrite disposition_newline, Hnl. eauto.
  - intros Hnl Hl1. unfold header_value.
    rewrite disposition_newline, Hnl, disposition_latin1, Hl1. reflexivity.
Qed.

Lemma download_serves_provider_document_witness :
  snd (DownloadJSONView_get ditto_world 1 store_with_ditto)
    = Ok (Some (mkHttpResponse ditto_payload "application/json"
                  ("attachment; filename=" ++ double_quote ++ "ditto_data.json"
                   ++ double_quote)%str)).
Proof.
  destruct (download_serves_provider_document ditto_world ditto_world "ditto" empty_store
              store_with_ditto ditto_instance empty_store_well_formed ditto_fetched)
    as (response & data & Hget & Hjson & Hdl & _).
  cbn in Hget. injection Hget as <-. cbn in Hjson. injection Hjson as <-.
  change (pk ditto_instance) with 1 in Hdl. rewrite Hdl. reflexivity.
Defined.

(** A name of two lines: the fetch stores it, the download of the row
    raises. *)
Example two_line_name_download :
  let run := fetch_pokemon two_line_world "d" empty_store in
  map name (pokemons (fst run)) = [[Scalar 100; Scalar 10; Scalar 105]] /\
  map pk (pokemons (fst run)) = [1] /\
  snd (DownloadJSONView_get two_line_world 1 (fst run))
    = Raise (mkExn BadHeaderError "Header values can't contain newlines (got ...)").
Proof. repeat split. Qed.

(** X9.  Fetch, then ask the JSON API for the stored name in any casing: the
    answer comes from the table, without a call to the provider and without
    a row in the request log. *)
Theorem api_view_serves_fetched_row (w w' : World) (pokemon_name : str) (query : text)
        (s s1 : Store) (p : ORM.Instance) :
  well_formed s ->
  fetch_pokemon w pokemon_name s = (s1, Ok (Some p, true, None)) ->
  lower w' query = name p ->
  PokemonAPIView_get w' query s1
    = (add_effect (EvPokemonGetByName (name p)) s1,
       match pokemon_data p with
       | Ok data => Ok (mkJsonResponse (BodySuccess data) 200)
       | Raise e => Raise e
       end).
Proof.
  intros Hwf Hrun Hq.
  destruct (fetched_row w pokemon_name s s1 p Hwf Hrun) as (Hwf1 & Hin & Henc & _).
  unfold PokemonAPIView_get, try_except, bind, ORM.Pokemon_get_by_name, emit, modify, gets,
    lift.
  rewrite Hq, (bind_text_ok _ Henc). cbn.
  rewrite (unique_name_filter _ _ (wf_name _ Hwf1) Hin). cbn.
  destruct (pokemon_data p) as [d | e] eqn:E; [reflexivity |].
  rewrite (builtin_not_DoesNotExist e (pokemon_data_builtin p e E)). reflexivity.
Qed.

Lemma api_view_serves_fetched_row_witness :
  snd (PokemonAPIView_get (world_answering (Raise (mkExn ConnectionError "down")))
                          "DITTO" store_with_ditto)
    = match pokemon_data ditto_row with
      | Ok data => Ok (mkJsonResponse (BodySuccess data) 200)
      | Raise e => Raise e
      end.
Proof.
  rewrite (api_view_serves_fetched_row ditto_world
             (world_answering (Raise (mkExn ConnectionError "down")))
             "ditto" "DITTO" empty_store store_with_ditto ditto_instance
             empty_store_well_formed ditto_fetched eq_refl).
  reflexivity.
Defined.

(* ===================================================================== *)
(** ** Rows are never deleted *)
(* ===================================================================== *)

(** X4.  A fetch never deletes: every row is still there afterwards, untouched
    unless it is the one row the fetch returns, which keeps its primary key,
    provider id and creation time; and at most one row is new. *)
Theorem fetch_pokemon_keeps_rows (w : World) (pokemon_name : str) (s : Store) :
  well_formed s ->
  let run := fetch_pokemon w pokemon_name s in
  well_formed (fst run) /\
  (forall q, In q (pokemons s) ->
             In q (pokemons (fst run)) \/
             exists p : ORM.Instance,
               snd run = Ok (Some p, true, None) /\
               In (ORM.row p) (pokemons (fst run)) /\ continues q p) /\
  (forall q', In q' (pokemons (fst run)) ->
              In q' (pokemons s) \/
              exists p : ORM.Instance, snd run = Ok (Some p, true, None) /\ ORM.row p = q') /\
  (List.length (pokemons s) <= List.length (pokemons (fst run))
   <= List.length (pokemons s) + 1)%nat.
Proof.
  intros Hwf run.
  pose proof (fetch_pokemon_outcome w pokemon_name s) as Ho. unfold post in Ho.
  pose proof (fetch_pokemon_upsert w pokemon_name s) as Hu.
  pose proof (fetch_pokemon_well_formed w pokemon_name s Hwf) as Hwf1.
  fold run in Ho, Hwf1.
  assert (Hrun : fetch_pokemon w pokemon_name s = (fst run, snd run))
    by apply surjective_pairing.
  destruct run as [s1 r]. cbn [fst snd] in *.
  split; [exact Hwf1 |].
  destruct Ho as [(p & -> & _) | (_ & Hp & _)].
  - destruct (Hu s1 p Hwf Hrun)
      as (_ & id & c & _ & Hst & _ & Hone &
          [(_ & Hrows & _) | (old & l1 & l2 & Hrows & Hrows1 & Hold & Hpk & Hcr)]).
    + rewrite Hrows. split; [| split].
      * intros q Hq. left. apply in_or_app. auto.
      * intros q' [Hq | [<- | []]]%in_app_or; eauto.
      * rewrite length_app. cbn. lia.
    + rewrite Hrows, Hrows1.
      split; [| split].
      * intros q [Hq | [<- | Hq]]%in_app_or.
        -- left. apply in_or_app. auto.
        -- right. exists p. split; [reflexivity |]. split; [apply in_elt |].
           destruct Hst as (Hid & _). repeat split; congruence.
        -- left. apply in_or_app. right. right. exact Hq.
      * intros q' [Hq | [<- | Hq]]%in_app_or; eauto.
        -- left. apply in_or_app. auto.
        -- left. apply in_or_app. right. right. exact Hq.
      * rewrite !length_app. cbn. lia.
  - rewrite Hp. split; [auto | split; [auto | lia]].
Qed.

Lemma ditto_fetched_again_rows :
  List.length (pokemons store_with_ditto) = 1%nat /\
  (List.length (pokemons (fst (fetch_pokemon ditto_world "ditto" store_with_ditto))) <= 1)%nat.
Proof. vm_compute. split; [reflexivity | apply le_n]. Qed.

Lemma fetch_pokemon_keeps_rows_witness :
  List.length (pokemons (fst (fetch_pokemon ditto_world "ditto" store_with_ditto))) = 1%nat.
Proof.
  destruct (fetch_pokemon_keeps_rows ditto_world "ditto" store_with_ditto)
    as (_ & _ & _ & Hlen).
  - apply (fetch_pokemon_well_formed ditto_world "ditto" empty_store empty_store_well_formed).
  - destruct ditto_fetched_again_rows as (H1 & H2). rewrite H1 in Hlen. lia.
Defined.

(* ===================================================================== *)
(** ** What the views leave *)
(* ===================================================================== *)

Lemma form_valid_store w (n : text) s :
  fst (PokemonSearchView_form_valid w n s) = fst (fetch_pokemon w n s).
Proof.
  pose proof (fetch_pokemon_returns w n s (encodable_text n)) as H. unfold post in H.
  unfold PokemonSearchView_form_valid, bind.
  destruct (fetch_pokemon w n s) as [s1 r]. cbn [fst snd] in *.
  destruct H as (t & -> & [(p & ->) | (msg & ->)]); reflexivity.
Qed.

(** What [PokemonAPIView.get] ends in, on a table that satisfies its
    constraints: an answer from the row of the name, an answer from the
    object a fetch has returned, or the failure of the fetch; an exception
    comes from reading the derived fields of the one or of the other. *)
Lemma api_view_cases w (n : text) s :
  well_formed s ->
  let s' := add_effect (EvPokemonGetByName (lower w n)) s in
  post (PokemonAPIView_get w n) s
       (fun s1 r =>
          well_formed s1 /\
          ((exists p, filter (ORM.has_name (lower w n)) (pokemons s) = [p] /\
                      s1 = s' /\
                      r = match pokemon_data p with
                          | Ok data => Ok (mkJsonResponse (BodySuccess data) 200)
                          | Raise e => Raise e
                          end /\
                      raises_builtin (pokemon_data p)) \/
           (filter (ORM.has_name (lower w n)) (pokemons s) = [] /\
            s1 = fst (fetch_pokemon w n s') /\
            ((exists p : ORM.Instance,
                 snd (fetch_pokemon w n s') = Ok (Some p, true, None) /\
                 In (ORM.row p) (pokemons s1) /\
                 r = match instance_data p with
                     | Ok data => Ok (mkJsonResponse (BodySuccess data) 200)
                     | Raise e => Raise e
                     end /\
                 raises_builtin (instance_data p)) \/
             (exists msg,
                 snd (fetch_pokemon w n s') = Ok (None, false, Some msg) /\
                 pokemons s1 = pokemons s /\
                 r = Ok (mkJsonResponse
                           (BodyFailure msg)
                           (if PyStr.contains "not found" msg then 404 else 500))))))).
Proof.
  intros Hwf s'.
  unfold post, PokemonAPIView_get, ORM.Pokemon_get_by_name, try_except, bind, emit, modify,
    gets, lift.
  rewrite (bind_text_ok _ (encodable_lower_text w n)).
  cbn [fst snd pokemons add_effect]. fold s'.
  assert (Hwf' : well_formed s') by (apply well_formed_same with s; auto).
  destruct (unique_name_filter_any (pokemons s) (lower w n) (wf_name _ Hwf))
    as [E | (p & E)]; rewrite E; cbn [raise ret isinstance_DoesNotExist exc_class].
  - pose proof (fetch_pokemon_well_formed w n s' Hwf') as Hwf1.
    pose proof (fetch_pokemon_outcome w n s') as Ho.
    pose proof (fetch_pokemon_returns w n s' (encodable_text n)) as Hret.
    unfold post in Ho, Hret.
    destruct (fetch_pokemon w n s') as [s1 r]. cbn [fst snd] in *.
    destruct Hret as (t & -> & _).
    destruct Ho as [(p & [= ->] & Hin) | ([(msg & [= ->]) | [=]] & Hp & _)].
    + destruct (instance_data p) as [d | e] eqn:Ed; cbn [fst snd].
      * split; [exact Hwf1 |]. right. split; [reflexivity |]. split; [reflexivity |].
        left. exists p. rewrite Ed. repeat split; auto. unfold raises_builtin. intros e' He'; discriminate He'.
      * split; [exact Hwf1 |]. right. split; [reflexivity |]. split; [reflexivity |].
        left. exists p. rewrite Ed. repeat split; auto.
        unfold raises_builtin. intros e' [= <-]. exact (instance_data_builtin p e Ed).
    + cbn [fst snd]. split; [exact Hwf1 |]. right. split; [reflexivity |].
      split; [reflexivity |]. right. exists msg. auto.
  - destruct (pokemon_data p) as [d | e] eqn:Ed; cbn.
    + split; [exact Hwf' |]. left. exists p. rewrite Ed. repeat split; auto.
      unfold raises_builtin. intros e' He'; discriminate He'.
    + rewrite (builtin_not_DoesNotExist e (pokemon_data_builtin p e Ed)). cbn.
      split; [exact Hwf' |]. left. exists p. rewrite Ed. repeat split; auto.
      unfold raises_builtin. intros e' [= <-]. exact (pokemon_data_builtin p e Ed).
Qed.

(* ===================================================================== *)
(** ** Failures of the JSON API *)
(* ===================================================================== *)

(** X12.  On a table that satisfies its constraints, [PokemonAPIView.get]
    lets an exception out only when reading the derived fields raises: a
    [KeyError], a [TypeError] or an [OverflowError], raised on the row of the
    table that has the name, or, when no row has it, on the object the
    fetch has returned, whose attributes are the values of the provider's
    document as they came. *)
Theorem api_view_raises_only_from_accessors (w : World) (pokemon_name : text)
        (s s1 : Store) (e : exn) :
  well_formed s ->
  PokemonAPIView_get w pokemon_name s = (s1, Raise e) ->
  builtin_error e = true /\
  ((exists p, filter (ORM.has_name (lower w pokemon_name)) (pokemons s) = [p] /\
              In p (pokemons s1) /\ pokemon_data p = Raise e) \/
   (exists p : ORM.Instance,
       filter (ORM.has_name (lower w pokemon_name)) (pokemons s) = [] /\
       snd (fetch_pokemon w pokemon_name
              (add_effect (EvPokemonGetByName (lower w pokemon_name)) s))
         = Ok (Some p, true, None) /\
       In (ORM.row p) (pokemons s1) /\ instance_data p = Raise e)).
Proof.
  intros Hwf Hrun. pose proof (api_view_cases w pokemon_name s Hwf) as H.
  unfold post in H. rewrite Hrun in H. cbn [fst snd] in H.
  destruct H as (_ & [(p & Hhit & -> & Hr & Hb) |
                     (Hmiss & -> & [(p & Hfetch & Hin & Hr & Hb) | (msg & _ & _ & [=])])]).
  - destruct (pokemon_data p) as [d | e'] eqn:Ed; [discriminate |]. injection Hr as ->.
    split; [apply Hb; reflexivity |]. left. exists p. repeat split; auto.
    assert (Hp : In p (filter (ORM.has_name (lower w pokemon_name)) (pokemons s)))
      by (rewrite Hhit; left; reflexivity).
    apply filter_In in Hp. apply Hp.
  - destruct (instance_data p) as [d | e'] eqn:Ed; [discriminate |]. injection Hr as ->.
    split; [apply Hb; reflexivity |]. right. exists p. auto.
Qed.

Lemma misshapen_row_raises :
  PokemonAPIView_get misshapen_world "squirtle"
    (fst (fetch_pokemon misshapen_world "squirtle" empty_store))
  = (add_effect (EvPokemonGetByName "squirtle")
       (fst (fetch_pokemon misshapen_world "squirtle" empty_store)),
     Raise (Py.key_error "type")).
Proof. vm_compute. reflexivity. Qed.

Lemma api_view_raises_only_from_accessors_witness :
  builtin_error (Py.key_error "type") = true.
Proof.
  exact (proj1 (api_view_raises_only_from_accessors
                  misshapen_world "squirtle"
                  (fst (fetch_pokemon misshapen_world "squirtle" empty_store))
                  (add_effect (EvPokemonGetByName "squirtle")
                     (fst (fetch_pokemon misshapen_world "squirtle" empty_store)))
                  (Py.key_error "type")
                  (fetch_pokemon_well_formed misshapen_world "squirtle" empty_store
                     empty_store_well_formed)
                  misshapen_row_raises)).
Defined.

(** A height that came as a string of digits: the column holds the number
    and the row reads well, the object the fetch has returned holds the
    string, and the view, which reads that object, raises. *)
Example quoted_height_raises :
  let run := PokemonAPIView_get quoting_world "squirtle" empty_store in
  snd run = Raise (mkExn TypeError "can't multiply sequence by non-int of type 'float'") /\
  map height (pokemons (fst run)) = [7] /\
  (forall p, In p (pokemons (fst run)) -> exists data, pokemon_data p = Ok data).
Proof.
  intros run.
  assert (Hrows : pokemons (fst run)
                  = [mkPokemon 1 7 "squirtle" 7 90 None quoted_payload 0 0])
    by (vm_compute; reflexivity).
  split; [vm_compute; reflexivity | split; [rewrite Hrows; reflexivity |]].
  rewrite Hrows. intros p [<- | []]. eexists. vm_compute. reflexivity.
Qed.

(* ===================================================================== *)
(** ** Provider calls of the JSON API *)
(* ===================================================================== *)

Lemma provider_calls_app l l' :
  provider_calls (l ++ l') = provider_calls l ++ provider_calls l'.
Proof.
  induction l as [| e l IH]; [reflexivity |].
  destruct e; cbn; rewrite IH; reflexivity.
Qed.

Lemma provider_calls_none evs :
  count_ev is_http_get evs = 0%nat -> provider_calls evs = [].
Proof.
  induction evs as [| e evs IH]; [reflexivity |].
  rewrite count_ev_cons. destruct e; cbn; try discriminate; exact IH.
Qed.

(** One call of the service is one call of the provider, whatever the
    outcome. *)
Lemma fetch_pokemon_calls w n s :
  provider_calls (effects (fst (fetch_pokemon w n s)))
    = provider_calls (effects s) ++ [url_of w n].
Proof.
  destruct (fetch_pokemon_trace w n s) as (evs & He & Hg & _).
  rewrite He, provider_calls_app. cbn. rewrite (provider_calls_none evs Hg). reflexivity.
Qed.

(** One call of the service with a name that can be encoded. *)
Lemma fetch_pokemon_turn w n s :
  PyStr.encodable n = true ->
  post (fetch_pokemon w n) s
       (fun s1 r =>
          provider_calls (effects s1) = provider_calls (effects s) ++ [url_of w n] /\
          (List.length (api_requests s) < List.length (api_requests s1))%nat /\
          ((exists p : ORM.Instance,
               r = Ok (Some p, true, None) /\ In (ORM.row p) (pokemons s1)) \/
           (exists msg, r = Ok (None, false, Some msg) /\ pokemons s1 = pokemons s))).
Proof.
  intros Henc.
  pose proof (fetch_pokemon_calls w n s) as Hc.
  pose proof (fetch_pokemon_last_row w n s Henc) as Hl.
  pose proof (fetch_pokemon_outcome w n s) as Ho.
  unfold post in *.
  destruct Hl as (reqs & last & Hl & _ & Hcase).
  split; [exact Hc |]. split; [rewrite Hl, !length_app; cbn; lia |].
  destruct Ho as [(p & Hr & Hin) | ([(msg & Hr) | Hr] & Hp & _)].
  - left. exists p. auto.
  - right. exists msg. auto.
  - destruct Hcase as [(p & Hr' & _) | (msg & Hr' & _)]; rewrite Hr in Hr'; discriminate.
Qed.

(** X10.  [PokemonAPIView.get] calls the provider when no row has the lookup key,
    once, and not otherwise; a request answered from the table leaves the
    tables and the request log as they were. *)
Theorem api_view_calls_provider_on_miss_only (w : World) (pokemon_name : text) (s : Store) :
  let run := PokemonAPIView_get w pokemon_name s in
  match filter (ORM.has_name (lower w pokemon_name)) (pokemons s) with
  | [] =>
      provider_calls (effects (fst run))
        = provider_calls (effects s) ++ [url_of w pokemon_name] /\
      (List.length (api_requests s) < List.length (api_requests (fst run)))%nat
  | _ :: _ =>
      provider_calls (effects (fst run)) = provider_calls (effects s) /\
      same_tables s (fst run)
  end.
Proof.
  intros run. subst run.
  unfold PokemonAPIView_get, ORM.Pokemon_get_by_name, try_except, bind, emit, modify, gets,
    lift.
  rewrite (bind_text_ok _ (encodable_lower_text w pokemon_name)).
  cbn [fst snd pokemons add_effect].
  set (s' := add_effect (EvPokemonGetByName (lower w pokemon_name)) s).
  assert (Hs' : provider_calls (effects s') = provider_calls (effects s)).
  { subst s'. cbn. rewrite provider_calls_app. cbn. apply app_nil_r. }
  destruct (filter (ORM.has_name (lower w pokemon_name)) (pokemons s))
    as [| p [| q rest]]; cbn [raise ret isinstance_DoesNotExist exc_class].
  - pose proof (fetch_pokemon_turn w pokemon_name s' (encodable_text pokemon_name)) as Ht.
    unfold post in Ht.
    destruct (fetch_pokemon w pokemon_name s') as [s1 r]. cbn [fst snd] in *.
    destruct Ht as (Hc & Hl & [(p & -> & _) | (msg & -> & _)]).
    + destruct (instance_data p); cbn; rewrite Hc, Hs'; auto.
    + cbn. rewrite Hc, Hs'. auto.
  - destruct (pokemon_data p) as [d | e] eqn:Ed; cbn.
    + split; [exact Hs' | repeat split].
    + rewrite (builtin_not_DoesNotExist e (pokemon_data_builtin p e Ed)). cbn.
      split; [exact Hs' | repeat split].
  - cbn. split; [exact Hs' | repeat split].
Qed.

(* ===================================================================== *)
(** ** The status of a failure of the JSON API *)
(* ===================================================================== *)

Lemma contains_skip (needle p s : str) :
  PyStr.contains needle s = true -> PyStr.contains needle (p ++ s)%str = true.
Proof.
  intros H. unfold PyStr.append. induction p as [| c p IH]; [exact H |].
  cbn [app PyStr.contains]. rewrite IH. apply orb_true_r.
Qed.

Lemma lacks_append c (s t : str) : lacks c (s ++ t)%str = lacks c s && lacks c t.
Proof. apply forallb_app. Qed.

Lemma lacks_contains c needle s :
  lacks c s = true -> PyStr.contains (c :: needle) s = false.
Proof.
  induction s as [| d s IH]; [reflexivity |].
  cbn [lacks forallb]. intros [Hd Hs]%andb_true_iff.
  cbn [PyStr.contains PyStr.prefix]. rewrite (IH Hs).
  apply negb_true_iff in Hd. rewrite Hd. reflexivity.
Qed.

Lemma lacks_n_uint d : lacks (Scalar 110) (PyStr.lit (NilEmpty.string_of_uint d)) = true.
Proof. unfold PyStr.of_text, PyStr.lit. induction d; cbn; auto. Qed.

Lemma lacks_n_of_Z z : lacks (Scalar 110) (PyStr.of_Z z) = true.
Proof.
  unfold PyStr.of_Z, NilZero.string_of_int, NilZero.string_of_uint.
  destruct (Z.to_int z) as [d | d]; destruct d; try reflexivity;
    try apply (lacks_n_uint (_ d)).
  all: unfold PyStr.of_text, PyStr.lit; cbn [list_ascii_of_string map lacks forallb];
    cbn [NilEmpty.string_of_uint]; cbn [list_ascii_of_string map lacks forallb];
    try apply (lacks_n_uint (_ d)); apply (lacks_n_uint d).
Qed.

(** X11.  How [PokemonAPIView.get] picks the status of a failure from its
    text, when no row has the lookup key: 404 for a provider 404, 500 for any
    other status; after a timeout or a connection error the status is 404
    when the normalised name contains "not found", and 500 otherwise. *)
Theorem api_view_failure_status (w : World) (pokemon_name : text) (s : Store) :
  filter (ORM.has_name (lower w pokemon_name)) (pokemons s) = [] ->
  let answer := snd (PokemonAPIView_get w pokemon_name s) in
  let failure msg code := Ok (mkJsonResponse (BodyFailure msg) code) in
  (forall response,
      http_get w (url_of w pokemon_name) = Ok response ->
      status_code response = 404 ->
      answer = failure ("Pokemon '" ++ normalize w pokemon_name ++ "' not found")%str 404) /\
  (forall response,
      http_get w (url_of w pokemon_name) = Ok response ->
      status_code response <> 200 ->
      status_code response <> 404 ->
      answer = failure ("API request failed with status "
                        ++ PyStr.of_Z (status_code response))%str 500) /\
  (forall e,
      http_get w (url_of w pokemon_name) = Raise e ->
      isinstance_Timeout e = true ->
      answer = failure ("Request timeout for Pokemon: " ++ normalize w pokemon_name)%str
                       (if PyStr.contains "not found" (normalize w pokemon_name)
                        then 404 else 500)) /\
  (forall e,
      http_get w (url_of w pokemon_name) = Raise e ->
      isinstance_Timeout e = false ->
      isinstance_ConnectionError e = true ->
      answer = failure ("Connection error when fetching Pokemon: "
                        ++ normalize w pokemon_name)%str
                       (if PyStr.contains "not found" (normalize w pokemon_name)
                        then 404 else 500)).
Proof.
  intros Hmiss answer failure. subst answer failure.
  pose proof (encodable_text pokemon_name) as Henc.
  rewrite <- (encodable_normalize w) in Henc.
  unfold PokemonAPIView_get, ORM.Pokemon_get_by_name, try_except, bind, emit, modify, gets,
    lift.
  rewrite (bind_text_ok _ (encodable_lower_text w pokemon_name)).
  cbn [fst snd pokemons add_effect]. rewrite Hmiss.
  cbn [raise isinstance_DoesNotExist exc_class].
  unfold url_of. fold (normalize w pokemon_name).
  repeat split.
  - intros response Hget Hcode.
    cbv beta zeta delta [fetch_pokemon try_except bind session_get emit modify lift
                         logger_info logger_warning ORM.APIRequest_create ret].
    fold (normalize w pokemon_name). rewrite Hget, Hcode. cbn [Z.eqb Pos.eqb fst snd].
    rewrite (bind_text_ok _ Henc). cbn [fst snd].
    rewrite bind_text_ok by (rewrite encodable_append, !encodable_text; reflexivity).
    cbn [fst snd].
    assert (Hc : PyStr.contains "not found"
                   ("Pokemon '" ++ normalize w pokemon_name ++ "' not found")%str = true).
    { apply (contains_skip _ "Pokemon '"), contains_skip, (contains_skip _ "' ").
      reflexivity. }
    rewrite Hc. reflexivity.
  - intros response Hget H200 H404.
    apply Z.eqb_neq in H200, H404.
    cbv beta zeta delta [fetch_pokemon try_except bind session_get emit modify lift
                         logger_info logger_error ORM.APIRequest_create ret].
    fold (normalize w pokemon_name). rewrite Hget, H200, H404. cbn [fst snd].
    rewrite (bind_text_ok _ Henc). cbn [fst snd].
    rewrite bind_text_ok by (rewrite encodable_append, !encodable_text; reflexivity).
    cbn [fst snd].
    assert (Hc : PyStr.contains "not found"
                   ("API request failed with status "
                    ++ PyStr.of_Z (status_code response))%str = false).
    { apply (lacks_contains (Scalar 110)). rewrite lacks_append, lacks_n_of_Z. reflexivity. }
    rewrite Hc. reflexivity.
  - intros e Hget Ht.
    cbv beta zeta delta [fetch_pokemon try_except bind session_get emit modify lift
                         logger_info logger_error _log_error ORM.APIRequest_create ret].
    fold (normalize w pokemon_name). rewrite Hget. cbn [fst snd]. rewrite Ht. cbn [fst snd].
    rewrite (bind_text_ok _ Henc). cbn [fst snd].
    rewrite bind_text_ok by (rewrite encodable_append, encodable_text; exact Henc).
    reflexivity.
  - intros e Hget Ht Hc.
    cbv beta zeta delta [fetch_pokemon try_except bind session_get emit modify lift
                         logger_info logger_error _log_error ORM.APIRequest_create ret].
    fold (normalize w pokemon_name). rewrite Hget. cbn [fst snd]. rewrite Ht, Hc. cbn [fst snd].
    rewrite (bind_text_ok _ Henc). cbn [fst snd].
    rewrite bind_text_ok by (rewrite encodable_append, encodable_text; exact Henc).
    reflexivity.
Qed.

Lemma timeout_for_not_found :
  filter (ORM.has_name (lower timeout_world " Not Found ")) (pokemons empty_store) = [] /\
  http_get timeout_world (url_of timeout_world " Not Found ")
    = Raise (mkExn Timeout "Read timed out. (read timeout=30)") /\
  Ok (mkJsonResponse
        (BodyFailure ("Request timeout for Pokemon: "
                      ++ normalize timeout_world " Not Found ")%str)
        (if PyStr.contains "not found" (normalize timeout_world " Not Found ")
         then 404 else 500))
    = Ok (mkJsonResponse (BodyFailure "Request timeout for Pokemon: not found") 404).
Proof. vm_compute. repeat split. Qed.

Lemma api_view_failure_status_witness :
  snd (PokemonAPIView_get timeout_world " Not Found " empty_store)
    = Ok (mkJsonResponse (BodyFailure "Request timeout for Pokemon: not found") 404).
Proof.
  exact (eq_trans
           (proj1 (proj2 (proj2 (api_view_failure_status timeout_world " Not Found "
                                   empty_store (proj1 timeout_for_not_found))))
              (mkExn Timeout "Read timed out. (read timeout=30)")
              (proj1 (proj2 timeout_for_not_found)) eq_refl)
           (proj2 (proj2 timeout_for_not_found))).
Defined.

(* ===================================================================== *)
(** ** The files a fetch writes *)
(* ===================================================================== *)

Lemma upsert_keeps_media w v d s :
  post (ORM.Pokemon_update_or_create w v d) s (fun s1 _ => media s1 = media s).
Proof.
  unfold ORM.Pokemon_update_or_create.
  wp_all; cbn; auto.
  all: repeat match goal with |- context [if ?b then _ else _] => destruct b end; cbn; auto.
Qed.

(** X5.  The file is written before the row: once the provider has answered
    200 with a document that has an id, the request log has accepted the
    name and the document, and the storage takes the file, the media hold
    the document, whether or not the call then succeeds.  The file has the
    name [pokemon_data/<normalised name>_<id>.json] when no file has it yet,
    and the name the storage gives it instead when a file saved before has
    it. *)
Theorem document_saved_before_row (w : World) (pokemon_name : str) (s : Store)
        (response : Response) (data v_id : JSON) :
  PyStr.encodable pokemon_name = true ->
  http_get w (url_of w pokemon_name) = Ok response ->
  status_code response = 200 ->
  json response = Ok data ->
  ORM.json_valid data = true ->
  Py.getitem data "id" = Ok v_id ->
  storage_save w (filename_of w pokemon_name v_id) = None ->
  let in_use := map fst (media s) in
  let filename := filename_of w pokemon_name v_id in
  media (fst (fetch_pokemon w pokemon_name s))
    = media s ++ [(stored_name w in_use filename, data)] /\
  (existsb (PyStr.eqb filename) in_use = false -> name_taken w filename = false ->
   stored_name w in_use filename = filename) /\
  (existsb (PyStr.eqb filename) in_use = true ->
   stored_name w in_use filename = alternative_name w in_use filename).
Proof.
  intros Henc Hget Hcode Hjson Hvalid Hid Hsave in_use filename.
  split; [| unfold stored_name; split; [intros -> -> | intros ->]; reflexivity].
  subst in_use filename.
  rewrite <- (encodable_normalize w) in Henc. unfold normalize in Henc.
  unfold url_of in Hget. unfold filename_of in *.
  change (post (fetch_pokemon w pokemon_name) s
               (fun s1 _ => media s1
                  = media s ++ [(stored_name w (map fst (media s))
                                   ("pokemon_data/" ++ PyStr.strip (lower w pokemon_name)
                                    ++ "_" ++ py_str w v_id ++ ".json")%str, data)])).
  destruct response as [code body]. cbn in Hcode, Hjson. subst code body.
  unfold fetch_pokemon, session_get, response_json, _save_json_to_file, default_storage_save
    in *.
  rewrite Hget.
  repeat first [ rewrite Hid | rewrite Hsave | rewrite Hvalid
               | progress cbn [Z.eqb Pos.eqb json status_code]
               | wp_step | wp_open ].
  all: try (eapply post_weaken; [apply upsert_keeps_media | cbn beta; intros ? [[? ?] | ?] Hm]).
  all: repeat (wp_step || wp_open).
  all: try congruence.
  all: cbn [media add_log add_effect add_api_request add_media]; rewrite ?Hm;
    cbn [media add_log add_effect add_api_request add_media]; reflexivity.
Qed.

Lemma mew_is_saved :
  snd (fetch_pokemon bare_world "Mew " empty_store)
    = Ok (None, false, Some ("Unexpected error: 'name'" : str)) /\
  stored_name bare_world (map fst (media empty_store))
              (filename_of bare_world "Mew " (JInt 7))
    = ("pokemon_data/mew_7.json" : str).
Proof. vm_compute. split; reflexivity. Qed.

Lemma document_saved_before_row_witness :
  snd (fetch_pokemon bare_world "Mew " empty_store)
    = Ok (None, false, Some ("Unexpected error: 'name'" : str)) /\
  media (fst (fetch_pokemon bare_world "Mew " empty_store))
    = [("pokemon_data/mew_7.json" : str, bare_payload)].
Proof.
  split; [exact (proj1 mew_is_saved) |].
  rewrite <- (proj2 mew_is_saved).
  exact (proj1 (document_saved_before_row bare_world "Mew " empty_store
                  (mkResponse 200 (Ok bare_payload)) bare_payload (JInt 7)
                  eq_refl eq_refl eq_refl eq_refl eq_refl eq_refl eq_refl)).
Defined.

(** The second document of a name and an id goes under another name. *)
Example second_file_is_renamed :
  map fst (media (fst (fetch_pokemon ditto_world "ditto" store_with_ditto)))
    = ["pokemon_data/ditto_132.json" : str; "pokemon_data/ditto_132_0000011.json" : str].
Proof. vm_compute. reflexivity. Qed.

(** X6.  A fetch writes at most one file, and only in that case. *)
Theorem fetch_pokemon_writes_one_file (w : World) (pokemon_name : str) (s : Store) :
  let run := fetch_pokemon w pokemon_name s in
  media (fst run) = media s \/
  exists response data v_id,
    http_get w (url_of w pokemon_name) = Ok response /\
    status_code response = 200 /\
    json response = Ok data /\
    Py.getitem data "id" = Ok v_id /\
    storage_save w (filename_of w pokemon_name v_id) = None /\
    media (fst run)
      = media s ++ [(stored_name w (map fst (media s)) (filename_of w pokemon_name v_id),
                     data)].
Proof.
  intros run. subst run.
  change (post (fetch_pokemon w pokemon_name) s
            (fun s1 _ =>
               media s1 = media s \/
               exists response data v_id,
                 http_get w (url_of w pokemon_name) = Ok response /\
                 status_code response = 200 /\
                 json response = Ok data /\
                 Py.getitem data "id" = Ok v_id /\
                 storage_save w (filename_of w pokemon_name v_id) = None /\
                 media s1
                   = media s ++ [(stored_name w (map fst (media s))
                                    (filename_of w pokemon_name v_id), data)])).
  unfold url_of, filename_of.
  unfold fetch_pokemon, session_get, response_json, _save_json_to_file, default_storage_save.
  repeat (wp_step || wp_open).
  all: try (eapply post_weaken; [apply upsert_keeps_media | cbn beta; intros ? [[? ?] | ?] Hm]).
  all: repeat (wp_step || wp_open).
  all: cbn [media add_log add_effect add_api_request add_media]; rewrite ?Hm;
    cbn [media add_log add_effect add_api_request add_media].
  all: try (left; reflexivity).
  all: right.
  all: match goal with H : (_ =? 200) = true |- _ => apply Z.eqb_eq in H end.
  all: eauto 12.
Qed.

(* ===================================================================== *)
(** ** The management command *)
(* ===================================================================== *)

(** One turn of the loop. *)
Lemma handle_names_cons w n rest s out :
  handle_names w (n :: rest) (s, out) =
  match stdout_write w (fetching_line n) with
  | Some e => ((s, out), Raise e)
  | None =>
      let out1 := out ++ [fetching_line n] in
      match fetch_pokemon w n s with
      | (s1, Ok (Some p, true, _)) =>
          match stdout_write w (success_line w p) with
          | Some e => ((s1, out1), Raise e)
          | None => handle_names w rest (s1, out1 ++ [success_line w p])
          end
      | (s1, Ok (None, true, _)) =>
          ((s1, out1), Raise (mkExn AttributeError "'NoneType' object has no attribute 'name'"))
      | (s1, Ok (_, false, error)) =>
          match stdout_write w (failure_line n error) with
          | Some e => ((s1, out1), Raise e)
          | None => handle_names w rest (s1, out1 ++ [failure_line n error])
          end
      | (s1, Raise e) => ((s1, out1), Raise e)
      end
  end.
Proof.
  cbn [handle_names].
  unfold bind, stdout_write_line, modify, on_store, raise, no_attribute_None. cbn [fst snd].
  destruct (stdout_write w (fetching_line n)); [reflexivity |]. cbn [fst snd].
  destruct (fetch_pokemon w n s) as [s1 [[[[p |] []] e] | e]]; cbn [fst snd];
    try reflexivity.
  - destruct (stdout_write w (success_line w p)); reflexivity.
  - destruct (stdout_write w (failure_line n e)); reflexivity.
  - destruct (stdout_write w (failure_line n e)); reflexivity.
Qed.

(** The command keeps the table within its constraints, however it ends. *)
Lemma handle_names_well_formed w names :
  forall s out, well_formed s -> well_formed (fst (fst (handle_names w names (s, out)))).
Proof.
  induction names as [| n names IH]; intros s out Hwf; [exact Hwf |].
  rewrite handle_names_cons.
  destruct (stdout_write w (fetching_line n)); [exact Hwf |]. cbn zeta.
  pose proof (fetch_pokemon_well_formed w n s Hwf) as Hwf1.
  destruct (fetch_pokemon w n s) as [s1 [[[[p |] []] e] | e]]; cbn [fst snd] in *;
    try exact Hwf1.
  - destruct (stdout_write w (success_line w p)); [exact Hwf1 | apply IH, Hwf1].
  - destruct (stdout_write w (failure_line n e)); [exact Hwf1 | apply IH, Hwf1].
  - destruct (stdout_write w (failure_line n e)); [exact Hwf1 | apply IH, Hwf1].
Qed.

Lemma handle_names_spec w names :
  (forall line, stdout_write w line = None) ->
  forallb PyStr.encodable names = true ->
  forall s out,
    let run := handle_names w names (s, out) in
    snd run = Ok tt /\
    (exists lines, snd (fst run) = out ++ lines /\ reports w s names lines (fst (fst run))) /\
    provider_calls (effects (fst (fst run)))
      = provider_calls (effects s) ++ map (url_of w) names /\
    (List.length (api_requests s) + List.length names
     <= List.length (api_requests (fst (fst run))))%nat.
Proof.
  intros Hout. induction names as [| n names IH]; intros Hnames s out run.
  - subst run. cbn. rewrite !app_nil_r.
    split; [reflexivity |].
    split; [exists []; split; [symmetry; apply app_nil_r | constructor] |].
    split; [reflexivity | lia].
  - cbn [forallb] in Hnames. apply andb_true_iff in Hnames as [Hn Hnames].
    specialize (IH Hnames).
    subst run. rewrite handle_names_cons, Hout. cbn zeta.
    pose proof (fetch_pokemon_turn w n s Hn) as Ht. unfold post in Ht.
    destruct (fetch_pokemon w n s) as [s1 r] eqn:Hrun. cbn [fst snd] in *.
    destruct Ht as (Hc & Hl & [(p & -> & Hin) | (msg & -> & Hp)]); rewrite Hout.
    + specialize (IH s1 ((out ++ [fetching_line n]) ++ [success_line w p])).
      cbn zeta in IH. destruct IH as (Hr & (lines & Hlines & Hrep) & Hcalls & Hlen).
      split; [exact Hr |].
      split; [exists (fetching_line n :: success_line w p :: lines);
              split; [rewrite Hlines, <- !app_assoc; reflexivity
                     | eapply reports_success; [exact Hrun | exact Hrep]] |].
      split; [rewrite Hcalls, Hc, <- app_assoc; reflexivity |].
      cbn [List.length]. lia.
    + specialize (IH s1 ((out ++ [fetching_line n]) ++ [failure_line n (Some msg)])).
      cbn zeta in IH. destruct IH as (Hr & (lines & Hlines & Hrep) & Hcalls & Hlen).
      split; [exact Hr |].
      split; [exists (fetching_line n :: failure_line n (Some msg) :: lines);
              split; [rewrite Hlines, <- !app_assoc; reflexivity
                     | eapply reports_failure; [exact Hrun | exact Hrep]] |].
      split; [rewrite Hcalls, Hc, <- app_assoc; reflexivity |].
      cbn [List.length]. lia.
Qed.

(** X13.  With names that UTF-8 can encode and an output stream that takes
    every line, the command returns; it writes two lines for each name, the
    announcement and then the success line of the object the service has
    returned for that name or the failure line with the message it has
    returned; it calls the provider once for each name, in order and whether
    or not the name is in the table already, and logs each call; [--force]
    changes nothing. *)
Theorem handle_fetches_every_name (w : World) (options : Options) (s : Store)
        (out : list Written) :
  (forall line, stdout_write w line = None) ->
  forallb PyStr.encodable (pokemon_names options) = true ->
  let run := handle w options (s, out) in
  snd run = Ok tt /\
  (exists lines,
      snd (fst run) = out ++ lines /\
      reports w s (pokemon_names options) lines (fst (fst run))) /\
  provider_calls (effects (fst (fst run)))
    = provider_calls (effects s) ++ map (url_of w) (pokemon_names options) /\
  (List.length (api_requests s) + List.length (pokemon_names options)
   <= List.length (api_requests (fst (fst run))))%nat /\
  handle w (mkOptions (pokemon_names options) (negb (force options))) = handle w options.
Proof.
  intros Hout Hnames run. subst run. unfold handle.
  destruct (handle_names_spec w (pokemon_names options) Hout Hnames s out)
    as (H1 & H2 & H3 & H4).
  repeat (split; [assumption |]). reflexivity.
Qed.

Lemma ditto_on_the_console :
  snd (fst (handle ditto_world (mkOptions ["Ditto" : str] false) (empty_store, [])))
    = [(PLAIN, "Fetching Ditto..." : str);
       (SUCCESS, (check_mark ++ " Successfully fetched ditto")%str)].
Proof. vm_compute. reflexivity. Qed.

Lemma handle_fetches_every_name_witness :
  snd (handle ditto_world (mkOptions ["Ditto" : str] false) (empty_store, [])) = Ok tt /\
  snd (fst (handle ditto_world (mkOptions ["Ditto" : str] false) (empty_store, [])))
    = [(PLAIN, "Fetching Ditto..." : str);
       (SUCCESS, (check_mark ++ " Successfully fetched ditto")%str)].
Proof.
  split; [| exact ditto_on_the_console].
  exact (proj1 (handle_fetches_every_name ditto_world (mkOptions ["Ditto" : str] false)
                  empty_store [] (fun _ => eq_refl) eq_refl)).
Defined.

(** A name from the command line that UTF-8 cannot encode ends the command:
    the announcement of the name is its last line, the names after it are
    not fetched, and the exception of the insert into the request log
    reaches the caller. *)
Example handle_stops_at_undecodable_name :
  let run := handle ditto_world
                    (mkOptions ["ditto" : str; undecodable_name; "mew" : str] false)
                    (empty_store, []) in
  snd run = Raise (ORM.unicode_encode_error undecodable_name) /\
  map fst (snd (fst run)) = [PLAIN; SUCCESS; PLAIN] /\
  List.length (provider_calls (effects (fst (fst run)))) = 2%nat /\
  List.length (api_requests (fst (fst run))) = 1%nat.
Proof. vm_compute. repeat split. Qed.

(* ===================================================================== *)
(** ** The invariant of the Pokemon table *)
(* ===================================================================== *)

(** X14.  The uniqueness constraints of the table hold in every reachable
    store. *)
Theorem reachable_well_formed (s : Store) : reachable s -> well_formed s.
Proof.
  induction 1 as [| w n s _ IH | w n s _ IH | w n s _ IH | w k s _ IH | w options s out _ IH].
  - exact empty_store_well_formed.
  - apply fetch_pokemon_well_formed, IH.
  - rewrite form_valid_store. apply fetch_pokemon_well_formed, IH.
  - apply (api_view_cases w n s IH).
  - unfold DownloadJSONView_get, bind, gets, lift. cbn.
    destruct (filter (ORM.has_pk k) (pokemons s)) as [| p [| q rest]]; try exact IH.
    destruct (header_value w _); exact IH.
  - apply handle_names_well_formed, IH.
Qed.

Lemma reachable_well_formed_witness : well_formed store_with_ditto.
Proof. apply reachable_well_formed. apply reach_fetch, reach_empty. Defined.

(* ===================================================================== *)
(** ** The derived accessors on the entries of the document *)
(* ===================================================================== *)

Lemma comprehension_all {A B} (body : A -> result B) items names :
  Py.comprehension (fun _ => Ok true) body items = Ok names <-> one_for_one body items names.
Proof.
  unfold one_for_one. revert names.
  induction items as [| x items IH]; intros names; cbn.
  - split; [intros [= <-]; constructor | intros H; inversion H; reflexivity].
  - destruct (body x) as [y | e] eqn:Ey.
    + destruct (Py.comprehension _ body items) as [ys | e] eqn:Ec.
      * split.
        -- intros [= <-]. constructor; [exact Ey | apply IH; reflexivity].
        -- intros H. inversion H as [| ? y' ? ys' Hy Hys]; subst.
           apply IH in Hys. congruence.
      * split; [discriminate |].
        intros H. inversion H as [| ? y' ? ys' Hy Hys]; subst.
        apply IH in Hys. discriminate.
    + split; [discriminate |].
      intros H. inversion H; subst. congruence.
Qed.

Lemma comprehension_split {A B} (cond : A -> result bool) (body : A -> result B) items a h :
  Py.comprehension (fun x => and_then (cond x) (fun b => Ok (negb b))) body items = Ok a ->
  Py.comprehension cond body items = Ok h ->
  exists names, one_for_one body items names /\ Permutation (a ++ h) names.
Proof.
  unfold one_for_one. revert a h.
  induction items as [| x items IH]; intros a h; cbn.
  - intros [= <-] [= <-]. exists []. split; constructor.
  - destruct (cond x) as [[|] | e]; cbn; [| | discriminate].
    + destruct (body x) as [y | e] eqn:Ey; [| discriminate].
      destruct (Py.comprehension cond body items) as [hs | e]; [| discriminate].
      intros Ha [= <-]. destruct (IH a hs Ha eq_refl) as (names & Hn & Hp).
      exists (y :: names). split; [constructor; assumption |].
      apply Permutation_sym, Permutation_cons_app, Permutation_sym, Hp.
    + destruct (body x) as [y | e] eqn:Ey; [| discriminate].
      destruct (Py.comprehension _ body items) as [az | e]; [| discriminate].
      intros [= <-] Hh. destruct (IH az h eq_refl Hh) as (names & Hn & Hp).
      exists (y :: names). split; [constructor; assumption |].
      cbn. constructor. exact Hp.
Qed.

(** Setting a key that no item has appends the item. *)
Lemma dict_set_fresh k v d :
  Forall (fun earlier => Py.same_key k (fst earlier) = false) d ->
  Py.dict_set k v d = d ++ [(k, v)].
Proof.
  induction d as [| [k' v'] d IH]; [reflexivity |].
  intros H. inversion H as [| ? ? Hk Hd]; subst. cbn in Hk |- *.
  rewrite Hk, (IH Hd). reflexivity.
Qed.

(** Setting a key leaves every key that was there, and adds at most the
    key. *)
Lemma dict_set_keys (P : JSON -> Prop) k v d :
  P k -> Forall (fun kv => P (fst kv)) d -> Forall (fun kv => P (fst kv)) (Py.dict_set k v d).
Proof.
  intros Hk. induction d as [| [k' v'] d IH]; intros H.
  - constructor; [exact Hk | constructor].
  - inversion H as [| ? ? Hk' Hd]; subst. cbn [Py.dict_set].
    destruct (Py.same_key k k'); constructor; auto.
Qed.

Lemma dict_set_distinct k v d : distinct_keys d -> distinct_keys (Py.dict_set k v d).
Proof.
  induction d as [| [k' v'] d IH]; intros H.
  - cbn. auto.
  - destruct H as (Hlater & Hd). cbn [Py.dict_set].
    destruct (Py.same_key k k') eqn:E.
    + split; assumption.
    + split; [| exact (IH Hd)].
      apply (dict_set_keys (fun later => Py.same_key later k' = false)); assumption.
Qed.

Lemma dict_set_length k v d :
  (List.length d <= List.length (Py.dict_set k v d) <= S (List.length d))%nat.
Proof.
  induction d as [| [k' v'] d IH]; cbn; [lia |].
  destruct (Py.same_key k k'); cbn; lia.
Qed.

Lemma distinct_keys_snoc d kv ins :
  distinct_keys (d ++ kv :: ins) ->
  Forall (fun earlier => Py.same_key (fst kv) (fst earlier) = false) d.
Proof.
  induction d as [| x d IH]; [constructor |].
  cbn. intros (Hlater & Hd). constructor; [| exact (IH Hd)].
  rewrite Forall_forall in Hlater. apply (Hlater kv). apply in_elt.
Qed.

Lemma dict_fold ins :
  forall d,
    let d' := fold_left (fun d kv => Py.dict_set (fst kv) (snd kv) d) ins d in
    (distinct_keys d -> distinct_keys d') /\
    (List.length d <= List.length d' <= List.length d + List.length ins)%nat /\
    (distinct_keys (d ++ ins) -> d' = d ++ ins).
Proof.
  induction ins as [| [k v] ins IH]; intros d; cbn [fold_left fst snd].
  - cbn. rewrite app_nil_r. split; [auto | split; [lia | auto]].
  - destruct (IH (Py.dict_set k v d)) as (H1 & H2 & H3).
    pose proof (dict_set_length k v d) as Hlen.
    cbn zeta in *. split; [| split].
    + intros Hd. apply H1, dict_set_distinct, Hd.
    + cbn [List.length]. lia.
    + intros Hd.
      rewrite (dict_set_fresh k v d (distinct_keys_snoc d (k, v) ins Hd)) in *.
      rewrite <- app_assoc in H3. apply H3. exact Hd.
Qed.

(** X15.  [types] returns exactly when the body of its comprehension
    returns on every entry, and then holds one name per entry, in the order
    of the document.  [base_stats] returns exactly when the body of its
    comprehension returns on every entry, and then is the [dict] that the
    insertions build, one for each entry in order: a key that comes again
    keeps its place and takes the later value, so that no two items have the
    same key and there are at most as many items as entries; when the keys
    of the entries are pairwise different there is one item per entry, in
    the order of the document. *)
Theorem types_and_stats_follow_entries (self : Pokemon) :
  (forall names,
      types self = Ok names <->
      exists items, entries self "types" = Ok items /\
                    one_for_one (fun type_data => getitem2 type_data "type" "name")
                                items names) /\
  (forall stats,
      base_stats self = Ok stats <->
      exists items insertions,
        entries self "stats" = Ok items /\
        one_for_one stat_item items insertions /\
        stats = Py.dict_of insertions) /\
  (forall insertions,
      distinct_keys (Py.dict_of insertions) /\
      (List.length (Py.dict_of insertions) <= List.length insertions)%nat /\
      (distinct_keys insertions -> Py.dict_of insertions = insertions)).
Proof.
  split; [| split].
  - intros out. unfold types, entries.
    destruct (has_key (raw_data self) "types") as [[|] | e]; cbn.
    + destruct (Py.getitem (raw_data self) "types") as [seq | e]; cbn.
      * destruct (Py.iter seq) as [items | e]; cbn.
        -- rewrite comprehension_all. split; [eauto |].
           intros (items' & [= <-] & H). exact H.
        -- split; [discriminate | intros (? & [=] & _)].
      * split; [discriminate | intros (? & [=] & _)].
    + split.
      * intros [= <-]. exists []. split; [reflexivity | constructor].
      * intros (items & [= <-] & H). inversion H. reflexivity.
    + split; [discriminate | intros (? & [=] & _)].
  - intros out. unfold base_stats, entries.
    destruct (has_key (raw_data self) "stats") as [[|] | e]; cbn.
    + destruct (Py.getitem (raw_data self) "stats") as [seq | e]; cbn.
      * destruct (Py.iter seq) as [items | e]; cbn.
        -- destruct (Py.comprehension _ stat_item items) as [ins | e] eqn:Ec; cbn.
           ++ apply comprehension_all in Ec. split.
              ** intros [= <-]. eauto.
              ** intros (items' & ins' & [= <-] & H & ->).
                 apply comprehension_all in Ec, H. congruence.
           ++ split; [discriminate |].
              intros (items' & ins' & [= <-] & H & _).
              apply comprehension_all in H. congruence.
        -- split; [discriminate | intros (? & ? & [=] & _)].
      * split; [discriminate | intros (? & ? & [=] & _)].
    + split.
      * intros [= <-]. exists [], []. split; [reflexivity | split; [constructor | reflexivity]].
      * intros (items & ins & [= <-] & H & ->). inversion H. reflexivity.
    + split; [discriminate | intros (? & ? & [=] & _)].
  - intros ins. unfold Py.dict_of.
    destruct (dict_fold ins []) as (H1 & H2 & H3). cbn zeta in *.
    split; [apply H1; exact I | split; [cbn in H2; lia | exact H3]].
Qed.

(** A stat listed twice is one item, in the place of the first entry and with
    the value of the last. *)
Example repeated_stat_is_one_item :
  base_stats repeated_stat_row = Ok [(JStr "hp", JInt 60); (JStr "attack", JInt 50)].
Proof. reflexivity. Qed.

(** X16.  When both return, [abilities] and [hidden_abilities] share out the
    entries: together they hold the name of every entry, once. *)
Theorem abilities_share_out_entries (self : Pokemon) (regular hidden : list JSON) :
  abilities self = Ok regular ->
  hidden_abilities self = Ok hidden ->
  exists items names,
    entries self "abilities" = Ok items /\
    one_for_one (fun ability => getitem2 ability "ability" "name") items names /\
    Permutation (regular ++ hidden) names.
Proof.
  unfold abilities, hidden_abilities, entries.
  destruct (has_key (raw_data self) "abilities") as [[|] | e]; cbn; [| | discriminate].
  - destruct (Py.getitem (raw_data self) "abilities") as [seq | e]; cbn; [| discriminate].
    destruct (Py.iter seq) as [items | e]; cbn; [| discriminate].
    intros Ha Hh. destruct (comprehension_split _ _ items regular hidden Ha Hh)
      as (names & Hn & Hp).
    exists items, names. auto.
  - intros [= <-] [= <-]. exists [], []. repeat split; constructor.
Qed.

Lemma abilities_share_out_entries_witness :
  exists items names,
    entries ditto_row "abilities" = Ok items /\
    one_for_one (fun ability => getitem2 ability "ability" "name") items names /\
    Permutation ([JStr "limber"] ++ []) names.
Proof.
  exact (abilities_share_out_entries ditto_row [JStr "limber"] [] eq_refl eq_refl).
Defined.
